(** * Cha de casa nova: the identity-keyed state reconciliation layer

    A shallow embedding of [src/types.ts], [src/constants.ts] and the state
    handling of [src/App.tsx] (schemas, [maskPhone], the gift catalog
    handlers, the attendance upsert, the aggregates, the identity modal and
    the cold-start hydration), followed by the properties of the
    specification that concern them.

    Conventions of the embedding.
    - A JavaScript string is a Rocq [string]; every [ascii] stands for one
      UTF-16 code unit (the Latin-1 range, which covers every literal of the
      sources).  The accented letters of the literals are written with [lat].
    - A JavaScript number is a [Z]: the numbers the handlers see are the
      values of the [<select>] controls and their sums.
    - An optional property ([link?], [reservedBy?]) is an [option]; a
      property set to [undefined] is [None], as [JSON.stringify] drops it.
    - [localStorage] is a finite map from keys to strings; the documents in
      it are texts, written by [Json.stringify] and read by [Json.parse].
      TypeScript's annotations are not checked when a document is read, so
      a document read is either of the declared type or kept as parsed.
    - [Date.now()] and [new Date().toISOString()] are inputs of the handlers
      that read the clock.
    - An exception nothing catches ends the code that raised it: the
      [SyntaxError] of [JSON.parse] is the result [None] or [Thrown]. *)

From Stdlib Require Import ZArith NArith Ascii String List Lia Bool.
From Stdlib Require Import Numbers.DecimalString DecimalFacts DecimalPos DecimalN DecimalZ.
From stdpp Require Import base option list strings gmap.
Import ListNotations.

Local Open Scope string_scope.
Local Open Scope list_scope.
Local Open Scope Z_scope.

(* ===================================================================== *)
(** * JavaScript strings                                                  *)
(* ===================================================================== *)

Module Js.

(** One Latin-1 character given by its code unit. *)
Definition lat (n : nat) : string := String (ascii_of_nat n) EmptyString.

(** [!value] for a string: only the empty string is falsy. *)
Definition falsy (value : string) : bool :=
  match value with EmptyString => true | _ => false end.

(** [a || b] on possibly absent strings: the first truthy operand. *)
Definition or_else (a : option string) (b : string) : string :=
  match a with
  | Some s => if falsy s then b else s
  | None => b
  end.

(** [n || 0] on a number. *)
Definition or_zero (n : Z) : Z := if n =? 0 then 0 else n.

(** [\d] *)
Definition is_digit (c : ascii) : bool :=
  (48 <=? nat_of_ascii c)%nat && (nat_of_ascii c <=? 57)%nat.

(** [s.slice(a, b)] for [0 <= a] and [0 <= b] *)
Definition slice (s : string) (a b : nat) : string :=
  string_of_list_ascii (take (b - a) (drop a (list_ascii_of_string s))).

(** [s.slice(a)] *)
Definition slice_from (s : string) (a : nat) : string :=
  string_of_list_ascii (drop a (list_ascii_of_string s)).

(** [s.replace(/[^\d]/g, '')] *)
Definition strip_non_digits (s : string) : string :=
  string_of_list_ascii (List.filter is_digit (list_ascii_of_string s)).

(** [n.toString()] for a non-negative integer *)
Definition toString (n : N) : string :=
  NilZero.string_of_uint (N.to_uint n).

End Js.

(* ===================================================================== *)
(** * types.ts                                                            *)
(* ===================================================================== *)

Record User := mkUser {
  user_name : string;
  user_phone : string;
  user_isAdmin : bool
}.

Record Gift := mkGift {
  id : string;
  gift_name : string;
  description : string;
  imageUrl : string;
  link : option string;
  priceEstimate : option Z;
  reservedBy : option string;
  isReserved : bool
}.

Record Presenca := mkPresenca {
  name : string;
  phone : string;
  attending : bool;
  adultsCount : Z;
  childrenCount : Z;
  guestsCount : Z;
  date : string
}.

Record EventConfig := mkEventConfig {
  eventDate : string;
  eventTime : string;
  location : string;
  locationLink : option string;
  rsvpDeadline : string;
  googleCalendarLink : string
}.

(* ===================================================================== *)
(** * constants.ts                                                        *)
(* ===================================================================== *)

Definition INITIAL_GIFTS : list Gift := [
  {| id := "1";
     gift_name := "Jogo de Jantar 20 Pe" +:+ Js.lat 231 +:+ "as";
     description :=
       "Conjunto de pratos de porcelana branca Oxford para ocasi" +:+ Js.lat 245
         +:+ "es especiais.";
     imageUrl := "https://images.unsplash.com/photo-1574362848149-11496d93a7c7?auto=format&fit=crop&q=80&w=600";
     link := Some "https://www.amazon.com.br/s?k=jogo+de+jantar+porcelana";
     priceEstimate := None;
     reservedBy := None;
     isReserved := false |};
  {| id := "2";
     gift_name := "Fritadeira El" +:+ Js.lat 233 +:+ "trica Airfryer";
     description :=
       "Airfryer potente (4L) para nossas receitas saud" +:+ Js.lat 225
         +:+ "veis de final de semana.";
     imageUrl := "https://images.unsplash.com/photo-1626071494702-420443e2ee43?auto=format&fit=crop&q=80&w=600";
     link := Some "https://www.magazineluiza.com.br/busca/airfryer/";
     priceEstimate := None;
     reservedBy := None;
     isReserved := false |};
  {| id := "3";
     gift_name := "Jogo de Toalhas Gigante";
     description :=
       "Kit banho e rosto em algod" +:+ Js.lat 227 +:+ "o eg" +:+ Js.lat 237
         +:+ "pcio, cor off-white.";
     imageUrl := "https://images.unsplash.com/photo-1584622650111-993a426fbf0a?auto=format&fit=crop&q=80&w=600";
     link := Some "https://www.tokstok.com.br/banho/jogos-de-toalha";
     priceEstimate := None;
     reservedBy := None;
     isReserved := false |};
  {| id := "4";
     gift_name := "Aspirador de P" +:+ Js.lat 243 +:+ " Rob" +:+ Js.lat 244;
     description := "Para nos ajudar a manter o novo lar sempre impec" +:+ Js.lat 225 +:+ "vel.";
     imageUrl := "https://images.unsplash.com/photo-1518314916381-77a37c2a49ae?auto=format&fit=crop&q=80&w=600";
     link := Some "https://www.mercadolivre.com.br/aspirador-robo";
     priceEstimate := None;
     reservedBy := None;
     isReserved := false |}
].

Definition DEFAULT_CONFIG : EventConfig :=
  {| eventDate := "2024-12-15";
     eventTime := "18:00";
     location := "Rua das Flores, 123 - Apt 42, S" +:+ Js.lat 227 +:+ "o Paulo";
     locationLink := Some "https://maps.app.goo.gl/3fX3B7F1V8C2D5E6";
     rsvpDeadline := "2024-12-01";
     googleCalendarLink :=
       "https://calendar.google.com/calendar/render?action=TEMPLATE&text=Ch"
         +:+ Js.lat 225 +:+ "+de+Casa+Nova+-+Nosso+Novo+Lar&dates=20241215T210000Z/20241216T010000Z&details=Esperamos+voc"
         +:+ Js.lat 234 +:+ "s+para+celebrar+nossa+conquista!&location=Rua+das+Flores,+123+-+Apt+42,+S"
         +:+ Js.lat 227 +:+ "o+Paulo" |}.

Definition USER_STORAGE_KEY : string := "housewarming_user".
Definition ADMIN_STORAGE_KEY : string := "housewarming_admin_session".
Definition GIFTS_STORAGE_KEY : string := "housewarming_gifts".
Definition RSVP_STORAGE_KEY : string := "housewarming_reservas_presenca".
Definition CONFIG_STORAGE_KEY : string := "housewarming_config".

Definition ADMIN_PASSWORD : string := "admin123".

(* ===================================================================== *)
(** * App.tsx: helpers and schemas                                        *)
(* ===================================================================== *)

(** [phoneRegex = /^\(\d{2}\) \d{5}-\d{4}$/], as [phoneRegex.test]. *)
Definition phoneRegex_test (s : string) : bool :=
  match list_ascii_of_string s with
  | [p; a1; a2; q; sp; b1; b2; b3; b4; b5; h; c1; c2; c3; c4] =>
      Ascii.eqb p "(" && Js.is_digit a1 && Js.is_digit a2 && Ascii.eqb q ")"
      && Ascii.eqb sp " "
      && Js.is_digit b1 && Js.is_digit b2 && Js.is_digit b3 && Js.is_digit b4
      && Js.is_digit b5
      && Ascii.eqb h "-"
      && Js.is_digit c1 && Js.is_digit c2 && Js.is_digit c3 && Js.is_digit c4
  | _ => false
  end.

(** The outcome of a zod schema: the parsed data or the messages per field. *)
Inductive parsed (E A : Type) : Type :=
| Valid (data : A)
| Invalid (errors : E).
Arguments Valid {E A} data.
Arguments Invalid {E A} errors.

(** What the resolver of the identity form is given: a field of the object
    can be [undefined] (the inputs of the dialog hold a string from the
    start, see [modal_initial]). *)
Record UserForm := mkUserForm {
  form_name : option string;
  form_phone : option string
}.

Record UserErrors := mkUserErrors {
  err_name : option string;
  err_phone : option string
}.

Definition zod_required : string := "Required".

(** [z.string().min(n, msg)] *)
Definition z_string_min (n : nat) (msg : string) (v : option string) : option string :=
  match v with
  | None => Some zod_required
  | Some s => if (n <=? String.length s)%nat then None else Some msg
  end.

(** [z.string().regex(phoneRegex, msg)] *)
Definition z_string_phone (msg : string) (v : option string) : option string :=
  match v with
  | None => Some zod_required
  | Some s => if phoneRegex_test s then None else Some msg
  end.

Definition userSchema (f : UserForm) : parsed UserErrors (string * string) :=
  let en := z_string_min 3 "O nome deve ter pelo menos 3 caracteres" (form_name f) in
  let ep := z_string_phone ("Formato inv" +:+ Js.lat 225 +:+ "lido: (00) 00000-0000") (form_phone f) in
  match en, ep, form_name f, form_phone f with
  | None, None, Some n, Some p => Valid (n, p)
  | _, _, _, _ => Invalid {| err_name := en; err_phone := ep |}
  end.

(** The attendance form as the resolver receives it. *)
Record PresencaForm := mkPresencaForm {
  form_attending : bool;
  adults : Z;
  children : Z
}.

Record PresencaErrors := mkPresencaErrors {
  err_adults : option string;
  err_children : option string
}.

(** [z.number().min(lo, msgLo).max(hi, msgHi)] *)
Definition z_number_range (lo : Z) (msgLo : string) (hi : Z) (msgHi : string)
    (v : Z) : option string :=
  if v <? lo then Some msgLo
  else if hi <? v then Some msgHi
  else None.

Definition presencaSchema (f : PresencaForm) : parsed PresencaErrors PresencaForm :=
  let ea := z_number_range 1 ("M" +:+ Js.lat 237 +:+ "nimo 1 adulto")
                           10 ("M" +:+ Js.lat 225 +:+ "ximo 10 adultos") (adults f) in
  let ec := z_number_range 0 ("M" +:+ Js.lat 237 +:+ "nimo 0")
                           10 ("M" +:+ Js.lat 225 +:+ "ximo 10 crian" +:+ Js.lat 231 +:+ "as")
                           (children f) in
  match ea, ec with
  | None, None => Valid f
  | _, _ => Invalid {| err_adults := ea; err_children := ec |}
  end.

Definition maskPhone (value : string) : string :=
  if Js.falsy value then value
  else
    let phoneNumber := Js.strip_non_digits value in
    let phoneNumberLength := String.length phoneNumber in
    if (phoneNumberLength <? 3)%nat then phoneNumber
    else if (phoneNumberLength <? 7)%nat then
      "(" +:+ Js.slice phoneNumber 0 2 +:+ ") " +:+ Js.slice_from phoneNumber 2
    else
      "(" +:+ Js.slice phoneNumber 0 2 +:+ ") " +:+ Js.slice phoneNumber 2 7
        +:+ "-" +:+ Js.slice phoneNumber 7 11.

(* ===================================================================== *)
(** * JSON: the values, [JSON.parse] and [JSON.stringify]                 *)
(* ===================================================================== *)

Module Json.

Set Warnings "-register-all".
Local Open Scope list_scope.
Local Open Scope char_scope.
Local Open Scope N_scope.

(** The text of a JSON string, as UTF-16 code units: an escape [\uXXXX]
    may denote a unit that no character of the Latin-1 range has. *)
Definition code_units : Type := list N.

(** A number written without fraction and exponent is read as an integer;
    the other numerals are kept as written (floating point is not
    interpreted). *)
Inductive json : Type :=
| JNull
| JBool (b : bool)
| JNumber (n : Z)
| JReal (lexeme : string)
| JString (s : code_units)
| JArray (items : list json)
| JObject (members : list (code_units * json)).

Definition units_of_string (s : string) : code_units :=
  List.map N_of_ascii (list_ascii_of_string s).

Definition string_of_units (u : code_units) : option string :=
  if forallb (fun n => n <? 256) u
  then Some (string_of_list_ascii (List.map ascii_of_N u))
  else None.

Definition JStr (s : string) : json := JString (units_of_string s).

(** ** The reader *)

Inductive presult (A : Type) : Type :=
| POk (a : A) (rest : list ascii)
| PSyntaxError
| POutOfFuel.
Arguments POk {A} a rest.
Arguments PSyntaxError {A}.
Arguments POutOfFuel {A}.

Definition dquote : ascii := ascii_of_nat 34.

Definition is_ws (c : ascii) : bool :=
  let n := N_of_ascii c in
  (n =? 9) || (n =? 10) || (n =? 13) || (n =? 32).

Fixpoint skip_ws (s : list ascii) : list ascii :=
  match s with
  | c :: r => if is_ws c then skip_ws r else s
  | [] => []
  end.

Definition hex_digit (c : ascii) : option N :=
  let n := N_of_ascii c in
  if (48 <=? n) && (n <=? 57) then Some (n - 48)
  else if (65 <=? n) && (n <=? 70) then Some (n - 55)
  else if (97 <=? n) && (n <=? 102) then Some (n - 87)
  else None.

Definition hex4 (h1 h2 h3 h4 : ascii) : option N :=
  match hex_digit h1, hex_digit h2, hex_digit h3, hex_digit h4 with
  | Some a, Some b, Some c, Some d => Some (((a * 16 + b) * 16 + c) * 16 + d)
  | _, _, _, _ => None
  end.

(** The character after a backslash, [u] apart. *)
Definition simple_escape (e : ascii) : option N :=
  if Ascii.eqb e dquote then Some 34
  else if Ascii.eqb e "\" then Some 92
  else if Ascii.eqb e "/" then Some 47
  else if Ascii.eqb e "b" then Some 8
  else if Ascii.eqb e "f" then Some 12
  else if Ascii.eqb e "n" then Some 10
  else if Ascii.eqb e "r" then Some 13
  else if Ascii.eqb e "t" then Some 9
  else None.

Definition cons_unit (u : N) (r : option (code_units * list ascii))
    : option (code_units * list ascii) :=
  match r with
  | Some (us, rest) => Some (u :: us, rest)
  | None => None
  end.

(** The characters of a string up to its closing quote. *)
Fixpoint parse_chars (s : list ascii) : option (code_units * list ascii) :=
  match s with
  | [] => None
  | c :: r =>
      if Ascii.eqb c dquote then Some ([], r)
      else if Ascii.eqb c "\" then
        match r with
        | [] => None
        | e :: r1 =>
            match simple_escape e with
            | Some u => cons_unit u (parse_chars r1)
            | None =>
                if Ascii.eqb e "u" then
                  match r1 with
                  | h1 :: h2 :: h3 :: h4 :: r2 =>
                      match hex4 h1 h2 h3 h4 with
                      | Some u => cons_unit u (parse_chars r2)
                      | None => None
                      end
                  | _ => None
                  end
                else None
            end
        end
      else if N_of_ascii c <? 32 then None
      else cons_unit (N_of_ascii c) (parse_chars r)
  end.

Fixpoint span_digits (s : list ascii) : list ascii * list ascii :=
  match s with
  | c :: r =>
      if Js.is_digit c then let (ds, rest) := span_digits r in (c :: ds, rest)
      else ([], s)
  | [] => ([], [])
  end.

Definition digits_value (ds : list ascii) : Z :=
  fold_left (fun acc c => (acc * 10 + (Z.of_N (N_of_ascii c) - 48))%Z) ds 0%Z.

(** [int]: a single [0], or a non-zero digit followed by digits. *)
Definition parse_int (s : list ascii) : option (list ascii * list ascii) :=
  match s with
  | c :: r =>
      if Ascii.eqb c "0" then Some ([c], r)
      else if Js.is_digit c then let (ds, rest) := span_digits r in Some (c :: ds, rest)
      else None
  | [] => None
  end.

(** [frac]: nothing, or a dot followed by at least one digit. *)
Definition parse_frac (s : list ascii) : option (list ascii * list ascii) :=
  match s with
  | "." :: r =>
      match span_digits r with
      | ([], _) => None
      | (ds, rest) => Some ("." :: ds, rest)
      end
  | _ => Some ([], s)
  end.

(** [exp]: nothing, or [e]/[E], an optional sign and at least one digit. *)
Definition parse_exp (s : list ascii) : option (list ascii * list ascii) :=
  match s with
  | c :: r =>
      if Ascii.eqb c "e" || Ascii.eqb c "E" then
        let (sign, r1) :=
          match r with
          | x :: r' => if Ascii.eqb x "+" || Ascii.eqb x "-" then ([x], r') else ([], r)
          | [] => ([], r)
          end in
        match span_digits r1 with
        | ([], _) => None
        | (ds, rest) => Some (c :: sign ++ ds, rest)
        end
      else Some ([], s)
  | [] => Some ([], s)
  end.

Definition parse_number (s : list ascii) : option (json * list ascii) :=
  let (neg, s1) :=
    match s with
    | "-" :: r => (true, r)
    | _ => (false, s)
    end in
  match parse_int s1 with
  | None => None
  | Some (ip, s2) =>
      match parse_frac s2 with
      | None => None
      | Some (fp, s3) =>
          match parse_exp s3 with
          | None => None
          | Some (ep, s4) =>
              match fp, ep with
              | [], [] =>
                  let v := digits_value ip in
                  Some (JNumber (if neg then (- v)%Z else v), s4)
              | _, _ =>
                  Some (JReal (string_of_list_ascii
                                 ((if neg then ["-"] else []) ++ ip ++ fp ++ ep)), s4)
              end
          end
      end
  end.

Definition parse_string (s : list ascii) : presult code_units :=
  match parse_chars s with
  | Some (us, rest) => POk us rest
  | None => PSyntaxError
  end.

(** The text begins, after white space, with the character [ch]. *)
Definition next_is (ch : ascii) (s : list ascii) : option (list ascii) :=
  match skip_ws s with
  | x :: r => if Ascii.eqb x ch then Some r else None
  | [] => None
  end.

(** The text begins with the characters of [lit]. *)
Fixpoint literal (lit s : list ascii) : option (list ascii) :=
  match lit, s with
  | [], _ => Some s
  | l :: lit', x :: r => if Ascii.eqb x l then literal lit' r else None
  | _ :: _, [] => None
  end.

(** [value], [elements] (after the opening bracket, the array not being
    empty) and [members] (likewise for an object).  Every call spends one
    unit of fuel. *)
Fixpoint parse_value (fuel : nat) (s : list ascii) {struct fuel} : presult json :=
  match fuel with
  | O => POutOfFuel
  | S f =>
      match skip_ws s with
      | [] => PSyntaxError
      | c :: r =>
          if Ascii.eqb c "{" then
            match next_is "}" r with
            | Some r' => POk (JObject []) r'
            | None => parse_members f r []
            end
          else if Ascii.eqb c "[" then
            match next_is "]" r with
            | Some r' => POk (JArray []) r'
            | None => parse_elements f r []
            end
          else if Ascii.eqb c dquote then
            match parse_string r with
            | POk us rest => POk (JString us) rest
            | PSyntaxError => PSyntaxError
            | POutOfFuel => POutOfFuel
            end
          else
            match literal (list_ascii_of_string "true") (c :: r) with
            | Some r' => POk (JBool true) r'
            | None =>
                match literal (list_ascii_of_string "false") (c :: r) with
                | Some r' => POk (JBool false) r'
                | None =>
                    match literal (list_ascii_of_string "null") (c :: r) with
                    | Some r' => POk JNull r'
                    | None =>
                        match parse_number (c :: r) with
                        | Some (v, rest) => POk v rest
                        | None => PSyntaxError
                        end
                    end
                end
            end
      end
  end
with parse_elements (fuel : nat) (s : list ascii) (acc : list json)
    {struct fuel} : presult json :=
  match fuel with
  | O => POutOfFuel
  | S f =>
      match parse_value f s with
      | POk v r =>
          match next_is "," r with
          | Some r' => parse_elements f r' (acc ++ [v])
          | None =>
              match next_is "]" r with
              | Some r' => POk (JArray (acc ++ [v])) r'
              | None => PSyntaxError
              end
          end
      | PSyntaxError => PSyntaxError
      | POutOfFuel => POutOfFuel
      end
  end
with parse_members (fuel : nat) (s : list ascii) (acc : list (code_units * json))
    {struct fuel} : presult json :=
  match fuel with
  | O => POutOfFuel
  | S f =>
      match next_is dquote s with
      | Some r =>
          match parse_string r with
          | POk k r1 =>
              match next_is ":" r1 with
              | Some r2 =>
                  match parse_value f r2 with
                  | POk v r3 =>
                      match next_is "," r3 with
                      | Some r4 => parse_members f r4 (acc ++ [(k, v)])
                      | None =>
                          match next_is "}" r3 with
                          | Some r4 => POk (JObject (acc ++ [(k, v)])) r4
                          | None => PSyntaxError
                          end
                      end
                  | PSyntaxError => PSyntaxError
                  | POutOfFuel => POutOfFuel
                  end
              | None => PSyntaxError
              end
          | PSyntaxError => PSyntaxError
          | POutOfFuel => POutOfFuel
          end
      | None => PSyntaxError
      end
  end.

Definition parse_fuel (s : list ascii) : nat := (2 * length s + 2)%nat.

Definition parse_text (s : list ascii) : presult json :=
  match parse_value (parse_fuel s) s with
  | POk v rest =>
      match skip_ws rest with
      | [] => POk v []
      | _ => PSyntaxError
      end
  | r => r
  end.

(** [JSON.parse(text)]: [None] is the [SyntaxError] it throws. *)
Definition parse (text : string) : option json :=
  match parse_text (list_ascii_of_string text) with
  | POk v _ => Some v
  | _ => None
  end.

(** ** The writer *)

Definition hex_char (n : N) : ascii :=
  if n <? 10 then ascii_of_N (48 + n) else ascii_of_N (87 + n).

Definition u_escape (u : N) : list ascii :=
  [ "\"; "u"; hex_char ((u / 4096) mod 16); hex_char ((u / 256) mod 16);
    hex_char ((u / 16) mod 16); hex_char (u mod 16) ].

(** A unit beyond the Latin-1 range has no character here and is written
    as its escape; no value the handlers write holds one. *)
Definition quote_unit (u : N) : list ascii :=
  if u =? 34 then ["\"; dquote]
  else if u =? 92 then ["\"; "\"]
  else if u =? 8 then ["\"; "b"]
  else if u =? 12 then ["\"; "f"]
  else if u =? 10 then ["\"; "n"]
  else if u =? 13 then ["\"; "r"]
  else if u =? 9 then ["\"; "t"]
  else if (u <? 32) || (255 <? u) then u_escape u
  else [ascii_of_N u].

Definition quote (us : code_units) : list ascii :=
  dquote :: flat_map quote_unit us ++ [dquote].

Definition number_chars (n : Z) : list ascii :=
  list_ascii_of_string (NilZero.string_of_int (Z.to_int n)).

(** The pieces of an array or an object, separated by commas. *)
Fixpoint join (pieces : list (list ascii)) : list ascii :=
  match pieces with
  | [] => []
  | [p] => p
  | p :: rest => p ++ "," :: join rest
  end.

Fixpoint stringify_chars (j : json) : list ascii :=
  match j with
  | JNull => list_ascii_of_string "null"
  | JBool true => list_ascii_of_string "true"
  | JBool false => list_ascii_of_string "false"
  | JNumber n => number_chars n
  | JReal lexeme => list_ascii_of_string lexeme
  | JString us => quote us
  | JArray items => "[" :: join (List.map stringify_chars items) ++ ["]"]
  | JObject members =>
      "{" :: join (List.map (fun kv => quote (fst kv) ++ ":" :: stringify_chars (snd kv))
                            members) ++ ["}"]
  end.

(** [JSON.stringify(value)] *)
Definition stringify (j : json) : string :=
  string_of_list_ascii (stringify_chars j).

(** ** Property access on a parsed object: the last binding of a key. *)
Definition field (k : string) (members : list (code_units * json)) : option json :=
  fold_left
    (fun acc kv => if bool_decide (fst kv = units_of_string k) then Some (snd kv) else acc)
    members None.

Definition as_string (j : json) : option string :=
  match j with
  | JString us => string_of_units us
  | _ => None
  end.

Definition as_bool (j : json) : option bool :=
  match j with
  | JBool b => Some b
  | _ => None
  end.

Definition as_number (j : json) : option Z :=
  match j with
  | JNumber n => Some n
  | _ => None
  end.

(** A required property of the declared type. *)
Definition req {A : Type} (as_A : json -> option A) (k : string)
    (members : list (code_units * json)) : option A :=
  match field k members with
  | Some v => as_A v
  | None => None
  end.

(** An optional property ([k?: T]): absent, or of the declared type. *)
Definition opt {A : Type} (as_A : json -> option A) (k : string)
    (members : list (code_units * json)) : option (option A) :=
  match field k members with
  | Some v => match as_A v with Some a => Some (Some a) | None => None end
  | None => Some None
  end.

(** The members an optional property contributes when written. *)
Definition opt_member {A : Type} (to_json : A -> json) (k : string) (v : option A)
    : list (code_units * json) :=
  match v with
  | Some a => [(units_of_string k, to_json a)]
  | None => []
  end.

Definition member (k : string) (v : json) : code_units * json :=
  (units_of_string k, v).

Definition as_array {A : Type} (as_A : json -> option A) (j : json) : option (list A) :=
  match j with
  | JArray items => mapM as_A items
  | _ => None
  end.

End Json.

Import Json.

(* ===================================================================== *)
(** * The stored documents                                                *)
(* ===================================================================== *)

(** What [JSON.stringify] sees of the records of [types.ts], and the reading
    of a parsed document at the type the source declares for it. *)

Definition json_of_User (u : User) : json :=
  JObject [ member "name" (JStr (user_name u));
            member "phone" (JStr (user_phone u));
            member "isAdmin" (JBool (user_isAdmin u)) ].

Definition User_of_json (j : json) : option User :=
  match j with
  | JObject ms =>
      n ← req as_string "name" ms;
      p ← req as_string "phone" ms;
      a ← req as_bool "isAdmin" ms;
      Some (mkUser n p a)
  | _ => None
  end.

Definition json_of_Gift (g : Gift) : json :=
  JObject ([ member "id" (JStr (id g));
             member "name" (JStr (gift_name g));
             member "description" (JStr (description g));
             member "imageUrl" (JStr (imageUrl g)) ]
           ++ opt_member JStr "link" (link g)
           ++ opt_member JNumber "priceEstimate" (priceEstimate g)
           ++ [ member "isReserved" (JBool (isReserved g)) ]
           ++ opt_member JStr "reservedBy" (reservedBy g)).

Definition Gift_of_json (j : json) : option Gift :=
  match j with
  | JObject ms =>
      i ← req as_string "id" ms;
      n ← req as_string "name" ms;
      d ← req as_string "description" ms;
      u ← req as_string "imageUrl" ms;
      l ← opt as_string "link" ms;
      p ← opt as_number "priceEstimate" ms;
      b ← opt as_string "reservedBy" ms;
      r ← req as_bool "isReserved" ms;
      Some (mkGift i n d u l p b r)
  | _ => None
  end.

Definition json_of_Presenca (c : Presenca) : json :=
  JObject [ member "name" (JStr (name c));
            member "phone" (JStr (phone c));
            member "attending" (JBool (attending c));
            member "adultsCount" (JNumber (adultsCount c));
            member "childrenCount" (JNumber (childrenCount c));
            member "guestsCount" (JNumber (guestsCount c));
            member "date" (JStr (date c)) ].

Definition Presenca_of_json (j : json) : option Presenca :=
  match j with
  | JObject ms =>
      n ← req as_string "name" ms;
      p ← req as_string "phone" ms;
      a ← req as_bool "attending" ms;
      ad ← req as_number "adultsCount" ms;
      ch ← req as_number "childrenCount" ms;
      g ← req as_number "guestsCount" ms;
      d ← req as_string "date" ms;
      Some (mkPresenca n p a ad ch g d)
  | _ => None
  end.

Definition json_of_EventConfig (c : EventConfig) : json :=
  JObject ([ member "eventDate" (JStr (eventDate c));
             member "eventTime" (JStr (eventTime c));
             member "rsvpDeadline" (JStr (rsvpDeadline c));
             member "location" (JStr (location c)) ]
           ++ opt_member JStr "locationLink" (locationLink c)
           ++ [ member "googleCalendarLink" (JStr (googleCalendarLink c)) ]).

Definition EventConfig_of_json (j : json) : option EventConfig :=
  match j with
  | JObject ms =>
      d ← req as_string "eventDate" ms;
      t ← req as_string "eventTime" ms;
      l ← req as_string "location" ms;
      ll ← opt as_string "locationLink" ms;
      r ← req as_string "rsvpDeadline" ms;
      g ← req as_string "googleCalendarLink" ms;
      Some (mkEventConfig d t l ll r g)
  | _ => None
  end.

Definition json_of_list {A : Type} (to_json : A -> json) (l : list A) : json :=
  JArray (List.map to_json l).

(** A parsed document held in a state variable: TypeScript's annotation is
    not checked at run time, so the value is either of the declared type or
    it is kept as parsed. *)
Inductive slot (A : Type) : Type :=
| Typed (a : A)
| Untyped (j : json).
Arguments Typed {A} a.
Arguments Untyped {A} j.

(** [JSON.parse(text)] at a declared type; [None]: the [SyntaxError]. *)
Definition read_as {A : Type} (as_A : json -> option A) (text : string) : option (slot A) :=
  match Json.parse text with
  | None => None
  | Some j => Some (match as_A j with Some a => Typed a | None => Untyped j end)
  end.

(* ===================================================================== *)
(** * localStorage                                                        *)
(* ===================================================================== *)

Abbreviation localStorage := (gmap string string).

Definition getItem (k : string) (ls : localStorage) : option string := ls !! k.
Definition setItem (k v : string) (ls : localStorage) : localStorage := <[k := v]> ls.
Definition removeItem (k : string) (ls : localStorage) : localStorage := delete k ls.

(** The test [saved ? ... : ...] on what [getItem] returned: [null] and the
    empty string are falsy. *)
Definition truthy (saved : option string) : option string :=
  match saved with
  | Some s => if Js.falsy s then None else Some s
  | None => None
  end.

(* ===================================================================== *)
(** * App.tsx: the state and its hydration                                *)
(* ===================================================================== *)

(** The state variables of [App] that the handlers below read or write (the
    tab, the dialogs and the selected gift belong to the presentation). *)
Record AppState := mkAppState {
  user : option User;
  isAdmin : bool;
  gifts : list Gift;
  confirmacoes : list Presenca;
  config : EventConfig;
  uploadedImage : option string
}.

(** The state variables as the first effect leaves them. *)
Record Hydration := mkHydration {
  h_user : option (slot User);
  h_isAdmin : bool;
  h_gifts : slot (list Gift);
  h_confirmacoes : slot (list Presenca);
  h_config : slot EventConfig
}.

(** The [useState] initial values. *)
Definition initial_hydration : Hydration :=
  {| h_user := None;
     h_isAdmin := false;
     h_gifts := Typed [];
     h_confirmacoes := Typed [];
     h_config := Typed DEFAULT_CONFIG |}.

(** The effect under [// Persistence].  [None]: a [JSON.parse] threw; the
    source has no handler for it, so the effect stops there. *)
Definition hydrate (ls : localStorage) : option Hydration :=
  let h := initial_hydration in
  let savedUser := getItem USER_STORAGE_KEY ls in
  u ← match truthy savedUser with
      | Some s => s' ← read_as User_of_json s; Some (Some s')
      | None => Some (h_user h)
      end;
  let savedAdmin := getItem ADMIN_STORAGE_KEY ls in
  let a := if bool_decide (savedAdmin = Some "true") then true else h_isAdmin h in
  let savedGifts := getItem GIFTS_STORAGE_KEY ls in
  g ← match truthy savedGifts with
      | Some s => read_as (as_array Gift_of_json) s
      | None => Some (Typed INITIAL_GIFTS)
      end;
  let savedPresencas := getItem RSVP_STORAGE_KEY ls in
  p ← match truthy savedPresencas with
      | Some s => read_as (as_array Presenca_of_json) s
      | None => Some (Typed [])
      end;
  let savedConfig := getItem CONFIG_STORAGE_KEY ls in
  c ← match truthy savedConfig with
      | Some s => read_as EventConfig_of_json s
      | None => Some (h_config h)
      end;
  Some {| h_user := u; h_isAdmin := a; h_gifts := g; h_confirmacoes := p; h_config := c |}.

(** The hydrated state when every document has its declared type. *)
Definition typed_state (h : Hydration) : option AppState :=
  match h_user h, h_gifts h, h_confirmacoes h, h_config h with
  | None, Typed g, Typed p, Typed c => Some (mkAppState None (h_isAdmin h) g p c None)
  | Some (Typed u), Typed g, Typed p, Typed c =>
      Some (mkAppState (Some u) (h_isAdmin h) g p c None)
  | _, _, _, _ => None
  end.

(** The running application: its state and the storage it writes through to. *)
Record World := mkWorld {
  state : AppState;
  storage : localStorage
}.

Definition set_user (u : option User) (s : AppState) : AppState :=
  mkAppState u (isAdmin s) (gifts s) (confirmacoes s) (config s) (uploadedImage s).
Definition set_isAdmin (a : bool) (s : AppState) : AppState :=
  mkAppState (user s) a (gifts s) (confirmacoes s) (config s) (uploadedImage s).
Definition set_gifts (g : list Gift) (s : AppState) : AppState :=
  mkAppState (user s) (isAdmin s) g (confirmacoes s) (config s) (uploadedImage s).
Definition set_confirmacoes (p : list Presenca) (s : AppState) : AppState :=
  mkAppState (user s) (isAdmin s) (gifts s) p (config s) (uploadedImage s).
Definition set_config (c : EventConfig) (s : AppState) : AppState :=
  mkAppState (user s) (isAdmin s) (gifts s) (confirmacoes s) c (uploadedImage s).
Definition set_uploadedImage (i : option string) (s : AppState) : AppState :=
  mkAppState (user s) (isAdmin s) (gifts s) (confirmacoes s) (config s) i.

(* ===================================================================== *)
(** * App.tsx: the gift catalog                                           *)
(* ===================================================================== *)

(** [{ ...g, isReserved: r, reservedBy: by }] *)
Definition with_reservation (g : Gift) (r : bool) (by_ : option string) : Gift :=
  {| id := id g;
     gift_name := gift_name g;
     description := description g;
     imageUrl := imageUrl g;
     link := link g;
     priceEstimate := priceEstimate g;
     reservedBy := by_;
     isReserved := r |}.

Definition saveGifts (updated : list Gift) (w : World) : World :=
  {| state := set_gifts updated (state w);
     storage := setItem GIFTS_STORAGE_KEY
                  (Json.stringify (json_of_list json_of_Gift updated)) (storage w) |}.

Definition handleReserve (id_ : string) (w : World) : World :=
  match user (state w) with
  | None => w
  | Some u =>
      let updated :=
        List.map (fun g => if String.eqb (id g) id_
                           then with_reservation g true (Some (user_name u))
                           else g)
                 (gifts (state w)) in
      saveGifts updated w
  end.

Definition handleCancelReserve (id_ : string) (w : World) : World :=
  let updated :=
    List.map (fun g => if String.eqb (id g) id_
                       then with_reservation g false None
                       else g)
             (gifts (state w)) in
  saveGifts updated w.

(** What [giftSchema] hands to [onAddGift]. *)
Record GiftForm := mkGiftForm {
  data_name : string;
  data_description : string;
  data_imageUrl : option string;
  data_link : option string
}.

(** [Date.now()] is read once for the placeholder image and once for the
    id: [now_image] and [now_id]. *)
Definition onAddGift (data : GiftForm) (now_image now_id : N) (w : World) : World :=
  let finalImageUrl :=
    Js.or_else (uploadedImage (state w))
      (Js.or_else (data_imageUrl data)
         ("https://picsum.photos/seed/" +:+ Js.toString now_image +:+ "/600/400")) in
  let newGift :=
    {| id := Js.toString now_id;
       gift_name := data_name data;
       description := data_description data;
       imageUrl := finalImageUrl;
       link := data_link data;
       priceEstimate := None;
       reservedBy := None;
       isReserved := false |} in
  let w' := saveGifts (gifts (state w) ++ [newGift]) w in
  {| state := set_uploadedImage None (state w'); storage := storage w' |}.

(** The [onloadend] callback of [handleFileChange]. *)
Definition handleFileChange (result : string) (w : World) : World :=
  {| state := set_uploadedImage (Some result) (state w); storage := storage w |}.

Definition handleRemoveGift (id_ : string) (w : World) : World :=
  let updated := List.filter (fun g => negb (String.eqb (id g) id_)) (gifts (state w)) in
  saveGifts updated w.

(** The control a gift card (and the gift details page) renders for a gift. *)
Inductive GiftControl : Type :=
| ReserveButton
| CancelButton
| Unavailable.

(** [currentUser && gift.reservedBy === currentUser.name] *)
Definition isMine (currentUser : option User) (gift : Gift) : bool :=
  match currentUser with
  | Some u => bool_decide (reservedBy gift = Some (user_name u))
  | None => false
  end.

Definition GiftCard (gift : Gift) (currentUser : option User) : GiftControl :=
  if negb (isReserved gift) then ReserveButton
  else if isMine currentUser gift then CancelButton
  else Unavailable.

(** A click on the control of the card of [gift]. *)
Definition GiftCard_click (gift : Gift) (w : World) : World :=
  match GiftCard gift (user (state w)) with
  | ReserveButton => handleReserve (id gift) w
  | CancelButton => handleCancelReserve (id gift) w
  | Unavailable => w
  end.

Definition reservedGiftsCount (gs : list Gift) : nat :=
  length (List.filter isReserved gs).

Definition myGifts (u : option User) (gs : list Gift) : list Gift :=
  List.filter
    (fun g => isReserved g
              && bool_decide (reservedBy g = match u with Some x => Some (user_name x) | None => None end))
    gs.

(* ===================================================================== *)
(** * App.tsx: the attendance register                                    *)
(* ===================================================================== *)

(** [l.findIndex(p)]: the first index, or [-1]. *)
Fixpoint findIndex {A : Type} (p : A -> bool) (l : list A) : Z :=
  match l with
  | [] => -1
  | x :: r => if p x then 0 else let i := findIndex p r in if i <? 0 then -1 else i + 1
  end.

(** [iso] is [new Date().toISOString()]. *)
Definition onConfirmReservaPresenca (data : PresencaForm) (iso : string) (w : World) : World :=
  match user (state w) with
  | None => w
  | Some u =>
      let adults_ := Js.or_zero (adults data) in
      let children_ := Js.or_zero (children data) in
      let newPresenca :=
        {| name := user_name u;
           phone := user_phone u;
           attending := form_attending data;
           adultsCount := adults_;
           childrenCount := children_;
           guestsCount := adults_ + children_;
           date := iso |} in
      let existingIndex :=
        findIndex (fun c => String.eqb (phone c) (user_phone u)) (confirmacoes (state w)) in
      let updated :=
        if -1 <? existingIndex
        then <[Z.to_nat existingIndex := newPresenca]> (confirmacoes (state w))
        else confirmacoes (state w) ++ [newPresenca] in
      {| state := set_confirmacoes updated (state w);
         storage := setItem RSVP_STORAGE_KEY
                      (Json.stringify (json_of_list json_of_Presenca updated)) (storage w) |}
  end.

(** [subPresenca(onConfirmReservaPresenca)]: the handler runs when the
    resolver accepts the form; otherwise the messages are shown. *)
Definition submitPresenca (f : PresencaForm) (iso : string) (w : World)
    : parsed PresencaErrors World :=
  match presencaSchema f with
  | Valid data => Valid (onConfirmReservaPresenca data iso w)
  | Invalid e => Invalid e
  end.

Definition totalPessoas (cs : list Presenca) : Z :=
  fold_left (fun acc c => if attending c then acc + guestsCount c else acc) cs 0.
Definition totalAdultos (cs : list Presenca) : Z :=
  fold_left (fun acc c => if attending c then acc + adultsCount c else acc) cs 0.
Definition totalCriancas (cs : list Presenca) : Z :=
  fold_left (fun acc c => if attending c then acc + childrenCount c else acc) cs 0.
Definition totalReservas (cs : list Presenca) : nat := length cs.
Definition totalNaoVao (cs : list Presenca) : nat :=
  length (List.filter (fun c => negb (attending c)) cs).

Definition userReserva (u : option User) (cs : list Presenca) : option Presenca :=
  match u with
  | Some x => List.find (fun c => String.eqb (phone c) (user_phone x)) cs
  | None => None
  end.

(* ===================================================================== *)
(** * App.tsx: configuration, admin session, guest session                *)
(* ===================================================================== *)

Definition onSaveConfig (data : EventConfig) (w : World) : World :=
  {| state := set_config data (state w);
     storage := setItem CONFIG_STORAGE_KEY (Json.stringify (json_of_EventConfig data))
                  (storage w) |}.

Definition handleAdminLogin (password : string) (w : World) : bool * World :=
  if String.eqb password ADMIN_PASSWORD
  then (true, {| state := set_isAdmin true (state w);
                 storage := setItem ADMIN_STORAGE_KEY "true" (storage w) |})
  else (false, w).

Definition handleAdminLogout (w : World) : World :=
  {| state := set_isAdmin false (state w);
     storage := removeItem ADMIN_STORAGE_KEY (storage w) |}.

(** [window.location.reload()] starts the application again from the
    storage: the state variables are hydrated anew and the pending upload
    is lost.  Every other state variable is mirrored in the storage by the
    handler that last changed it, so the reload leaves it as it is
    ([handleLogout_reload] below). *)
Definition handleLogout (w : World) : World :=
  {| state := set_uploadedImage None (set_user None (state w));
     storage := removeItem USER_STORAGE_KEY (storage w) |}.

(** The [onSave] that [App] passes to [UserAuthModal]. *)
Definition onSave (u : User) (w : World) : World :=
  {| state := set_user (Some u) (state w);
     storage := setItem USER_STORAGE_KEY (Json.stringify (json_of_User u)) (storage w) |}.

(* ===================================================================== *)
(** * App.tsx: UserAuthModal                                              *)
(* ===================================================================== *)

(** How a piece of code over parsed documents ends: normally, by the
    [SyntaxError] of [JSON.parse], or with a document that is not of the
    type the source declares for it (about which the typed model is silent). *)
Inductive outcome (A : Type) : Type :=
| Done (a : A)
| Thrown
| IllTyped (j : json).
Arguments Done {A} a.
Arguments Thrown {A}.
Arguments IllTyped {A} j.

(** The form values and the [existingUserFound] state variable. *)
Record ModalState := mkModalState {
  values : UserForm;
  existingUserFound : option string
}.

(** The dialog as it opens: both inputs are registered with the form and
    empty, so the form holds the empty string for each, and nobody has been
    recognized. *)
Definition modal_initial : ModalState :=
  {| values := {| form_name := Some EmptyString; form_phone := Some EmptyString |};
     existingUserFound := None |}.

(** The effect under [// Check for existing user by phone (Unique ID)]. *)
Definition checkExistingUser (ls : localStorage) (m : ModalState) : outcome ModalState :=
  let forget := Done {| values := values m; existingUserFound := None |} in
  match truthy (form_phone (values m)) with
  | Some phone_ =>
      if phoneRegex_test phone_ then
        let savedRSVPs := getItem RSVP_STORAGE_KEY ls in
        match truthy savedRSVPs with
        | Some s =>
            match read_as (as_array Presenca_of_json) s with
            | None => Thrown
            | Some (Untyped j) => IllTyped j
            | Some (Typed list_) =>
                match List.find (fun r => String.eqb (phone r) phone_) list_ with
                | Some match_ =>
                    Done {| values := {| form_name := Some (name match_);
                                         form_phone := form_phone (values m) |};
                            existingUserFound := Some (name match_) |}
                | None => forget
                end
            end
        | None => Done m
        end
      else forget
  | None => forget
  end.

(** [disabled={!!existingUserFound}] on the name input. *)
Definition name_disabled (m : ModalState) : bool :=
  match truthy (existingUserFound m) with
  | Some _ => true
  | None => false
  end.

(** What the guest does in the dialog before submitting. *)
Inductive ModalEvent : Type :=
| PhoneInput (value : string)
| NameInput (value : string).

(** The phone input stores [maskPhone(e.target.value)]; the effect runs when
    [phone] has changed.  A disabled name input takes no input. *)
Definition modal_event (ls : localStorage) (e : ModalEvent) (m : ModalState)
    : outcome ModalState :=
  match e with
  | PhoneInput value =>
      let phone_ := maskPhone value in
      let m' := {| values := {| form_name := form_name (values m);
                                form_phone := Some phone_ |};
                   existingUserFound := existingUserFound m |} in
      if bool_decide (form_phone (values m) = Some phone_) then Done m'
      else checkExistingUser ls m'
  | NameInput value =>
      if name_disabled m then Done m
      else Done {| values := {| form_name := Some value;
                                form_phone := form_phone (values m) |};
                   existingUserFound := existingUserFound m |}
  end.

Fixpoint modal_events (ls : localStorage) (es : list ModalEvent) (m : ModalState)
    : outcome ModalState :=
  match es with
  | [] => Done m
  | e :: es' =>
      match modal_event ls e m with
      | Done m' => modal_events ls es' m'
      | Thrown => Thrown
      | IllTyped j => IllTyped j
      end
  end.

(** [handleSubmit(onSubmit)]: the user handed to [onSave], or the messages. *)
Definition onSubmit (m : ModalState) : parsed UserErrors User :=
  match userSchema (values m) with
  | Valid (n, p) => Valid (mkUser n p false)
  | Invalid e => Invalid e
  end.

(** The name the dialog resolves for what the guest did in it. *)
Definition submitIdentity (ls : localStorage) (es : list ModalEvent)
    : outcome (parsed UserErrors User) :=
  match modal_events ls es modal_initial with
  | Done m => Done (onSubmit m)
  | Thrown => Thrown
  | IllTyped j => IllTyped j
  end.

(* ===================================================================== *)
(** * The application as a transition system                              *)
(* ===================================================================== *)

Inductive Action : Type :=
| Reserve (id_ : string)
| CancelReserve (id_ : string)
| AddGift (data : GiftForm) (now_image now_id : N)
| FileChosen (result : string)
| RemoveGift (id_ : string)
| ConfirmPresenca (f : PresencaForm) (iso : string)
| SaveConfig (data : EventConfig)
| AdminLogin (password : string)
| AdminLogout
| Logout
| SaveUser (u : User).

Definition step (a : Action) (w : World) : World :=
  match a with
  | Reserve i => handleReserve i w
  | CancelReserve i => handleCancelReserve i w
  | AddGift d n1 n2 => onAddGift d n1 n2 w
  | FileChosen r => handleFileChange r w
  | RemoveGift i => handleRemoveGift i w
  | ConfirmPresenca f iso =>
      match submitPresenca f iso w with
      | Valid w' => w'
      | Invalid _ => w
      end
  | SaveConfig c => onSaveConfig c w
  | AdminLogin p => snd (handleAdminLogin p w)
  | AdminLogout => handleAdminLogout w
  | Logout => handleLogout w
  | SaveUser u => onSave u w
  end.

Definition run (acts : list Action) (w : World) : World :=
  fold_left (fun w' a => step a w') acts w.

(** The application after its first effect, when the stored documents have
    their declared types. *)
Definition cold_start (ls : localStorage) : option World :=
  h ← hydrate ls;
  s ← typed_state h;
  Some (mkWorld s ls).

(* ===================================================================== *)
(** * Vocabulary of the statements                                        *)
(* ===================================================================== *)

(** The digits of a string, in order. *)
Definition digits (s : string) : list ascii :=
  List.filter Js.is_digit (list_ascii_of_string s).

(** The display mask [(00) 00000-0000] filled from the left as far as the
    digits go: up to two bare digits; the area code in parentheses, a space
    and one to four digits; or area code, five digits, the hyphen and up to
    four digits. *)
Definition display_mask (s : string) : bool :=
  let l := list_ascii_of_string s in
  (forallb Js.is_digit l && (length l <=? 2)%nat)
  || match l with
     | p :: a1 :: a2 :: q :: sp :: r =>
         Ascii.eqb p "(" && Js.is_digit a1 && Js.is_digit a2 && Ascii.eqb q ")"
         && Ascii.eqb sp " "
         && ((forallb Js.is_digit r && (1 <=? length r)%nat && (length r <=? 4)%nat)
             || match drop 5 r with
                | h :: t =>
                    forallb Js.is_digit (take 5 r) && Ascii.eqb h "-"
                    && forallb Js.is_digit t && (length t <=? 4)%nat
                | [] => false
                end)
     | _ => false
     end.

(** [maskPhone] on the list of digits of its argument. *)
Definition layout (d : list ascii) : list ascii :=
  if (length d <? 3)%nat then d
  else if (length d <? 7)%nat then
    ("(" :: take 2 d ++ [")"; " "] ++ drop 2 d)%char
  else
    ("(" :: take 2 d ++ [")"; " "] ++ take 5 (drop 2 d) ++ "-" :: take 4 (drop 7 d))%char.

(** The invariant of a gift item: not reserved exactly when nobody holds it. *)
Definition reservation_invariant (g : Gift) : Prop :=
  isReserved g = false <-> reservedBy g = None.

(** What [handleReserve] and [handleCancelReserve] map over the catalog. *)
Definition reserve_item (i by_ : string) (g : Gift) : Gift :=
  if String.eqb (id g) i then with_reservation g true (Some by_) else g.

Definition cancel_item (i : string) (g : Gift) : Gift :=
  if String.eqb (id g) i then with_reservation g false None else g.

(** Two guests, and the application as it starts on an empty storage. *)
Definition ana : User := mkUser "Ana Souza" "(11) 90000-0001" false.
Definition bruno : User := mkUser "Bruno Lima" "(11) 90000-0002" false.
Definition seed_world : World :=
  mkWorld (mkAppState None false INITIAL_GIFTS [] DEFAULT_CONFIG None) ∅.

(** The holder of the first item of a catalog with a given id. *)
Definition holder (i : string) (gs : list Gift) : option (option string) :=
  reservedBy <$> List.find (fun g => String.eqb (id g) i) gs.

(** The application after Ana has signed in and reserved the first seed
    item, and then after she has signed out and Bruno has signed in. *)
Definition ana_reserved : World := run [SaveUser ana; Reserve "1"] seed_world.
Definition bruno_arrives : World := run [Logout; SaveUser bruno] ana_reserved.

(** Insert-or-replace by [phone], as the specification words it: the first
    record with the phone of [r] is replaced where it stands; without one,
    [r] goes to the end. *)
Fixpoint upsert (r : Presenca) (cs : list Presenca) : list Presenca :=
  match cs with
  | [] => [r]
  | c :: cs' => if String.eqb (phone c) (phone r) then r :: cs' else c :: upsert r cs'
  end.

(** The record a guest submits with an attendance form. *)
Definition record_of_submit (u : User) (f : PresencaForm) (iso : string) : Presenca :=
  {| name := user_name u;
     phone := user_phone u;
     attending := form_attending f;
     adultsCount := adults f;
     childrenCount := children f;
     guestsCount := adults f + children f;
     date := iso |}.

(** The resolver accepts the form. *)
Definition accepted (f : PresencaForm) : bool :=
  match presencaSchema f with
  | Valid _ => true
  | Invalid _ => false
  end.

(** The record of the last accepted attendance submission made for contact
    [c] along a run of the application, [last] being the one before it. *)
Fixpoint last_submit (c : string) (acts : list Action) (w : World) (last : option Presenca)
    : option Presenca :=
  match acts with
  | [] => last
  | a :: rest =>
      let last' :=
        match a, user (state w) with
        | ConfirmPresenca f iso, Some u =>
            if accepted f && String.eqb (user_phone u) c
            then Some (record_of_submit u f iso)
            else last
        | _, _ => last
        end in
      last_submit c rest (step a w) last'
  end.

(** The records of contact [c]. *)
Definition records_of (c : string) (cs : list Presenca) : list Presenca :=
  List.filter (fun r => String.eqb (phone r) c) cs.

(** The sum of a field over the records of those who attend. *)
Definition sum_attending (f : Presenca -> Z) (cs : list Presenca) : Z :=
  foldr Z.add 0 (List.map f (List.filter attending cs)).

(** The three records of the aggregation scenario; what the scenario leaves
    open is a parameter. *)
Definition scenario_records (n1 p1 d1 n2 p2 d2 n3 p3 d3 : string) (a3 c3 g3 : Z)
    : list Presenca :=
  [ mkPresenca n1 p1 true 2 1 (2 + 1) d1;
    mkPresenca n2 p2 true 1 0 (1 + 0) d2;
    mkPresenca n3 p3 false a3 c3 g3 d3 ].

(** The keys whose documents the first effect hands to [JSON.parse]. *)
Definition parsed_keys : list string :=
  [USER_STORAGE_KEY; GIFTS_STORAGE_KEY; RSVP_STORAGE_KEY; CONFIG_STORAGE_KEY].

(** The key holds a non-empty string that is not well-formed JSON. *)
Definition malformed (ls : localStorage) (k : string) : Prop :=
  exists s, truthy (getItem k ls) = Some s /\ Json.parse s = None.

(** The scenario of the identity recognition: Maria Clara identifies
    herself on a fresh application, submits her attendance and signs out. *)
Definition maria : User := mkUser "Maria Clara" "(11) 91234-5678" false.
Definition maria_signed_out : World :=
  run [SaveUser maria; ConfirmPresenca (mkPresencaForm true 2 1) "2024-11-01T10:00:00.000Z"; Logout]
      seed_world.

(** The dialog has recognized the record [known] of contact [c]: while the
    phone field holds [c], the name field holds the stored name and so does
    [existingUserFound]. *)
Definition recognized (known : Presenca) (c : string) (m : ModalState) : Prop :=
  form_phone (values m) = Some c ->
  form_name (values m) = Some (name known) /\ existingUserFound m = Some (name known).

(** A run of the reader on [s] neither exhausts its fuel nor returns more
    text than it was given. *)
Definition progress {A : Type} (res : Json.presult A) (s : list ascii) : Prop :=
  match res with
  | Json.POk _ rest => (length rest < length s)%nat
  | Json.PSyntaxError => True
  | Json.POutOfFuel => False
  end.

(** The characters of a decimal numeral. *)
Definition chars_of_uint (d : Decimal.uint) : list ascii :=
  list_ascii_of_string (NilEmpty.string_of_uint d).

(** One step of [Json.digits_value]. *)
Definition digit_step (acc : Z) (c : ascii) : Z := acc * 10 + (Z.of_N (N_of_ascii c) - 48).

(** An identity that [userSchema] accepts. *)
Definition valid_identity (n p : string) : Prop :=
  phoneRegex_test p = true /\ (3 <= String.length n)%nat.

(** [onSave] is only ever called by the dialog, with an identity that the
    resolver of its form has accepted. *)
Definition dialog_identity (a : Action) : Prop :=
  match a with
  | SaveUser u => valid_identity (user_name u) (user_phone u)
  | _ => True
  end.

(** The storage mirrors the state: hydrating from it gives the state back. *)
Definition mirrored (w : World) : Prop :=
  match truthy (getItem USER_STORAGE_KEY (storage w)) with
  | Some d => exists u, read_as User_of_json d = Some (Typed u) /\ user (state w) = Some u
  | None => user (state w) = None
  end
  /\ isAdmin (state w) = bool_decide (getItem ADMIN_STORAGE_KEY (storage w) = Some "true")
  /\ match truthy (getItem GIFTS_STORAGE_KEY (storage w)) with
     | Some d => read_as (as_array Gift_of_json) d = Some (Typed (gifts (state w)))
     | None => gifts (state w) = INITIAL_GIFTS
     end
  /\ match truthy (getItem RSVP_STORAGE_KEY (storage w)) with
     | Some d => read_as (as_array Presenca_of_json) d = Some (Typed (confirmacoes (state w)))
     | None => confirmacoes (state w) = []
     end
  /\ match truthy (getItem CONFIG_STORAGE_KEY (storage w)) with
     | Some d => read_as EventConfig_of_json d = Some (Typed (config (state w)))
     | None => config (state w) = DEFAULT_CONFIG
     end.

(** A world as the application itself produces it: mirrored by its storage,
    with a guest and attendance records that went through the dialog. *)
Definition wellformed (w : World) : Prop :=
  mirrored w
  /\ (forall u, user (state w) = Some u -> valid_identity (user_name u) (user_phone u))
  /\ Forall (fun r => valid_identity (name r) (phone r)) (confirmacoes (state w)).

(* ===================================================================== *)
(** * Vocabulary of the further properties                                *)
(* ===================================================================== *)

(** [selectedGift]: [gifts.find(g => g.id === selectedGiftId)]. *)
Definition selectedGift (selectedGiftId : option string) (gs : list Gift) : option Gift :=
  match selectedGiftId with
  | Some i => List.find (fun g => String.eqb (id g) i) gs
  | None => None
  end.

(** The controls of the pages that reach a handler, each with the condition
    under which [App] renders it: the control of the [n]-th card and of the
    details page of gift [i]; the cancel button of the [n]-th entry under
    "Meus Escolhidos"; the attendance form; the identity dialog and "Sair";
    the administrator's password dialog and "Sair Admin"; and, on the cards
    and the panel of the administrator, "Remover do Sistema", the gift form,
    its file input and the configuration form. *)
Inductive Click : Type :=
| CardControl (n : nat)
| DetailsControl (i : string)
| MyGiftCancel (n : nat)
| PresencaSubmit (f : PresencaForm) (iso : string)
| Identify (u : User)
| Sair
| AdminPassword (password : string)
| SairAdmin
| CardRemove (n : nat)
| GiftSubmit (data : GiftForm) (now_image now_id : N)
| FileInput (result : string)
| ConfigChange (data : EventConfig).

Definition click (c : Click) (w : World) : World :=
  match c with
  | CardControl n =>
      match gifts (state w) !! n with
      | Some g => GiftCard_click g w
      | None => w
      end
  | DetailsControl i =>
      match selectedGift (Some i) (gifts (state w)) with
      | Some g => GiftCard_click g w
      | None => w
      end
  | MyGiftCancel n =>
      match myGifts (user (state w)) (gifts (state w)) !! n with
      | Some g => handleCancelReserve (id g) w
      | None => w
      end
  | PresencaSubmit f iso =>
      if isAdmin (state w) then w else step (ConfirmPresenca f iso) w
  | Identify u =>
      match user (state w) with
      | None => if isAdmin (state w) then w else onSave u w
      | Some _ => w
      end
  | Sair =>
      match user (state w) with
      | Some _ => if isAdmin (state w) then w else handleLogout w
      | None => w
      end
  | AdminPassword p => if isAdmin (state w) then w else snd (handleAdminLogin p w)
  | SairAdmin => if isAdmin (state w) then handleAdminLogout w else w
  | CardRemove n =>
      if isAdmin (state w) then
        match gifts (state w) !! n with
        | Some g => handleRemoveGift (id g) w
        | None => w
        end
      else w
  | GiftSubmit d n1 n2 => if isAdmin (state w) then onAddGift d n1 n2 w else w
  | FileInput r => if isAdmin (state w) then handleFileChange r w else w
  | ConfigChange c => if isAdmin (state w) then onSaveConfig c w else w
  end.

Definition clicks (cs : list Click) (w : World) : World :=
  fold_left (fun w' c => click c w') cs w.

(** A click of somebody who is neither the guest named [a] nor the
    administrator. *)
Definition stranger (a : string) (c : Click) : Prop :=
  match c with
  | Identify u => user_name u <> a
  | AdminPassword p => p <> ADMIN_PASSWORD
  | _ => True
  end.

(** The item is reserved under the name [a]. *)
Definition held_by (a : string) (g : Gift) : Prop :=
  isReserved g = true /\ reservedBy g = Some a.

(** The readings of [Date.now()] that become ids along a run. *)
Fixpoint clock_readings (acts : list Action) : list N :=
  match acts with
  | [] => []
  | AddGift _ _ now_id :: rest => now_id :: clock_readings rest
  | _ :: rest => clock_readings rest
  end.

(** An item without its reservation. *)
Definition unreserved (g : Gift) : Gift := with_reservation g false None.

(** A click that does not enter the administrator's password. *)
Definition no_password (c : Click) : Prop :=
  match c with
  | AdminPassword p => p <> ADMIN_PASSWORD
  | _ => True
  end.

(** A record of the register as the attendance form produces it: the party
    is counted as the adults and the children, within the bounds of the
    form. *)
Definition party_consistent (r : Presenca) : Prop :=
  guestsCount r = adultsCount r + childrenCount r
  /\ 1 <= adultsCount r <= 10
  /\ 0 <= childrenCount r <= 10.

(** The number of records of those who attend. *)
Definition attending_count (cs : list Presenca) : Z :=
  Z.of_nat (totalReservas cs) - Z.of_nat (totalNaoVao cs).

(** What the guest typed last into the phone field and into the name field
    of the identity dialog. *)
Fixpoint typed_phone (es : list ModalEvent) : option string :=
  match es with
  | [] => None
  | e :: rest =>
      match typed_phone rest, e with
      | Some v, _ => Some v
      | None, PhoneInput v => Some v
      | None, NameInput _ => None
      end
  end.

Fixpoint typed_name (es : list ModalEvent) : option string :=
  match es with
  | [] => None
  | e :: rest =>
      match typed_name rest, e with
      | Some v, _ => Some v
      | None, NameInput v => Some v
      | None, PhoneInput _ => None
      end
  end.

(** The guest types a phone number with at least eleven digits. *)
Definition complete_phone (e : ModalEvent) : Prop :=
  match e with
  | PhoneInput v => (11 <= length (digits v))%nat
  | NameInput _ => False
  end.

(** The phone field holds no complete phone number. *)
Definition incomplete (m : ModalState) : Prop :=
  forall p, form_phone (values m) = Some p -> phoneRegex_test p = false.

(** The backspace key at the end of a field: [value.slice(0, -1)]. *)
Definition backspace (value : string) : string :=
  string_of_list_ascii (removelast (list_ascii_of_string value)).

(** What a record adds to a total: the field when the guest attends. *)
Definition counted (f : Presenca -> Z) (o : option Presenca) : Z :=
  match o with
  | Some r => if attending r then f r else 0
  | None => 0
  end.

(** What a record adds to the number of those who do not attend. *)
Definition declined (o : option Presenca) : Z :=
  match o with
  | Some r => if attending r then 0 else 1
  | None => 0
  end.

(** A click that keeps the administrator's session open. *)
Definition stays_admin (c : Click) : Prop :=
  match c with
  | SairAdmin => False
  | _ => True
  end.

(** A click that opens a session: an identity from the dialog, or the
    administrator's password. *)
Definition opens_session (c : Click) : Prop :=
  match c with
  | Identify _ => True
  | AdminPassword p => p = ADMIN_PASSWORD
  | _ => False
  end.
(* ===================================================================== *)
(** * Properties of [maskPhone]                                           *)
(* ===================================================================== *)

Section MaskPhone.

Local Open Scope char_scope.
Local Open Scope nat_scope.

Lemma chars_append (a b : string) :
  list_ascii_of_string (a +:+ b) = list_ascii_of_string a ++ list_ascii_of_string b.
Proof. induction a as [|c a IH]; simpl; [reflexivity | now rewrite IH]. Qed.

Lemma length_of_chars (l : list ascii) :
  String.length (string_of_list_ascii l) = length l.
Proof. induction l as [|c l IH]; simpl; [reflexivity | now rewrite IH]. Qed.

Lemma maskPhone_layout (s : string) :
  list_ascii_of_string (maskPhone s) = layout (digits s).
Proof.
  unfold maskPhone, layout, digits.
  destruct s as [|c s]; [reflexivity|].
  cbn [Js.falsy].
  unfold Js.strip_non_digits, Js.slice, Js.slice_from.
  rewrite length_of_chars.
  set (d := List.filter Js.is_digit (list_ascii_of_string (String c s))).
  rewrite !list_ascii_of_string_of_list_ascii.
  destruct (length d <? 3); [apply list_ascii_of_string_of_list_ascii|].
  destruct (length d <? 7);
    rewrite !chars_append, !list_ascii_of_string_of_list_ascii; reflexivity.
Qed.

Lemma digits_are_digits (s : string) : Forall (fun c => Js.is_digit c = true) (digits s).
Proof.
  unfold digits. apply List.Forall_forall. intros c Hc.
  apply List.filter_In in Hc. tauto.
Qed.

Lemma digit_lparen : Js.is_digit "(" = false. Proof. reflexivity. Qed.
Lemma digit_rparen : Js.is_digit ")" = false. Proof. reflexivity. Qed.
Lemma digit_space : Js.is_digit " " = false. Proof. reflexivity. Qed.
Lemma digit_hyphen : Js.is_digit "-" = false. Proof. reflexivity. Qed.

Local Arguments Js.is_digit : simpl never.

Local Ltac digit_facts :=
  repeat match goal with
         | H : Forall _ (_ :: _) |- _ =>
             let H1 := fresh "Hd" in
             apply Forall_cons_1 in H; destruct H as [H1 H]
         end.

Local Ltac by_digits :=
  cbn; rewrite ?digit_lparen, ?digit_rparen, ?digit_space, ?digit_hyphen; cbn;
  repeat match goal with
         | H : Js.is_digit _ = true |- _ => rewrite !H; clear H; cbn
         end;
  rewrite ?digit_lparen, ?digit_rparen, ?digit_space, ?digit_hyphen; cbn;
  try reflexivity.

Local Ltac upto_eleven d :=
  do 11 (destruct d as [|? d]; [digit_facts; by_digits|]); digit_facts.

Lemma digits_of_layout (d : list ascii) :
  Forall (fun c => Js.is_digit c = true) d ->
  List.filter Js.is_digit (layout d) = take 11 d.
Proof. intros H. unfold layout. upto_eleven d. by_digits. Qed.

Lemma layout_take (d : list ascii) : layout (take 11 d) = layout d.
Proof.
  unfold layout.
  do 11 (destruct d as [|? d]; [reflexivity|]).
  cbn. rewrite firstn_O. reflexivity.
Qed.

Lemma layout_mask (d : list ascii) :
  Forall (fun c => Js.is_digit c = true) d ->
  display_mask (string_of_list_ascii (layout d)) = true.
Proof.
  intros H. unfold display_mask.
  rewrite list_ascii_of_string_of_list_ascii. unfold layout.
  upto_eleven d. by_digits.
Qed.

Lemma layout_full (d : list ascii) :
  Forall (fun c => Js.is_digit c = true) d ->
  11 <= length d ->
  phoneRegex_test (string_of_list_ascii (layout d)) = true.
Proof.
  intros H Hlen. unfold phoneRegex_test.
  rewrite list_ascii_of_string_of_list_ascii. unfold layout.
  do 11 (destruct d as [|? d]; [simpl in Hlen; lia|]).
  digit_facts. by_digits.
Qed.

Lemma layout_partial (d : list ascii) :
  length d < 11 ->
  phoneRegex_test (string_of_list_ascii (layout d)) = false.
Proof.
  intros Hlen. unfold phoneRegex_test.
  rewrite list_ascii_of_string_of_list_ascii. unfold layout.
  do 11 (destruct d as [|? d]; [reflexivity|]).
  simpl in Hlen; lia.
Qed.

(** A complete masked phone number is left as it is. *)
Lemma maskPhone_masked (c : string) : phoneRegex_test c = true -> maskPhone c = c.
Proof.
  intros H.
  rewrite <- (string_of_list_ascii_of_string c) at 2.
  rewrite <- (string_of_list_ascii_of_string (maskPhone c)).
  f_equal. rewrite maskPhone_layout. unfold digits, phoneRegex_test in *.
  destruct (list_ascii_of_string c) as [|? l]; [discriminate|].
  do 14 (destruct l as [|? l]; [discriminate|]).
  destruct l; [|discriminate].
  repeat match goal with
         | H : _ && _ = true |- _ => apply andb_prop in H; destruct H
         end.
  repeat match goal with
         | H : Ascii.eqb _ _ = true |- _ => apply Ascii.eqb_eq in H; subst
         end.
  by_digits.
Qed.

Lemma phoneRegex_truthy (c : string) : phoneRegex_test c = true -> truthy (Some c) = Some c.
Proof. destruct c; [discriminate|reflexivity]. Qed.

End MaskPhone.

Example maskPhone_full : maskPhone "11912345678" = "(11) 91234-5678".
Proof. reflexivity. Qed.

Example maskPhone_overlong : maskPhone "+55 (11) 91234-5678 ramal 9" = "(55) 11912-3456".
Proof. reflexivity. Qed.

Example maskPhone_partial :
  maskPhone "11" = "11" /\ maskPhone "119" = "(11) 9" /\ maskPhone "1191234" = "(11) 91234-".
Proof. repeat split. Qed.

Example maskPhone_no_digit : maskPhone "abc" = "" /\ maskPhone "" = "".
Proof. split; reflexivity. Qed.

(** C10. [maskPhone] is idempotent; its result holds the first eleven digits
    of its argument, hence at most eleven, laid out by the display mask as
    far as they go, and it is a complete masked phone number exactly when
    the argument has at least eleven digits. *)
Theorem maskPhone_idempotent (s : string) :
  maskPhone (maskPhone s) = maskPhone s
  /\ digits (maskPhone s) = take 11 (digits s)
  /\ (length (digits (maskPhone s)) <= 11)%nat
  /\ display_mask (maskPhone s) = true
  /\ (phoneRegex_test (maskPhone s) = true <-> (11 <= length (digits s))%nat).
Proof.
  pose proof (digits_are_digits s) as Hd.
  assert (Hm : maskPhone s = string_of_list_ascii (layout (digits s))).
  { rewrite <- maskPhone_layout. symmetry. apply string_of_list_ascii_of_string. }
  assert (Hdig : digits (maskPhone s) = take 11 (digits s)).
  { unfold digits at 1. rewrite maskPhone_layout. now apply digits_of_layout. }
  split; [|split; [exact Hdig|split; [|split]]].
  - rewrite <- (string_of_list_ascii_of_string (maskPhone (maskPhone s))).
    rewrite maskPhone_layout, Hdig, layout_take. symmetry. exact Hm.
  - rewrite Hdig, length_take. lia.
  - rewrite Hm. now apply layout_mask.
  - rewrite Hm. split.
    + intros Hfull.
      destruct (le_lt_dec 11 (length (digits s))) as [Hle|Hlt]; [exact Hle|].
      rewrite (layout_partial _ Hlt) in Hfull. discriminate.
    + intros Hle. now apply layout_full.
Qed.

(* ===================================================================== *)
(** * Properties of the gift catalog                                      *)
(* ===================================================================== *)

Section Catalog.

Implicit Types (w : World) (g : Gift) (u : User) (i : string).

Lemma gifts_saveGifts updated w : gifts (state (saveGifts updated w)) = updated.
Proof. reflexivity. Qed.

Lemma user_saveGifts updated w : user (state (saveGifts updated w)) = user (state w).
Proof. reflexivity. Qed.

Lemma gifts_handleReserve i w u :
  user (state w) = Some u ->
  gifts (state (handleReserve i w)) = List.map (reserve_item i (user_name u)) (gifts (state w)).
Proof. intros Hu. unfold handleReserve. rewrite Hu. reflexivity. Qed.

Lemma handleReserve_anonymous i w : user (state w) = None -> handleReserve i w = w.
Proof. intros Hu. unfold handleReserve. now rewrite Hu. Qed.

Lemma gifts_handleCancelReserve i w :
  gifts (state (handleCancelReserve i w)) = List.map (cancel_item i) (gifts (state w)).
Proof. reflexivity. Qed.

Lemma id_with_reservation g r b : id (with_reservation g r b) = id g.
Proof. reflexivity. Qed.

Lemma id_reserve_item i b g : id (reserve_item i b g) = id g.
Proof. unfold reserve_item. now destruct (String.eqb (id g) i). Qed.

Lemma id_cancel_item i g : id (cancel_item i g) = id g.
Proof. unfold cancel_item. now destruct (String.eqb (id g) i). Qed.

Lemma reserve_item_cancel_item i a b g :
  reserve_item i b (cancel_item i (reserve_item i a g)) = reserve_item i b g.
Proof.
  unfold reserve_item, cancel_item.
  destruct (String.eqb (id g) i) eqn:E; cbn; rewrite ?E; cbn; rewrite ?E; reflexivity.
Qed.

Lemma reserve_item_same i b g :
  (id g = i -> isReserved g = true /\ reservedBy g = Some b) ->
  reserve_item i b g = g.
Proof.
  unfold reserve_item. intros H.
  destruct (String.eqb (id g) i) eqn:E; [|reflexivity].
  apply String.eqb_eq in E. destruct (H E) as [Hr Hb].
  destruct g; cbn in *. now subst.
Qed.

Lemma with_reservation_invariant_reserved g b :
  reservation_invariant (with_reservation g true (Some b)).
Proof. unfold reservation_invariant; cbn. split; discriminate. Qed.

Lemma with_reservation_invariant_free g :
  reservation_invariant (with_reservation g false None).
Proof. unfold reservation_invariant; cbn. split; reflexivity. Qed.

Lemma INITIAL_GIFTS_invariant : Forall reservation_invariant INITIAL_GIFTS.
Proof. repeat constructor. Qed.

Lemma step_invariant (a : Action) w :
  Forall reservation_invariant (gifts (state w)) ->
  Forall reservation_invariant (gifts (state (step a w))).
Proof.
  intros H. destruct a; cbn [step]; try exact H.
  - unfold handleReserve. destruct (user (state w)) as [u|]; [|exact H].
    rewrite gifts_saveGifts. apply Forall_map. eapply Forall_impl; [exact H|].
    intros g Hg. cbn. destruct (String.eqb (id g) id_); [|exact Hg].
    apply with_reservation_invariant_reserved.
  - rewrite gifts_handleCancelReserve. apply Forall_map.
    eapply Forall_impl; [exact H|].
    intros g Hg. unfold cancel_item. destruct (String.eqb (id g) id_); [|exact Hg].
    apply with_reservation_invariant_free.
  - unfold onAddGift. cbn. apply Forall_app. split; [exact H|].
    constructor; [|constructor]. unfold reservation_invariant; cbn. tauto.
  - unfold handleRemoveGift. rewrite gifts_saveGifts.
    apply List.Forall_forall. intros g Hg. apply List.filter_In in Hg.
    rewrite List.Forall_forall in H. apply H. tauto.
  - unfold submitPresenca. destruct (presencaSchema f); [|exact H].
    unfold onConfirmReservaPresenca. destruct (user (state w)); exact H.
  - unfold handleAdminLogin. destruct (String.eqb password ADMIN_PASSWORD); exact H.
Qed.

Lemma run_invariant (acts : list Action) w :
  Forall reservation_invariant (gifts (state w)) ->
  Forall reservation_invariant (gifts (state (run acts w))).
Proof.
  revert w. induction acts as [|a acts IH]; intros w H; [exact H|].
  cbn. apply IH. now apply step_invariant.
Qed.

End Catalog.

(** C3. In every catalog reached from the built-in seed catalog by the
    handlers of the application (reserve, cancel, add, remove among them),
    every item has [isReserved == false] exactly when [reservedBy] is
    absent; the seed catalog has the property and every single handler
    keeps it. *)
Theorem reservation_invariant_reachable (acts : list Action) (w : World) :
  gifts (state w) = INITIAL_GIFTS ->
  Forall reservation_invariant (gifts (state w))
  /\ Forall reservation_invariant (gifts (state (run acts w)))
  /\ (forall (a : Action) (w' : World),
        Forall reservation_invariant (gifts (state w')) ->
        Forall reservation_invariant (gifts (state (step a w')))).
Proof.
  intros Hseed.
  assert (H0 : Forall reservation_invariant (gifts (state w))).
  { rewrite Hseed. apply INITIAL_GIFTS_invariant. }
  split; [exact H0|split].
  - now apply run_invariant.
  - intros a w'. apply step_invariant.
Qed.

Lemma reservation_invariant_reachable_witness :
  gifts (state seed_world) = INITIAL_GIFTS
  /\ Forall reservation_invariant
       (gifts (state (run [SaveUser ana; Reserve "1"; CancelReserve "1"; Reserve "2";
                           RemoveGift "3"]
                          seed_world))).
Proof.
  split; [reflexivity|].
  exact (proj1 (proj2 (reservation_invariant_reachable
                         [SaveUser ana; Reserve "1"; CancelReserve "1"; Reserve "2";
                          RemoveGift "3"]
                         seed_world eq_refl))).
Defined.

Section Reservation.

Implicit Types (w : World) (g : Gift) (u : User) (i b : string).

Lemma ids_reserve i b (gs : list Gift) :
  List.map id (List.map (reserve_item i b) gs) = List.map id gs.
Proof.
  rewrite List.map_map. apply List.map_ext. intros g. apply id_reserve_item.
Qed.

Lemma ids_cancel i (gs : list Gift) :
  List.map id (List.map (cancel_item i) gs) = List.map id gs.
Proof.
  rewrite List.map_map. apply List.map_ext. intros g. apply id_cancel_item.
Qed.

Lemma reserved_after_reserve i b (gs : list Gift) g :
  In g (List.map (reserve_item i b) gs) -> id g = i ->
  isReserved g = true /\ reservedBy g = Some b.
Proof.
  intros Hin Hid. apply List.in_map_iff in Hin. destruct Hin as (g0 & <- & _).
  rewrite id_reserve_item in Hid. unfold reserve_item.
  apply String.eqb_eq in Hid. rewrite Hid. cbn. tauto.
Qed.

Lemma free_after_cancel i (gs : list Gift) g :
  In g (List.map (cancel_item i) gs) -> id g = i ->
  isReserved g = false /\ reservedBy g = None.
Proof.
  intros Hin Hid. apply List.in_map_iff in Hin. destruct Hin as (g0 & <- & _).
  rewrite id_cancel_item in Hid. unfold cancel_item.
  apply String.eqb_eq in Hid. rewrite Hid. cbn. tauto.
Qed.

Lemma others_after_reserve i b (gs : list Gift) g :
  id g <> i -> In g (List.map (reserve_item i b) gs) <-> In g gs.
Proof.
  intros Hne. rewrite List.in_map_iff. split.
  - intros (g0 & Heq & Hin). unfold reserve_item in Heq.
    destruct (String.eqb (id g0) i) eqn:E.
    + apply String.eqb_eq in E. subst g. cbn in Hne. contradiction.
    + now subst.
  - intros Hin. exists g. split; [|exact Hin].
    unfold reserve_item. apply String.eqb_neq in Hne. now rewrite Hne.
Qed.

Lemma others_after_cancel i (gs : list Gift) g :
  id g <> i -> In g (List.map (cancel_item i) gs) <-> In g gs.
Proof.
  intros Hne. rewrite List.in_map_iff. split.
  - intros (g0 & Heq & Hin). unfold cancel_item in Heq.
    destruct (String.eqb (id g0) i) eqn:E.
    + apply String.eqb_eq in E. subst g. cbn in Hne. contradiction.
    + now subst.
  - intros Hin. exists g. split; [|exact Hin].
    unfold cancel_item. apply String.eqb_neq in Hne. now rewrite Hne.
Qed.

Lemma reserve_same_holder i b (gs : list Gift) :
  (forall g, In g gs -> id g = i -> isReserved g = true /\ reservedBy g = Some b) ->
  List.map (reserve_item i b) gs = gs.
Proof.
  intros H. rewrite <- (List.map_id gs) at 2. apply List.map_ext_in.
  intros g Hg. apply reserve_item_same. now apply H.
Qed.

(** The card of a reserved item never shows the reserve button, and the
    card of an item somebody else holds shows no button at all. *)
Lemma GiftCard_reserved g (cu : option User) :
  isReserved g = true -> GiftCard g cu <> ReserveButton.
Proof.
  intros Hr. unfold GiftCard. rewrite Hr. cbn.
  destruct (isMine cu g); discriminate.
Qed.

Lemma GiftCard_click_foreign g w u :
  user (state w) = Some u -> isReserved g = true ->
  reservedBy g <> Some (user_name u) ->
  GiftCard_click g w = w.
Proof.
  intros Hu Hr Hb. unfold GiftCard_click, GiftCard. rewrite Hr, Hu. cbn.
  rewrite bool_decide_eq_false_2 by exact Hb. reflexivity.
Qed.

Lemma gifts_round_trip i w (a b : User) :
  gifts (state (run [SaveUser a; Reserve i; CancelReserve i; Logout; SaveUser b; Reserve i] w))
  = List.map (reserve_item i (user_name b)) (gifts (state w)).
Proof.
  cbn [run fold_left step].
  rewrite (gifts_handleReserve i _ b) by reflexivity.
  cbn [onSave handleLogout state gifts set_user set_uploadedImage].
  rewrite gifts_handleCancelReserve.
  rewrite (gifts_handleReserve i _ a) by reflexivity.
  cbn [onSave state gifts set_user].
  rewrite !List.map_map. apply List.map_ext. intros g.
  apply reserve_item_cancel_item.
Qed.

End Reservation.

(** C1 (counterexample). Ana holds the first seed item; Bruno reserves it:
    the call goes through, the catalog changes and the holder is now Bruno. *)
Lemma reserve_overwrites_holder :
  holder "1" (gifts (state bruno_arrives)) = Some (Some (user_name ana))
  /\ holder "1" (gifts (state (handleReserve "1" bruno_arrives))) = Some (Some (user_name bruno))
  /\ gifts (state (handleReserve "1" bruno_arrives)) <> gifts (state bruno_arrives).
Proof.
  split; [reflexivity|split; [reflexivity|]].
  intros H. apply (f_equal (holder "1")) in H. vm_compute in H. discriminate.
Qed.

(** C1 (amended). [handleReserve] checks nothing and reports nothing: with a
    guest signed in it makes that guest the holder of every item with the
    given id, whoever held it, and touches no other item; the catalog is
    unchanged only when those items are already held under the same name.
    It is the card that withholds the reserve button from a reserved item,
    and a click on the card of an item held by somebody else does nothing. *)
Theorem handleReserve_unconditional (i : string) (w : World) (u : User) :
  user (state w) = Some u ->
  List.map id (gifts (state (handleReserve i w))) = List.map id (gifts (state w))
  /\ (forall g, In g (gifts (state (handleReserve i w))) -> id g = i ->
        isReserved g = true /\ reservedBy g = Some (user_name u))
  /\ (forall g, id g <> i ->
        In g (gifts (state (handleReserve i w))) <-> In g (gifts (state w)))
  /\ ((forall g, In g (gifts (state w)) -> id g = i ->
         isReserved g = true /\ reservedBy g = Some (user_name u)) ->
      gifts (state (handleReserve i w)) = gifts (state w))
  /\ (forall g, isReserved g = true ->
        GiftCard g (Some u) <> ReserveButton
        /\ (reservedBy g <> Some (user_name u) -> GiftCard_click g w = w)).
Proof.
  intros Hu. rewrite (gifts_handleReserve i w u Hu).
  split; [apply ids_reserve|split; [|split; [|split]]].
  - intros g. apply reserved_after_reserve.
  - intros g. apply others_after_reserve.
  - apply reserve_same_holder.
  - intros g Hr. split; [now apply GiftCard_reserved|].
    intros Hb. now apply (GiftCard_click_foreign g w u).
Qed.

Lemma handleReserve_unconditional_witness :
  user (state bruno_arrives) = Some bruno
  /\ List.map id (gifts (state (handleReserve "1" bruno_arrives)))
     = List.map id (gifts (state bruno_arrives)).
Proof.
  split; [reflexivity|].
  exact (proj1 (handleReserve_unconditional "1" bruno_arrives bruno eq_refl)).
Defined.

(** C7. [handleCancelReserve] clears [isReserved] and [reservedBy] of every
    item with the given id, whoever holds it, and touches no other item;
    after guest [a] reserves, the reservation is cancelled and guest [b]
    reserves, the items with that id are reserved by [b]. *)
Theorem cancel_then_reserve (i : string) (w : World) (a b : User) :
  List.map id (gifts (state (handleCancelReserve i w))) = List.map id (gifts (state w))
  /\ (forall g, In g (gifts (state (handleCancelReserve i w))) -> id g = i ->
        isReserved g = false /\ reservedBy g = None)
  /\ (forall g, id g <> i ->
        In g (gifts (state (handleCancelReserve i w))) <-> In g (gifts (state w)))
  /\ List.map id
       (gifts (state (run [SaveUser a; Reserve i; CancelReserve i; Logout; SaveUser b; Reserve i] w)))
     = List.map id (gifts (state w))
  /\ (forall g,
        In g (gifts (state (run [SaveUser a; Reserve i; CancelReserve i; Logout; SaveUser b; Reserve i] w))) ->
        id g = i -> isReserved g = true /\ reservedBy g = Some (user_name b)).
Proof.
  rewrite gifts_round_trip, gifts_handleCancelReserve.
  split; [apply ids_cancel|split; [|split; [|split]]].
  - intros g. apply free_after_cancel.
  - intros g. apply others_after_cancel.
  - apply ids_reserve.
  - intros g. apply reserved_after_reserve.
Qed.

(** The round trip on the first seed item. *)
Example cancel_then_reserve_seed :
  holder "1"
    (gifts (state (run [SaveUser ana; Reserve "1"; CancelReserve "1"; Logout; SaveUser bruno; Reserve "1"]
                       seed_world)))
  = Some (Some "Bruno Lima")
  /\ holder "1" (gifts (state (handleCancelReserve "1" ana_reserved))) = Some None.
Proof. split; reflexivity. Qed.

(* ===================================================================== *)
(** * Properties of the attendance register                               *)
(* ===================================================================== *)

Section Attendance.

Implicit Types (w : World) (r c : Presenca) (cs : list Presenca) (u : User).

Lemma or_zero_id (n : Z) : Js.or_zero n = n.
Proof. unfold Js.or_zero. destruct (Z.eqb_spec n 0); congruence. Qed.

Lemma findIndex_lower {A : Type} (p : A -> bool) (l : list A) : -1 <= findIndex p l.
Proof.
  induction l as [|x l IH]; cbn; [lia|].
  destruct (p x); [lia|]. destruct (Z.ltb_spec (findIndex p l) 0); lia.
Qed.

(** The index assignment of the source is the insert-or-replace. *)
Lemma updated_upsert r cs :
  (if -1 <? findIndex (fun c => String.eqb (phone c) (phone r)) cs
   then <[Z.to_nat (findIndex (fun c => String.eqb (phone c) (phone r)) cs) := r]> cs
   else cs ++ [r])
  = upsert r cs.
Proof.
  induction cs as [|c cs IH]; cbn; [reflexivity|].
  destruct (String.eqb (phone c) (phone r)); [reflexivity|].
  set (i := findIndex (fun c => String.eqb (phone c) (phone r)) cs) in *.
  pose proof (findIndex_lower (fun c => String.eqb (phone c) (phone r)) cs) as Hlo.
  fold i in Hlo.
  destruct (Z.ltb_spec i 0) as [Hneg|Hpos].
  - replace (-1 <? -1) with false by reflexivity.
    destruct (Z.ltb_spec (-1) i); [lia|]. cbn. now rewrite <- IH.
  - destruct (Z.ltb_spec (-1) (i + 1)); [|lia].
    destruct (Z.ltb_spec (-1) i); [|lia].
    replace (Z.to_nat (i + 1)) with (S (Z.to_nat i)) by lia.
    cbn. now rewrite <- IH.
Qed.

Lemma confirmacoes_onConfirm (f : PresencaForm) (iso : string) w u :
  user (state w) = Some u ->
  confirmacoes (state (onConfirmReservaPresenca f iso w))
  = upsert (record_of_submit u f iso) (confirmacoes (state w)).
Proof.
  intros Hu. unfold onConfirmReservaPresenca. rewrite Hu.
  cbn [state confirmacoes set_confirmacoes]. rewrite !or_zero_id.
  apply (updated_upsert (record_of_submit u f iso)).
Qed.

Lemma presencaSchema_data (f d : PresencaForm) : presencaSchema f = Valid d -> d = f.
Proof.
  unfold presencaSchema.
  destruct (z_number_range _ _ _ _ (adults f)), (z_number_range _ _ _ _ (children f));
    intros H; now inversion H.
Qed.

(** How a step changes the register. *)
Lemma confirmacoes_step (a : Action) w :
  confirmacoes (state (step a w))
  = match a, user (state w) with
    | ConfirmPresenca f iso, Some u =>
        if accepted f then upsert (record_of_submit u f iso) (confirmacoes (state w))
        else confirmacoes (state w)
    | _, _ => confirmacoes (state w)
    end.
Proof.
  destruct a; cbn [step]; try (destruct (user (state w)); reflexivity).
  - unfold handleReserve. destruct (user (state w)); reflexivity.
  - unfold submitPresenca, accepted.
    destruct (presencaSchema f) as [d|e] eqn:E.
    + apply presencaSchema_data in E. subst d.
      destruct (user (state w)) as [u|] eqn:Hu.
      * now apply confirmacoes_onConfirm.
      * unfold onConfirmReservaPresenca. now rewrite Hu.
    + destruct (user (state w)); reflexivity.
  - unfold handleAdminLogin.
    destruct (String.eqb password ADMIN_PASSWORD), (user (state w)); reflexivity.
Qed.

Lemma upsert_absent r cs :
  ~ In (phone r) (List.map phone cs) -> upsert r cs = cs ++ [r].
Proof.
  induction cs as [|c cs IH]; cbn; intros Hn; [reflexivity|].
  destruct (String.eqb_spec (phone c) (phone r)) as [E|E]; [tauto|].
  f_equal. apply IH. tauto.
Qed.

Lemma upsert_phones_present r cs :
  In (phone r) (List.map phone cs) -> List.map phone (upsert r cs) = List.map phone cs.
Proof.
  induction cs as [|c cs IH]; cbn; intros Hin; [contradiction|].
  destruct (String.eqb_spec (phone c) (phone r)) as [E|E]; cbn; [now rewrite E|].
  f_equal. apply IH. tauto.
Qed.

Lemma upsert_prefix r cs :
  List.map phone cs `prefix_of` List.map phone (upsert r cs).
Proof.
  destruct (in_dec string_dec (phone r) (List.map phone cs)) as [Hin|Hn].
  - now rewrite upsert_phones_present.
  - rewrite upsert_absent by exact Hn. rewrite List.map_app. now apply prefix_app_r.
Qed.

Lemma upsert_NoDup r cs :
  List.NoDup (List.map phone cs) -> List.NoDup (List.map phone (upsert r cs)).
Proof.
  intros Hnd.
  destruct (in_dec string_dec (phone r) (List.map phone cs)) as [Hin|Hn].
  - now rewrite upsert_phones_present.
  - rewrite upsert_absent by exact Hn. rewrite List.map_app. cbn.
    apply List.NoDup_app; [exact Hnd|repeat constructor; intros []|].
    intros x Hx [<-|[]]. contradiction.
Qed.

Lemma records_of_absent (k : string) cs :
  ~ In k (List.map phone cs) -> records_of k cs = [].
Proof.
  unfold records_of.
  induction cs as [|c cs IH]; cbn; intros Hn; [reflexivity|].
  destruct (String.eqb_spec (phone c) k) as [E|E]; [tauto|]. apply IH. tauto.
Qed.

Lemma records_of_upsert_same r cs :
  List.NoDup (List.map phone cs) -> records_of (phone r) (upsert r cs) = [r].
Proof.
  induction cs as [|c cs IH]; cbn [upsert List.map]; intros Hnd.
  - unfold records_of. cbn. now rewrite String.eqb_refl.
  - inversion Hnd as [|x l Hx Hnd']; subst.
    destruct (String.eqb_spec (phone c) (phone r)) as [E|E].
    + unfold records_of. cbn [List.filter]. rewrite String.eqb_refl. f_equal.
      apply records_of_absent. now rewrite <- E.
    + unfold records_of. cbn [List.filter].
      apply String.eqb_neq in E. rewrite E. now apply IH.
Qed.

Lemma records_of_upsert_other (k : string) r cs :
  phone r <> k -> records_of k (upsert r cs) = records_of k cs.
Proof.
  intros Hne. unfold records_of. apply String.eqb_neq in Hne.
  induction cs as [|c cs IH]; cbn.
  - now rewrite Hne.
  - destruct (String.eqb_spec (phone c) (phone r)) as [E|E]; cbn.
    + rewrite Hne. rewrite E. now rewrite Hne.
    + destruct (String.eqb (phone c) k); now rewrite IH.
Qed.

Lemma records_of_NoDup (k : string) cs :
  List.NoDup (List.map phone cs) -> (length (records_of k cs) <= 1)%nat.
Proof.
  induction cs as [|c cs IH]; cbn [List.map]; intros Hnd; [cbn; lia|].
  inversion Hnd as [|x l Hx Hnd']; subst.
  unfold records_of. cbn [List.filter].
  destruct (String.eqb_spec (phone c) k) as [E|E]; [|now apply IH].
  fold (records_of k cs). rewrite records_of_absent; [cbn; lia|]. now rewrite <- E.
Qed.

Lemma step_NoDup (a : Action) w :
  List.NoDup (List.map phone (confirmacoes (state w))) ->
  List.NoDup (List.map phone (confirmacoes (state (step a w)))).
Proof.
  intros Hnd. rewrite confirmacoes_step.
  destruct a; try exact Hnd; try (destruct (user (state w)); exact Hnd).
  destruct (user (state w)); [|exact Hnd].
  destruct (accepted f); [now apply upsert_NoDup|exact Hnd].
Qed.

Lemma step_prefix (a : Action) w :
  List.map phone (confirmacoes (state w))
    `prefix_of` List.map phone (confirmacoes (state (step a w))).
Proof.
  rewrite confirmacoes_step.
  destruct a; try reflexivity; try (destruct (user (state w)); reflexivity).
  destruct (user (state w)); [|reflexivity].
  destruct (accepted f); [apply upsert_prefix|reflexivity].
Qed.

Lemma run_NoDup (acts : list Action) w :
  List.NoDup (List.map phone (confirmacoes (state w))) ->
  List.NoDup (List.map phone (confirmacoes (state (run acts w)))).
Proof.
  revert w. induction acts as [|a acts IH]; intros w H; [exact H|].
  cbn. apply IH. now apply step_NoDup.
Qed.

Lemma run_prefix (acts : list Action) w :
  List.map phone (confirmacoes (state w))
    `prefix_of` List.map phone (confirmacoes (state (run acts w))).
Proof.
  revert w. induction acts as [|a acts IH]; intros w; [reflexivity|].
  cbn. etransitivity; [apply step_prefix|apply IH].
Qed.

(** The records of [k] after a run, from the last accepted submission. *)
Lemma run_records_of (k : string) (acts : list Action) w (last : option Presenca) :
  List.NoDup (List.map phone (confirmacoes (state w))) ->
  (forall r, last = Some r -> records_of k (confirmacoes (state w)) = [r]) ->
  match last_submit k acts w last with
  | Some r => records_of k (confirmacoes (state (run acts w))) = [r]
  | None =>
      last = None
      /\ records_of k (confirmacoes (state (run acts w)))
         = records_of k (confirmacoes (state w))
  end.
Proof.
  revert w last. induction acts as [|a acts IH]; intros w last Hnd Hlast.
  - cbn. destruct last as [r|]; [now apply Hlast|split; reflexivity].
  - cbn [last_submit run fold_left].
    set (last' := match a, user (state w) with
                  | ConfirmPresenca f iso, Some u =>
                      if accepted f && String.eqb (user_phone u) k
                      then Some (record_of_submit u f iso) else last
                  | _, _ => last
                  end).
    assert (Hstep : (forall r, last' = Some r ->
                       records_of k (confirmacoes (state (step a w))) = [r])
                    /\ (last' = None ->
                        last = None
                        /\ records_of k (confirmacoes (state (step a w)))
                           = records_of k (confirmacoes (state w)))).
    { subst last'. rewrite confirmacoes_step.
      destruct a; try (split; [exact Hlast|intros ->; split; reflexivity]);
        try (destruct (user (state w));
             split; [exact Hlast|intros ->; split; reflexivity]).
      destruct (user (state w)) as [u|];
        [|split; [exact Hlast|intros ->; split; reflexivity]].
      destruct (accepted f); cbn [andb];
        [|split; [exact Hlast|intros ->; split; reflexivity]].
      destruct (String.eqb_spec (user_phone u) k) as [E|E].
      - split; [|discriminate]. intros r Hr. inversion Hr; subst r.
        rewrite <- E. now apply (records_of_upsert_same (record_of_submit u f iso)).
      - rewrite (records_of_upsert_other k (record_of_submit u f iso)) by exact E.
        split; [exact Hlast|intros ->; split; reflexivity]. }
    destruct Hstep as [HS HN].
    specialize (IH (step a w) last' (step_NoDup a w Hnd) HS).
    fold (run acts (step a w)) in IH |- *.
    destruct (last_submit k acts (step a w) last') as [r|]; [exact IH|].
    destruct IH as [Hl' IH]. destruct (HN Hl') as [Hl Hrec].
    split; [exact Hl|]. now rewrite IH.
Qed.

Lemma fold_attending (f : Presenca -> Z) cs (acc : Z) :
  fold_left (fun a c => if attending c then a + f c else a) cs acc
  = acc + sum_attending f cs.
Proof.
  unfold sum_attending. revert acc.
  induction cs as [|c cs IH]; intros acc; cbn; [lia|].
  rewrite IH. destruct (attending c); cbn; lia.
Qed.

End Attendance.

(** The scenario of the catalog: the seed catalog has four items; adding one
    gives five, the new one not reserved and with the placeholder image. *)
Example onAddGift_seed :
  let w := onAddGift (mkGiftForm "Liquidificador" "Liquidificador de alta potencia" None None)
             1700000000000 1700000000000 seed_world in
  length (gifts (state seed_world)) = 4%nat
  /\ length (gifts (state w)) = 5%nat
  /\ List.map isReserved (drop 4 (gifts (state w))) = [false]
  /\ List.map imageUrl (drop 4 (gifts (state w)))
     = ["https://picsum.photos/seed/1700000000000/600/400"].
Proof. repeat split. Qed.

(** C2. Along every run of the application that starts from a register
    keyed uniquely by phone, the register stays keyed uniquely; for every
    contact it holds at most one record, which is the record of the last
    accepted submission made for that contact (the records of a contact
    nobody submitted for are as before); the records that were there keep
    their positions and the records of new contacts follow them.  A single
    submission replaces the record at the index where the contact is found
    and otherwise appends. *)
Theorem attendance_upsert (k : string) (acts : list Action) (w : World) :
  List.NoDup (List.map phone (confirmacoes (state w))) ->
  List.NoDup (List.map phone (confirmacoes (state (run acts w))))
  /\ (length (records_of k (confirmacoes (state (run acts w)))) <= 1)%nat
  /\ match last_submit k acts w None with
     | Some r => records_of k (confirmacoes (state (run acts w))) = [r]
     | None => records_of k (confirmacoes (state (run acts w)))
               = records_of k (confirmacoes (state w))
     end
  /\ List.map phone (confirmacoes (state w))
       `prefix_of` List.map phone (confirmacoes (state (run acts w)))
  /\ (forall (u : User) (f : PresencaForm) (iso : string),
        user (state w) = Some u -> accepted f = true ->
        let cs := confirmacoes (state w) in
        let cs' := confirmacoes (state (step (ConfirmPresenca f iso) w)) in
        (forall (n : nat) (r0 : Presenca),
           cs !! n = Some r0 -> phone r0 = user_phone u ->
           cs' = <[n := record_of_submit u f iso]> cs)
        /\ ((forall r0, In r0 cs -> phone r0 <> user_phone u) ->
            cs' = cs ++ [record_of_submit u f iso])).
Proof.
  intros Hnd.
  split; [now apply run_NoDup|split; [apply records_of_NoDup; now apply run_NoDup|]].
  split; [|split; [apply run_prefix|]].
  - pose proof (run_records_of k acts w None Hnd) as H.
    destruct (last_submit k acts w None); [apply H; discriminate|apply H; discriminate].
  - intros u f iso Hu Hacc cs cs'. subst cs cs'.
    rewrite confirmacoes_step, Hu, Hacc. split.
    + intros n r0 Hn Hp.
      set (r := record_of_submit u f iso).
      change (user_phone u) with (phone r) in Hp.
      clear Hu Hacc. revert n Hn Hnd.
      induction (confirmacoes (state w)) as [|c cs IH]; intros n Hn Hnd; [discriminate|].
      inversion Hnd as [|x l Hx Hnd']; subst. cbn [upsert].
      destruct n as [|n]; cbn in Hn.
      * inversion Hn; subst c. rewrite Hp, String.eqb_refl. reflexivity.
      * destruct (String.eqb_spec (phone c) (phone r)) as [E|E].
        { exfalso. apply Hx. rewrite E, <- Hp.
          apply List.in_map. apply list_elem_of_In. eapply list_elem_of_lookup_2. exact Hn. }
        { cbn. f_equal. now apply IH. }
    + intros Hno. apply upsert_absent. cbn.
      intros Hin. apply List.in_map_iff in Hin. destruct Hin as (r0 & Hp & Hin).
      now apply (Hno r0).
Qed.

Lemma attendance_upsert_witness :
  List.NoDup (List.map phone (confirmacoes (state seed_world)))
  /\ records_of "(11) 90000-0001"
       (confirmacoes
          (state (run [SaveUser ana; ConfirmPresenca (mkPresencaForm true 2 1) "t1"; Logout;
                       SaveUser bruno; ConfirmPresenca (mkPresencaForm false 1 0) "t2"; Logout;
                       SaveUser ana; ConfirmPresenca (mkPresencaForm true 3 0) "t3"]
                      seed_world)))
     = [record_of_submit ana (mkPresencaForm true 3 0) "t3"].
Proof.
  split; [constructor|].
  exact (proj1 (proj2 (proj2
    (attendance_upsert "(11) 90000-0001"
       [SaveUser ana; ConfirmPresenca (mkPresencaForm true 2 1) "t1"; Logout;
        SaveUser bruno; ConfirmPresenca (mkPresencaForm false 1 0) "t2"; Logout;
        SaveUser ana; ConfirmPresenca (mkPresencaForm true 3 0) "t3"]
       seed_world (List.NoDup_nil _))))).
Defined.

(** C4. The aggregates are the sums of [guestsCount], [adultsCount] and
    [childrenCount] over the records of those who attend and the number of
    records of those who do not; on the three records of the scenario they
    are 4, 3, 1 and 1. *)
Theorem attendance_aggregates (cs : list Presenca) :
  totalPessoas cs = sum_attending guestsCount cs
  /\ totalAdultos cs = sum_attending adultsCount cs
  /\ totalCriancas cs = sum_attending childrenCount cs
  /\ totalNaoVao cs = length (List.filter (fun c => Bool.eqb (attending c) false) cs)
  /\ (forall n1 p1 d1 n2 p2 d2 n3 p3 d3 a3 c3 g3,
        let rs := scenario_records n1 p1 d1 n2 p2 d2 n3 p3 d3 a3 c3 g3 in
        totalPessoas rs = 4 /\ totalAdultos rs = 3 /\ totalCriancas rs = 1
        /\ totalNaoVao rs = 1%nat).
Proof.
  unfold totalPessoas, totalAdultos, totalCriancas, totalNaoVao.
  rewrite !fold_attending.
  repeat split.
Qed.

(** C5 (counterexample). A guest who declines and whose form holds no adult
    is refused by the resolver, and so is one whose form holds eleven. *)
Lemma declining_is_validated :
  presencaSchema (mkPresencaForm false 0 0)
  = Invalid {| err_adults := Some ("M" +:+ Js.lat 237 +:+ "nimo 1 adulto"); err_children := None |}
  /\ accepted (mkPresencaForm false 11 0) = false
  /\ step (ConfirmPresenca (mkPresencaForm false 0 0) "2024-11-01T10:00:00.000Z")
          (onSave ana seed_world)
     = onSave ana seed_world.
Proof. repeat split. Qed.

(** C5 (amended). The resolver accepts an attendance form exactly when
    [adults] is between 1 and 10 and [children] between 0 and 10, whatever
    [attending] is; it hands the form on unchanged; a form with 0 or 11
    adults is refused, and a refused submission leaves the application as
    it was. *)
Theorem presencaSchema_bounds (f : PresencaForm) :
  (accepted f = true <-> 1 <= adults f <= 10 /\ 0 <= children f <= 10)
  /\ (accepted f = true -> presencaSchema f = Valid f)
  /\ accepted f = accepted (mkPresencaForm (negb (form_attending f)) (adults f) (children f))
  /\ (adults f = 0 \/ adults f = 11 -> accepted f = false)
  /\ (forall (iso : string) (w : World),
        accepted f = false -> step (ConfirmPresenca f iso) w = w).
Proof.
  assert (Hacc : accepted f = true <-> 1 <= adults f <= 10 /\ 0 <= children f <= 10).
  { unfold accepted, presencaSchema, z_number_range.
    destruct (Z.ltb_spec (adults f) 1), (Z.ltb_spec 10 (adults f)),
      (Z.ltb_spec (children f) 0), (Z.ltb_spec 10 (children f));
      split; intros Hyp; try discriminate; try reflexivity; lia. }
  split; [exact Hacc|split; [|split; [|split]]].
  - unfold accepted. destruct (presencaSchema f) as [d|e] eqn:E; [|discriminate].
    intros _. apply presencaSchema_data in E. now subst.
  - unfold accepted, presencaSchema, z_number_range. cbn [adults children].
    destruct (adults f <? 1), (10 <? adults f), (children f <? 0), (10 <? children f);
      reflexivity.
  - intros H. apply not_true_is_false. intros E. apply Hacc in E. lia.
  - intros iso w H. cbn [step]. unfold submitPresenca.
    unfold accepted in H. now destruct (presencaSchema f).
Qed.

(* ===================================================================== *)
(** * Properties of the identity dialog                                   *)
(* ===================================================================== *)

Section Recognition.

Variable ls : localStorage.
Variable saved : string.
Variable rs : list Presenca.
Variable known : Presenca.
Variable c : string.

Hypothesis stored : truthy (getItem RSVP_STORAGE_KEY ls) = Some saved.
Hypothesis typed : read_as (as_array Presenca_of_json) saved = Some (Typed rs).
Hypothesis found : List.find (fun r => String.eqb (phone r) c) rs = Some known.
Hypothesis masked : phoneRegex_test c = true.
Hypothesis named : (3 <= String.length (name known))%nat.

Local Abbreviation recognized := (recognized known c).

Lemma checkExistingUser_done (m : ModalState) :
  exists m', checkExistingUser ls m = Done m'
             /\ form_phone (values m') = form_phone (values m)
             /\ recognized m'.
Proof.
  unfold checkExistingUser.
  destruct (truthy (form_phone (values m))) as [p|] eqn:Hp.
  - destruct (phoneRegex_test p) eqn:Hre.
    + rewrite stored, typed.
      destruct (List.find (fun r => String.eqb (phone r) p) rs) as [x|] eqn:Hf.
      * eexists. split; [reflexivity|]. split; [reflexivity|].
        intros Hc. cbn in Hc. rewrite Hc in Hp. rewrite (phoneRegex_truthy c masked) in Hp.
        inversion Hp; subst p. rewrite found in Hf. inversion Hf; subst x.
        split; reflexivity.
      * eexists. split; [reflexivity|]. split; [reflexivity|].
        intros Hc. cbn in Hc. rewrite Hc in Hp. rewrite (phoneRegex_truthy c masked) in Hp.
        inversion Hp; subst p. rewrite found in Hf. discriminate.
    + eexists. split; [reflexivity|]. split; [reflexivity|].
      intros Hc. cbn in Hc. rewrite Hc in Hp. rewrite (phoneRegex_truthy c masked) in Hp.
      inversion Hp; subst p. rewrite masked in Hre. discriminate.
  - eexists. split; [reflexivity|]. split; [reflexivity|].
    intros Hc. cbn in Hc. rewrite Hc in Hp. rewrite (phoneRegex_truthy c masked) in Hp.
    discriminate.
Qed.

Lemma name_truthy : truthy (Some (name known)) = Some (name known).
Proof. destruct (name known); [cbn in named; lia|reflexivity]. Qed.

Lemma modal_event_recognized (e : ModalEvent) (m : ModalState) :
  recognized m -> exists m', modal_event ls e m = Done m' /\ recognized m'.
Proof.
  intros Hm. destruct e as [v|v]; cbn [modal_event].
  - destruct (bool_decide (form_phone (values m) = Some (maskPhone v))) eqn:E.
    + apply bool_decide_eq_true in E.
      eexists. split; [reflexivity|]. intros Hc. cbn in Hc |- *.
      apply Hm. now rewrite E.
    + destruct (checkExistingUser_done
                  {| values := {| form_name := form_name (values m);
                                  form_phone := Some (maskPhone v) |};
                     existingUserFound := existingUserFound m |}) as (m' & -> & _ & Hr).
      now exists m'.
  - destruct (name_disabled m) eqn:D.
    + now exists m.
    + eexists. split; [reflexivity|]. intros Hc. cbn in Hc.
      destruct (Hm Hc) as [_ He]. unfold name_disabled in D.
      rewrite He, name_truthy in D. discriminate.
Qed.

Lemma modal_events_recognized (es : list ModalEvent) (m : ModalState) :
  recognized m -> exists m', modal_events ls es m = Done m' /\ recognized m'.
Proof.
  revert m. induction es as [|e es IH]; intros m Hm; cbn.
  - now exists m.
  - destruct (modal_event_recognized e m Hm) as (m1 & -> & H1). now apply IH.
Qed.

Lemma onSubmit_recognized (m : ModalState) :
  recognized m -> form_phone (values m) = Some c ->
  onSubmit m = Valid (mkUser (name known) c false) /\ name_disabled m = true.
Proof.
  intros Hm Hc. destruct (Hm Hc) as [Hn He].
  unfold onSubmit, userSchema, name_disabled, z_string_min, z_string_phone.
  rewrite Hn, Hc, He, name_truthy, masked.
  apply Nat.leb_le in named. rewrite named. split; reflexivity.
Qed.

End Recognition.

(** The dialog over a stored register that reads as [rs] and holds a record
    [known] for the masked phone number [c] under a valid name: it does not
    fail, and once the phone field holds [c] it submits the stored name. *)
Lemma recognized_submit (ls : localStorage) (saved : string) (rs : list Presenca)
    (known : Presenca) (c : string) (es : list ModalEvent) :
  truthy (getItem RSVP_STORAGE_KEY ls) = Some saved ->
  read_as (as_array Presenca_of_json) saved = Some (Typed rs) ->
  List.find (fun r => String.eqb (phone r) c) rs = Some known ->
  phoneRegex_test c = true ->
  (3 <= String.length (name known))%nat ->
  (exists m, modal_events ls es modal_initial = Done m
             /\ (form_phone (values m) = Some c ->
                 onSubmit m = Valid (mkUser (name known) c false)
                 /\ name_disabled m = true))
  /\ submitIdentity ls (es ++ [PhoneInput c])
     = Done (Valid (mkUser (name known) c false)).
Proof.
  intros Hs Ht Hf Hm Hn.
  assert (H0 : recognized known c modal_initial).
  { intros Hc. inversion Hc as [E]. rewrite <- E in Hm. discriminate Hm. }
  split.
  - destruct (modal_events_recognized ls saved rs known c Hs Ht Hf Hm Hn es modal_initial H0)
      as (m & Hrun & Hrec).
    exists m. split; [exact Hrun|]. intros Hc.
    now apply (onSubmit_recognized known c Hm Hn).
  - destruct (modal_events_recognized ls saved rs known c Hs Ht Hf Hm Hn
                (es ++ [PhoneInput c]) modal_initial H0) as (m & Hrun & Hrec).
    unfold submitIdentity. rewrite Hrun. f_equal.
    apply (onSubmit_recognized known c Hm Hn m Hrec).
    clear Hrec. revert Hrun. generalize modal_initial.
    induction es as [|e es IH]; intros m0; cbn.
    + rewrite (maskPhone_masked c Hm).
      destruct (bool_decide (form_phone (values m0) = Some c)).
      * intros Hd. inversion Hd. reflexivity.
      * destruct (checkExistingUser_done ls saved rs known c Hs Ht Hf Hm
                    {| values := {| form_name := form_name (values m0);
                                    form_phone := Some c |};
                       existingUserFound := existingUserFound m0 |}) as (m' & -> & Hp & _).
        intros Hd. inversion Hd; subst. exact Hp.
    + destruct (modal_event ls e m0); [apply IH|discriminate|discriminate].
Qed.

(* ===================================================================== *)
(** * The reader of JSON always has fuel enough                           *)
(* ===================================================================== *)

Section Reader.

Local Open Scope nat_scope.
Import Json.

Lemma skip_ws_length (s : list ascii) : length (skip_ws s) <= length s.
Proof.
  induction s as [|c s IH]; cbn; [lia|]. destruct (is_ws c); cbn; lia.
Qed.

Lemma next_is_length (ch : ascii) (s r : list ascii) :
  next_is ch s = Some r -> length r < length s.
Proof.
  unfold next_is. pose proof (skip_ws_length s) as H.
  destruct (skip_ws s) as [|x r']; [discriminate|].
  destruct (Ascii.eqb x ch); [|discriminate].
  intros E. inversion E; subst. cbn in H. lia.
Qed.

Lemma literal_length (lit s r : list ascii) :
  literal lit s = Some r -> length r + length lit = length s.
Proof.
  revert s. induction lit as [|l lit IH]; intros s; cbn.
  - intros E. inversion E. lia.
  - destruct s as [|x s]; [discriminate|].
    destruct (Ascii.eqb x l); [|discriminate].
    intros E. apply IH in E. cbn. lia.
Qed.

Lemma span_digits_length (s : list ascii) : length (snd (span_digits s)) <= length s.
Proof.
  induction s as [|c s IH]; cbn; [lia|].
  destruct (Js.is_digit c); [|cbn; lia].
  destruct (span_digits s) as [ds rest]. cbn in *. lia.
Qed.

Lemma parse_chars_length (n : nat) (s : list ascii) us r :
  length s <= n -> parse_chars s = Some (us, r) -> length r < length s.
Proof.
  revert s us r. induction n as [|n IH]; intros s us r Hn.
  - destruct s; [discriminate|cbn in Hn; lia].
  - destruct s as [|c s]; [discriminate|]. cbn in Hn. cbn [parse_chars].
    destruct (Ascii.eqb c dquote).
    { intros E. inversion E; subst. cbn. lia. }
    destruct (Ascii.eqb c "\").
    + destruct s as [|e s1]; [discriminate|]. cbn in Hn.
      destruct (simple_escape e).
      * unfold cons_unit. destruct (parse_chars s1) as [[us' r']|] eqn:E1; [|discriminate].
        intros E. inversion E; subst.
        apply IH in E1; [cbn; lia|lia].
      * destruct (Ascii.eqb e "u"); [|discriminate].
        destruct s1 as [|h1 [|h2 [|h3 [|h4 s2]]]]; try discriminate.
        destruct (hex4 h1 h2 h3 h4); [|discriminate].
        unfold cons_unit. destruct (parse_chars s2) as [[us' r']|] eqn:E2; [|discriminate].
        intros E. inversion E; subst.
        apply IH in E2; [cbn; lia|cbn in Hn; lia].
    + destruct (N.ltb (N_of_ascii c) 32); [discriminate|].
      unfold cons_unit. destruct (parse_chars s) as [[us' r']|] eqn:E1; [|discriminate].
      intros E. inversion E; subst.
      apply IH in E1; [cbn; lia|lia].
Qed.

Lemma parse_string_progress (s : list ascii) : progress (parse_string s) s.
Proof.
  unfold parse_string.
  destruct (parse_chars s) as [[us r]|] eqn:E; cbn; [|exact I].
  now apply (parse_chars_length (length s) s us r).
Qed.

Lemma parse_int_length (s ip r : list ascii) :
  parse_int s = Some (ip, r) -> length r < length s.
Proof.
  unfold parse_int. destruct s as [|c s]; [discriminate|].
  destruct (Ascii.eqb c "0").
  - intros E. inversion E; subst. cbn. lia.
  - destruct (Js.is_digit c); [|discriminate].
    pose proof (span_digits_length s) as H.
    destruct (span_digits s) as [ds rest]. intros E. inversion E; subst. cbn in *. lia.
Qed.

Lemma parse_frac_length (s fp r : list ascii) :
  parse_frac s = Some (fp, r) -> length r <= length s.
Proof.
  unfold parse_frac. destruct s as [|c s]; [intros E; inversion E; subst; cbn; lia|].
  destruct (Ascii.eqb_spec c ".") as [->|Hne].
  - pose proof (span_digits_length s) as H.
    destruct (span_digits s) as [[|d ds] rest]; [discriminate|].
    intros E. inversion E; subst. cbn in *. lia.
  - intros E.
    assert (Some ([] : list ascii, c :: s) = Some (fp, r)) as E'.
    { rewrite <- E. clear E.
      destruct c as [[] [] [] [] [] [] [] []]; try reflexivity. now contradiction Hne. }
    inversion E'; subst. lia.
Qed.

Lemma parse_exp_length (s ep r : list ascii) :
  parse_exp s = Some (ep, r) -> length r <= length s.
Proof.
  unfold parse_exp. destruct s as [|c s]; [intros E; inversion E; subst; cbn; lia|].
  destruct (Ascii.eqb c "e" || Ascii.eqb c "E"); [|intros E; inversion E; subst; lia].
  match goal with
  | |- context [let (_, _) := ?m in _] => set (sr := m)
  end.
  assert (Hsign : length (snd sr) <= length s).
  { subst sr. destruct s as [|x r']; [cbn; lia|].
    destruct (Ascii.eqb x "+" || Ascii.eqb x "-"); cbn; lia. }
  destruct sr as [sign r1]. cbn in Hsign.
  pose proof (span_digits_length r1) as H.
  destruct (span_digits r1) as [[|d ds] rest]; [discriminate|].
  intros E. inversion E; subst. cbn in *. lia.
Qed.

Lemma parse_number_length (s : list ascii) v r :
  parse_number s = Some (v, r) -> length r < length s.
Proof.
  unfold parse_number.
  match goal with
  | |- context [let (_, _) := ?m in _] => set (sr := m)
  end.
  assert (Hneg : length (snd sr) <= length s).
  { subst sr. destruct s as [|c s']; [cbn; lia|].
    destruct c as [[] [] [] [] [] [] [] []]; cbn; lia. }
  destruct sr as [neg s1]. cbn in Hneg.
  destruct (parse_int s1) as [[ip s2]|] eqn:Ei; [|discriminate].
  apply parse_int_length in Ei.
  destruct (parse_frac s2) as [[fp s3]|] eqn:Ef; [|discriminate].
  apply parse_frac_length in Ef.
  destruct (parse_exp s3) as [[ep s4]|] eqn:Ee; [|discriminate].
  apply parse_exp_length in Ee.
  destruct fp, ep; intros E; inversion E; subst; lia.
Qed.

Lemma parse_fuel_enough (fuel : nat) :
  (forall s, 2 * length s + 1 <= fuel -> progress (parse_value fuel s) s)
  /\ (forall s acc, 2 * length s + 2 <= fuel -> progress (parse_elements fuel s acc) s)
  /\ (forall s acc, 2 * length s + 2 <= fuel -> progress (parse_members fuel s acc) s).
Proof.
  induction fuel as [|f (IHv & IHe & IHm)].
  - repeat split; intros; lia.
  - assert (Hv : forall s, 2 * length s + 1 <= S f -> progress (parse_value (S f) s) s).
    { intros s Hf. cbn [parse_value].
      pose proof (skip_ws_length s) as Hws.
      destruct (skip_ws s) as [|c r] eqn:Es; [exact I|]. cbn in Hws.
      destruct (Ascii.eqb c "{").
      { destruct (next_is "}" r) as [r'|] eqn:En.
        - apply next_is_length in En. cbn. lia.
        - specialize (IHm r [] ltac:(lia)).
          destruct (parse_members f r []); cbn in *; [lia|exact I|exact IHm]. }
      destruct (Ascii.eqb c "[").
      { destruct (next_is "]" r) as [r'|] eqn:En.
        - apply next_is_length in En. cbn. lia.
        - specialize (IHe r [] ltac:(lia)).
          destruct (parse_elements f r []); cbn in *; [lia|exact I|exact IHe]. }
      destruct (Ascii.eqb c dquote).
      { pose proof (parse_string_progress r) as Hp.
        destruct (parse_string r); cbn in *; [lia|exact I|exact Hp]. }
      destruct (literal (list_ascii_of_string "true") (c :: r)) as [r'|] eqn:E1.
      { apply literal_length in E1. cbn in *. lia. }
      destruct (literal (list_ascii_of_string "false") (c :: r)) as [r'|] eqn:E2.
      { apply literal_length in E2. cbn in *. lia. }
      destruct (literal (list_ascii_of_string "null") (c :: r)) as [r'|] eqn:E3.
      { apply literal_length in E3. cbn in *. lia. }
      destruct (parse_number (c :: r)) as [[v rest]|] eqn:E4; [|exact I].
      apply parse_number_length in E4. cbn in *. lia. }
    split; [exact Hv|split].
    + intros s acc Hf. cbn [parse_elements].
      specialize (IHv s ltac:(lia)).
      destruct (parse_value f s) as [v r| |]; cbn in IHv; [|exact I|exact IHv].
      destruct (next_is "," r) as [r'|] eqn:En.
      * apply next_is_length in En.
        specialize (IHe r' (acc ++ [v]) ltac:(lia)).
        destruct (parse_elements f r' (acc ++ [v])); cbn in *; [lia|exact I|exact IHe].
      * destruct (next_is "]" r) as [r'|] eqn:En2; [|exact I].
        apply next_is_length in En2. cbn. lia.
    + intros s acc Hf. cbn [parse_members].
      destruct (next_is dquote s) as [r|] eqn:En; [|exact I].
      apply next_is_length in En.
      pose proof (parse_string_progress r) as Hp.
      destruct (parse_string r) as [k r1| |]; cbn in Hp; [|exact I|exact Hp].
      destruct (next_is ":" r1) as [r2|] eqn:En2; [|exact I].
      apply next_is_length in En2.
      specialize (IHv r2 ltac:(lia)).
      destruct (parse_value f r2) as [v r3| |]; cbn in IHv; [|exact I|exact IHv].
      destruct (next_is "," r3) as [r4|] eqn:En3.
      * apply next_is_length in En3.
        specialize (IHm r4 (acc ++ [(k, v)]) ltac:(lia)).
        destruct (parse_members f r4 (acc ++ [(k, v)])); cbn in *; [lia|exact I|exact IHm].
      * destruct (next_is "}" r3) as [r4|] eqn:En4; [|exact I].
        apply next_is_length in En4. cbn. lia.
Qed.

(** [JSON.parse] either returns a value or throws its [SyntaxError]: the
    reader never stops for want of fuel. *)
Lemma parse_text_total (s : list ascii) : parse_text s <> POutOfFuel.
Proof.
  unfold parse_text.
  pose proof (proj1 (parse_fuel_enough (parse_fuel s)) s) as H.
  unfold parse_fuel in *. specialize (H ltac:(lia)).
  destruct (parse_value (2 * length s + 2) s) as [v rest| |]; cbn in H.
  - destruct (skip_ws rest); discriminate.
  - discriminate.
  - contradiction.
Qed.

Lemma parse_None_SyntaxError (text : string) :
  parse text = None <-> parse_text (list_ascii_of_string text) = PSyntaxError.
Proof.
  unfold parse. pose proof (parse_text_total (list_ascii_of_string text)) as H.
  destruct (parse_text (list_ascii_of_string text)); split; congruence.
Qed.

End Reader.

(* ===================================================================== *)
(** * What the application writes, it reads back                          *)
(* ===================================================================== *)

Section RoundTrip.

Import Json.
Local Open Scope list_scope.
Local Open Scope Z_scope.

Lemma parse_quote_unit (a : ascii) (s : list ascii) :
  parse_chars (quote_unit (N_of_ascii a) ++ s) = cons_unit (N_of_ascii a) (parse_chars s).
Proof.
  destruct a as [[] [] [] [] [] [] [] []]; reflexivity.
Qed.

Lemma parse_chars_quote (x : list ascii) (rest : list ascii) :
  parse_chars (flat_map quote_unit (List.map N_of_ascii x) ++ dquote :: rest)
  = Some (List.map N_of_ascii x, rest).
Proof.
  induction x as [|a x IH]; [reflexivity|].
  cbn [List.map flat_map]. rewrite <- app_assoc, parse_quote_unit, IH. reflexivity.
Qed.



Lemma chars_of_uint_digits (d : Decimal.uint) :
  Forall (fun c => Js.is_digit c = true) (chars_of_uint d).
Proof. unfold chars_of_uint. induction d; cbn; constructor; auto. Qed.

Lemma span_digits_app (x y : list ascii) :
  Forall (fun c => Js.is_digit c = true) x ->
  match y with [] => True | c :: _ => Js.is_digit c = false end ->
  span_digits (x ++ y) = (x, y).
Proof.
  intros Hx Hy. induction Hx as [|c x Hc Hx IH]; cbn [app].
  - destruct y as [|c y]; [reflexivity|]. cbn. now rewrite Hy.
  - cbn [span_digits]. now rewrite Hc, IH.
Qed.

Lemma digits_value_acc (d : Decimal.uint) (a : positive) :
  fold_left digit_step (chars_of_uint d) (Z.pos a) = Z.pos (Pos.of_uint_acc d a).
Proof.
  unfold chars_of_uint. revert a.
  induction d; intros a; cbn [NilEmpty.string_of_uint list_ascii_of_string fold_left Pos.of_uint_acc];
    [reflexivity| ..];
    (etransitivity; [|apply IHd]); f_equal; unfold digit_step; cbn; lia.
Qed.

Lemma to_uint_head (p : positive) :
  exists c l, chars_of_uint (Pos.to_uint p) = c :: chars_of_uint l
              /\ Js.is_digit c = true /\ Ascii.eqb c "0" = false
              /\ Ascii.eqb c "-" = false
              /\ fold_left digit_step (c :: chars_of_uint l) 0 = Z.pos p.
Proof.
  pose proof (DecimalPos.Unsigned.of_to p) as Hof.
  pose proof (Unsigned.to_uint_nonnil p) as Hnil.
  pose proof (Unsigned.to_uint_nonzero p) as Hnz.
  assert (Hnorm : Decimal.unorm (Pos.to_uint p) = Pos.to_uint p).
  { rewrite <- (DecimalPos.Unsigned.to_of (Pos.to_uint p)), Hof. reflexivity. }
  destruct (Pos.to_uint p) as [|l|l|l|l|l|l|l|l|l|l] eqn:E; [contradiction| |..].
  - exfalso. rewrite unorm_D0 in Hnorm.
    assert (Hl : l <> Decimal.Nil) by (intros ->; now apply Hnz).
    pose proof (nb_digits_unorm l Hl) as Hnb. rewrite Hnorm in Hnb. cbn in Hnb. lia.
  - exists "1"%char, l. repeat split. cbn [fold_left]. change (digit_step 0 "1") with 1.
    rewrite digits_value_acc. cbn in Hof. now inversion Hof.
  - exists "2"%char, l. repeat split. cbn [fold_left]. change (digit_step 0 "2") with 2.
    rewrite digits_value_acc. cbn in Hof. now inversion Hof.
  - exists "3"%char, l. repeat split. cbn [fold_left]. change (digit_step 0 "3") with 3.
    rewrite digits_value_acc. cbn in Hof. now inversion Hof.
  - exists "4"%char, l. repeat split. cbn [fold_left]. change (digit_step 0 "4") with 4.
    rewrite digits_value_acc. cbn in Hof. now inversion Hof.
  - exists "5"%char, l. repeat split. cbn [fold_left]. change (digit_step 0 "5") with 5.
    rewrite digits_value_acc. cbn in Hof. now inversion Hof.
  - exists "6"%char, l. repeat split. cbn [fold_left]. change (digit_step 0 "6") with 6.
    rewrite digits_value_acc. cbn in Hof. now inversion Hof.
  - exists "7"%char, l. repeat split. cbn [fold_left]. change (digit_step 0 "7") with 7.
    rewrite digits_value_acc. cbn in Hof. now inversion Hof.
  - exists "8"%char, l. repeat split. cbn [fold_left]. change (digit_step 0 "8") with 8.
    rewrite digits_value_acc. cbn in Hof. now inversion Hof.
  - exists "9"%char, l. repeat split. cbn [fold_left]. change (digit_step 0 "9") with 9.
    rewrite digits_value_acc. cbn in Hof. now inversion Hof.
Qed.

Lemma digits_value_step (ds : list ascii) : digits_value ds = fold_left digit_step ds 0.
Proof. reflexivity. Qed.

Lemma comma_not_digit : Js.is_digit "," = false. Proof. reflexivity. Qed.

Lemma string_of_uint_pos (p : positive) :
  list_ascii_of_string (NilZero.string_of_uint (Pos.to_uint p)) = chars_of_uint (Pos.to_uint p).
Proof.
  pose proof (Unsigned.to_uint_nonnil p) as Hnil. unfold chars_of_uint.
  destruct (Pos.to_uint p); [contradiction|reflexivity..].
Qed.

Lemma parse_number_printed (n : Z) (rest : list ascii) :
  parse_number (number_chars n ++ "," :: rest)%char = Some (JNumber n, ("," :: rest)%char).
Proof.
  unfold number_chars. destruct n as [|p|p]; [reflexivity| |];
    cbn [Z.to_int NilZero.string_of_int list_ascii_of_string];
    rewrite string_of_uint_pos;
    destruct (to_uint_head p) as (c & l & -> & Hd & H0 & Hm & Hv);
    unfold parse_number.
  - assert (Hneg : match (c :: chars_of_uint l) ++ ("," :: rest)%char with
                   | ("-"%char :: r)%list => (true, r)
                   | _ => (false, (c :: chars_of_uint l) ++ ("," :: rest)%char)
                   end = (false, (c :: chars_of_uint l) ++ ("," :: rest)%char)).
    { cbn [app]. destruct c as [[] [] [] [] [] [] [] []]; try reflexivity. discriminate. }
    rewrite Hneg. cbn [app parse_int]. rewrite H0, Hd.
    rewrite (span_digits_app (chars_of_uint l) ("," :: rest)%char
               (chars_of_uint_digits l) comma_not_digit).
    cbn. rewrite <- Hv. reflexivity.
  - cbn [app parse_int]. rewrite H0, Hd.
    rewrite (span_digits_app (chars_of_uint l) ("," :: rest)%char
               (chars_of_uint_digits l) comma_not_digit).
    cbn. change (Z.neg p) with (- Z.pos p). rewrite <- Hv. reflexivity.
Qed.

(** The first character of a printed number is a digit or the minus sign. *)
Lemma number_chars_head (n : Z) :
  exists c tl, number_chars n = c :: tl /\ (Js.is_digit c = true \/ c = "-"%char).
Proof.
  unfold number_chars. destruct n as [|p|p].
  - exists "0"%char, []. split; [reflexivity|now left].
  - cbn [Z.to_int NilZero.string_of_int]. rewrite string_of_uint_pos.
    destruct (to_uint_head p) as (c & l & -> & Hd & _).
    exists c, (chars_of_uint l). split; [reflexivity|now left].
  - cbn [Z.to_int NilZero.string_of_int list_ascii_of_string].
    eexists _, _. split; [reflexivity|now right].
Qed.

Lemma parse_value_number (f : nat) (c : ascii) (r : list ascii) :
  Js.is_digit c = true \/ c = "-"%char ->
  parse_value (S f) (c :: r)
  = match parse_number (c :: r) with
    | Some (v, rest) => POk v rest
    | None => PSyntaxError
    end.
Proof.
  intros H.
  assert (Hc : In c (list_ascii_of_string "0123456789-")).
  { destruct H as [H| ->]; [|cbn; tauto].
    destruct c as [[] [] [] [] [] [] [] []]; try discriminate H; cbn; tauto. }
  cbn in Hc.
  repeat (destruct Hc as [<-|Hc]; [reflexivity|]). contradiction.
Qed.

Lemma parse_value_printed_number (f : nat) (n : Z) (rest : list ascii) :
  parse_value (S f) (number_chars n ++ "," :: rest)%char = POk (JNumber n) ("," :: rest)%char.
Proof.
  pose proof (parse_number_printed n rest) as Hp.
  destruct (number_chars_head n) as (c & tl & E & Hc).
  rewrite E in *. cbn [app] in *. rewrite (parse_value_number f c _ Hc), Hp. reflexivity.
Qed.

Lemma parse_value_printed_string (f : nat) (x : string) (rest : list ascii) :
  parse_value (S f) (quote (units_of_string x) ++ rest) = POk (JStr x) rest.
Proof.
  unfold quote, units_of_string, JStr. cbn [app parse_value skip_ws].
  change (is_ws dquote) with false. cbv iota.
  change (Ascii.eqb dquote "{") with false. change (Ascii.eqb dquote "[") with false.
  change (Ascii.eqb dquote dquote) with true. cbv iota.
  unfold parse_string. rewrite <- app_assoc. cbn [app].
  rewrite parse_chars_quote. reflexivity.
Qed.

Lemma parse_value_printed_bool (f : nat) (b : bool) (rest : list ascii) :
  parse_value (S f) (stringify_chars (JBool b) ++ rest) = POk (JBool b) rest.
Proof. destruct b; reflexivity. Qed.

Lemma quote_app (us : code_units) (r : list ascii) :
  quote us ++ r = dquote :: flat_map quote_unit us ++ dquote :: r.
Proof. unfold quote. cbn [app]. now rewrite <- app_assoc. Qed.

Lemma next_is_here (ch : ascii) (r : list ascii) :
  is_ws ch = false -> next_is ch (ch :: r) = Some r.
Proof. intros H. unfold next_is. cbn [skip_ws]. now rewrite H, Ascii.eqb_refl. Qed.

Lemma next_is_other (ch x : ascii) (r : list ascii) :
  is_ws x = false -> Ascii.eqb x ch = false -> next_is ch (x :: r) = None.
Proof. intros H E. unfold next_is. cbn [skip_ws]. now rewrite H, E. Qed.

Lemma parse_string_quote (x : string) (rest : list ascii) :
  parse_string (flat_map quote_unit (units_of_string x) ++ dquote :: rest)
  = POk (units_of_string x) rest.
Proof. unfold parse_string, units_of_string. now rewrite parse_chars_quote. Qed.

Lemma parse_members_step (f : nat) (k : string) (V : list ascii) (v : json)
    (more : list ascii) (acc : list (code_units * json)) :
  parse_value (S f) (V ++ "," :: more)%char = POk v ("," :: more)%char ->
  parse_members (S (S f)) (quote (units_of_string k) ++ (":" :: V ++ "," :: more)%char) acc
  = parse_members (S f) more (acc ++ [(units_of_string k, v)]).
Proof.
  intros Hv. rewrite quote_app. cbn [parse_members].
  rewrite (next_is_here dquote) by reflexivity.
  rewrite parse_string_quote.
  rewrite (next_is_here ":"%char) by reflexivity.
  rewrite Hv.
  rewrite (next_is_here ","%char) by reflexivity.
  reflexivity.
Qed.

Lemma parse_members_last (f : nat) (k : string) (V : list ascii) (v : json)
    (rest : list ascii) (acc : list (code_units * json)) :
  parse_value f (V ++ "}" :: rest)%char = POk v ("}" :: rest)%char ->
  parse_members (S f) (quote (units_of_string k) ++ (":" :: V ++ "}" :: rest)%char) acc
  = POk (JObject (acc ++ [(units_of_string k, v)])) rest.
Proof.
  intros Hv. rewrite quote_app. cbn [parse_members].
  rewrite (next_is_here dquote) by reflexivity.
  rewrite parse_string_quote.
  rewrite (next_is_here ":"%char) by reflexivity.
  rewrite Hv.
  rewrite (next_is_other ","%char "}"%char) by reflexivity.
  rewrite (next_is_here "}"%char) by reflexivity.
  reflexivity.
Qed.

Lemma parse_value_printed_string_comma (f : nat) (x : string) (rest : list ascii) :
  parse_value (S f) (quote (units_of_string x) ++ "," :: rest)%char
  = POk (JStr x) ("," :: rest)%char.
Proof. apply parse_value_printed_string. Qed.

Lemma parse_value_object (f : nat) (r : list ascii) :
  next_is "}"%char r = None ->
  parse_value (S f) ("{"%char :: r) = parse_members f r [].
Proof. intros H. cbn [parse_value skip_ws]. change (is_ws "{") with false. cbv iota.
  change (Ascii.eqb "{" "{") with true. cbv iota. now rewrite H. Qed.

Lemma next_is_quote (ch : ascii) (us : code_units) (r : list ascii) :
  Ascii.eqb dquote ch = false -> next_is ch (quote us ++ r) = None.
Proof. intros H. rewrite quote_app. now apply next_is_other. Qed.

Lemma parse_value_Presenca (f : nat) (c : Presenca) (rest : list ascii) :
  parse_value (9 + f) (stringify_chars (json_of_Presenca c) ++ rest) = POk (json_of_Presenca c) rest.
Proof.
  unfold json_of_Presenca, member.
  cbn [stringify_chars List.map join fst snd].
  repeat rewrite <- ?app_assoc, <- ?app_comm_cons. cbn [app Nat.add].
  change (stringify_chars (JStr (name c))) with (quote (units_of_string (name c))).
  change (stringify_chars (JStr (phone c))) with (quote (units_of_string (phone c))).
  change (stringify_chars (JStr (date c))) with (quote (units_of_string (date c))).
  rewrite parse_value_object by (apply next_is_quote; reflexivity).
  rewrite (parse_members_step _ "name" _ (JStr (name c))) by apply parse_value_printed_string.
  rewrite (parse_members_step _ "phone" _ (JStr (phone c))) by apply parse_value_printed_string.
  rewrite (parse_members_step _ "attending" _ (JBool (attending c)))
    by (destruct (attending c); reflexivity).
  rewrite (parse_members_step _ "adultsCount" _ (JNumber (adultsCount c)))
    by apply parse_value_printed_number.
  rewrite (parse_members_step _ "childrenCount" _ (JNumber (childrenCount c)))
    by apply parse_value_printed_number.
  rewrite (parse_members_step _ "guestsCount" _ (JNumber (guestsCount c)))
    by apply parse_value_printed_number.
  rewrite (parse_members_last _ "date" _ (JStr (date c))) by apply parse_value_printed_string.
  reflexivity.
Qed.

Lemma string_of_units_of_string (s : string) : string_of_units (units_of_string s) = Some s.
Proof.
  unfold string_of_units, units_of_string.
  assert (H : forallb (fun n => (n <? 256)%N) (List.map N_of_ascii (list_ascii_of_string s)) = true).
  { apply forallb_forall. intros n Hn. apply List.in_map_iff in Hn. destruct Hn as (a & <- & _).
    apply N.ltb_lt. apply N_ascii_bounded. }
  rewrite H. f_equal. rewrite List.map_map.
  rewrite (List.map_ext _ (fun a => a)) by apply ascii_N_embedding.
  rewrite List.map_id. apply string_of_list_ascii_of_string.
Qed.

Lemma as_string_JStr (s : string) : as_string (JStr s) = Some s.
Proof. apply string_of_units_of_string. Qed.

Lemma Presenca_of_json_of_Presenca (c : Presenca) :
  Presenca_of_json (json_of_Presenca c) = Some c.
Proof.
  destruct c as [n p a ad ch g d].
  unfold Presenca_of_json, json_of_Presenca, req, member.
  cbn [name phone attending adultsCount childrenCount guestsCount date].
  pose proof (as_string_JStr n) as Hn. pose proof (as_string_JStr p) as Hp.
  pose proof (as_string_JStr d) as Hd.
  revert Hn Hp Hd.
  generalize (JStr n) as jn, (JStr p) as jp, (JStr d) as jd. intros jn jp jd Hn Hp Hd.
  repeat match goal with
         | |- context [field ?k ?ms] =>
             let v := eval vm_compute in (field k ms) in
             change (field k ms) with v
         end.
  cbv beta iota. rewrite Hn. cbn. rewrite Hp. cbn. rewrite Hd. reflexivity.
Qed.

Lemma parse_elements_S (f : nat) (s : list ascii) (acc : list json) :
  parse_elements (S f) s acc
  = match parse_value f s with
    | POk v r =>
        match next_is ","%char r with
        | Some r' => parse_elements f r' (acc ++ [v])
        | None =>
            match next_is "]"%char r with
            | Some r' => POk (JArray (acc ++ [v])) r'
            | None => PSyntaxError
            end
        end
    | PSyntaxError => PSyntaxError
    | POutOfFuel => POutOfFuel
    end.
Proof. reflexivity. Qed.

Lemma join_cons (x y : list ascii) (l : list (list ascii)) :
  join (x :: y :: l) = x ++ ("," :: join (y :: l))%char.
Proof. reflexivity. Qed.

Lemma length_join (pieces : list (list ascii)) :
  (length pieces <= S (length (join pieces)))%nat.
Proof.
  induction pieces as [|p [|q l] IH]; cbn [join length] in *; [lia|lia|].
  rewrite length_app. cbn [length]. lia.
Qed.

Lemma length_join_head (p : list ascii) (l : list (list ascii)) :
  (length p <= length (join (p :: l)))%nat.
Proof. destruct l; cbn [join]; [lia|]. rewrite length_app. lia. Qed.

Lemma length_Presenca (c : Presenca) : (7 <= length (stringify_chars (json_of_Presenca c)))%nat.
Proof.
  unfold json_of_Presenca, member. cbn [stringify_chars List.map join fst snd length].
  rewrite !length_app.
  change (length (quote (units_of_string "name"))) with 6%nat. lia.
Qed.

Lemma parse_value_printed_flag (f : nat) (b : bool) (rest : list ascii) :
  parse_value (S f)
    ((if b then list_ascii_of_string "true" else list_ascii_of_string "false") ++ rest)
  = POk (JBool b) rest.
Proof. destruct b; reflexivity. Qed.

Local Ltac member_value :=
  first [ apply parse_value_printed_string
        | apply parse_value_printed_number
        | apply parse_value_printed_flag ].

Local Ltac parse_members_all :=
  repeat first [ erewrite parse_members_step by member_value
               | erewrite parse_members_last by member_value ].

Local Ltac object_chars :=
  cbn [stringify_chars List.map join fst snd app opt_member];
  repeat rewrite <- ?app_assoc, <- ?app_comm_cons; cbn [app Nat.add];
  repeat match goal with
         | |- context [stringify_chars (JStr ?x)] =>
             change (stringify_chars (JStr x)) with (quote (units_of_string x))
         | |- context [stringify_chars (JNumber ?x)] =>
             change (stringify_chars (JNumber x)) with (number_chars x)
         end.

Lemma parse_value_User (f : nat) (u : User) (rest : list ascii) :
  parse_value (5 + f) (stringify_chars (json_of_User u) ++ rest) = POk (json_of_User u) rest.
Proof.
  unfold json_of_User, member. object_chars.
  rewrite parse_value_object by (apply next_is_quote; reflexivity).
  parse_members_all. reflexivity.
Qed.

Lemma parse_value_Gift (f : nat) (g : Gift) (rest : list ascii) :
  parse_value (10 + f) (stringify_chars (json_of_Gift g) ++ rest) = POk (json_of_Gift g) rest.
Proof.
  unfold json_of_Gift, member.
  destruct (link g), (priceEstimate g), (reservedBy g); object_chars;
    rewrite parse_value_object by (apply next_is_quote; reflexivity);
    parse_members_all; reflexivity.
Qed.

Lemma parse_value_EventConfig (f : nat) (c : EventConfig) (rest : list ascii) :
  parse_value (8 + f) (stringify_chars (json_of_EventConfig c) ++ rest)
  = POk (json_of_EventConfig c) rest.
Proof.
  unfold json_of_EventConfig, member.
  destruct (locationLink c); object_chars;
    rewrite parse_value_object by (apply next_is_quote; reflexivity);
    parse_members_all; reflexivity.
Qed.


Local Ltac abstract_strings :=
  repeat match goal with
         | |- context [JStr ?x] =>
             let j := fresh "j" in
             let H := fresh "Hj" in
             pose proof (as_string_JStr x) as H; revert H; generalize (JStr x); intros j H
         end.

Local Ltac read_fields :=
  repeat match goal with
         | |- context [field ?k ?ms] =>
             let v := eval vm_compute in (field k ms) in
             change (field k ms) with v
         end;
  cbv beta iota;
  repeat match goal with
         | H : as_string ?j = Some _ |- context [as_string ?j] => rewrite H; cbn
         end.

Lemma User_of_json_of_User (u : User) : User_of_json (json_of_User u) = Some u.
Proof.
  destruct u as [n p a]. unfold User_of_json, json_of_User, req, opt, member.
  cbn [user_name user_phone user_isAdmin]. abstract_strings. read_fields. reflexivity.
Qed.

Lemma Gift_of_json_of_Gift (g : Gift) : Gift_of_json (json_of_Gift g) = Some g.
Proof.
  destruct g as [i n d u l p b r]. unfold Gift_of_json, json_of_Gift, req, opt, opt_member, member.
  cbn [id gift_name description imageUrl link priceEstimate reservedBy isReserved].
  destruct l, p, b; cbn [app]; abstract_strings; read_fields; reflexivity.
Qed.

Lemma EventConfig_of_json_of_EventConfig (c : EventConfig) :
  EventConfig_of_json (json_of_EventConfig c) = Some c.
Proof.
  destruct c as [d t l ll r g].
  unfold EventConfig_of_json, json_of_EventConfig, req, opt, opt_member, member.
  cbn [eventDate eventTime location locationLink rsvpDeadline googleCalendarLink].
  destruct ll; cbn [app]; abstract_strings; read_fields; reflexivity.
Qed.

Section PrintedLists.

Context {A : Type} (to_json : A -> json) (K : nat).

Hypothesis printed : forall f a rest,
    parse_value (K + f) (stringify_chars (to_json a) ++ rest) = POk (to_json a) rest.
Hypothesis opens : forall a rest,
    next_is "]"%char (stringify_chars (to_json a) ++ rest) = None.
Hypothesis long : forall a, (K <= 3 + length (stringify_chars (to_json a)))%nat.

Lemma parse_elements_printed (rs : list A) (a : A) (acc : list json) (f : nat)
    (rest : list ascii) :
  parse_elements (S (K + (length rs + f)))
    (join (List.map stringify_chars (List.map to_json (a :: rs))) ++ ("]" :: rest)%char) acc
  = POk (JArray (acc ++ List.map to_json (a :: rs))) rest.
Proof.
  revert a acc. induction rs as [|a' rs IH]; intros a acc; rewrite parse_elements_S.
  - cbn [List.map join]. rewrite printed.
    rewrite (next_is_other ","%char "]"%char) by reflexivity.
    rewrite (next_is_here "]"%char) by reflexivity. reflexivity.
  - change (List.map stringify_chars (List.map to_json (a :: a' :: rs)))
      with (stringify_chars (to_json a)
              :: stringify_chars (to_json a')
              :: List.map stringify_chars (List.map to_json rs)).
    rewrite join_cons, <- app_assoc. cbn [app]. rewrite printed.
    rewrite (next_is_here ","%char) by reflexivity.
    cbn [length]. replace (K + (S (length rs) + f))%nat with (S (K + (length rs + f))) by lia.
    change (stringify_chars (to_json a')
              :: List.map stringify_chars (List.map to_json rs))
      with (List.map stringify_chars (List.map to_json (a' :: rs))).
    rewrite (IH a' (acc ++ [to_json a])). now rewrite <- app_assoc.
Qed.

Lemma parse_text_printed_list (l : list A) :
  parse_text (stringify_chars (json_of_list to_json l)) = POk (json_of_list to_json l) [].
Proof.
  unfold parse_text, json_of_list. destruct l as [|a rs]; [reflexivity|].
  cbn [stringify_chars].
  set (body := join (List.map stringify_chars (List.map to_json (a :: rs)))).
  assert (Hlen : (S (length rs) <= S (length body))%nat).
  { subst body. rewrite <- (length_map to_json (a :: rs)) at 1.
    rewrite <- (length_map stringify_chars). apply length_join. }
  assert (HK : (K <= 3 + length body)%nat).
  { subst body. cbn [List.map]. etransitivity; [apply (long a)|].
    apply Nat.add_le_mono_l, length_join_head. }
  unfold parse_fuel. cbn [length]. rewrite length_app. cbn [length].
  replace (2 * S (length body + 1) + 2)%nat
    with (S (S (K + (length rs + (2 * length body + 4 - K - length rs)))))%nat by lia.
  cbn [parse_value skip_ws]. change (is_ws "[") with false. cbv iota.
  change (Ascii.eqb "[" "{") with false. change (Ascii.eqb "[" "[") with true. cbv iota.
  assert (Hnext : next_is "]"%char (body ++ ["]"%char]) = None).
  { subst body. cbn [List.map].
    destruct (List.map stringify_chars (List.map to_json rs)); cbn [join];
      [apply opens|rewrite <- app_assoc; apply opens]. }
  rewrite Hnext. subst body.
  rewrite (parse_elements_printed rs a [] _ []). reflexivity.
Qed.

End PrintedLists.

Lemma length_quote (us : code_units) : (2 <= length (quote us))%nat.
Proof. unfold quote. cbn [length]. rewrite length_app. cbn [length]. lia. Qed.

Lemma length_Gift (g : Gift) : (10 <= length (stringify_chars (json_of_Gift g)))%nat.
Proof.
  unfold json_of_Gift, member. cbn [stringify_chars List.map join fst snd length app].
  rewrite !length_app.
  change (length (quote (units_of_string "id"))) with 4%nat. cbn [length].
  change (stringify_chars (JStr (id g))) with (quote (units_of_string (id g))).
  pose proof (length_quote (units_of_string (id g))). lia.
Qed.

Lemma opens_Gift (g : Gift) (rest : list ascii) :
  next_is "]"%char (stringify_chars (json_of_Gift g) ++ rest) = None.
Proof. reflexivity. Qed.

Lemma opens_Presenca (c : Presenca) (rest : list ascii) :
  next_is "]"%char (stringify_chars (json_of_Presenca c) ++ rest) = None.
Proof. reflexivity. Qed.


Lemma long_Presenca (c : Presenca) :
  (9 <= 3 + length (stringify_chars (json_of_Presenca c)))%nat.
Proof. pose proof (length_Presenca c). lia. Qed.

Lemma long_Gift (g : Gift) : (10 <= 3 + length (stringify_chars (json_of_Gift g)))%nat.
Proof. pose proof (length_Gift g). lia. Qed.

Lemma as_array_Presencas (rs : list Presenca) :
  as_array Presenca_of_json (json_of_list json_of_Presenca rs) = Some rs.
Proof.
  unfold as_array, json_of_list. apply mapM_Some_2.
  induction rs as [|c rs IH]; cbn [List.map]; constructor;
    [apply Presenca_of_json_of_Presenca|exact IH].
Qed.

Lemma register_read_back (rs : list Presenca) :
  read_as (as_array Presenca_of_json) (Json.stringify (json_of_list json_of_Presenca rs))
  = Some (Typed rs).
Proof.
  unfold read_as, Json.parse, Json.stringify.
  rewrite list_ascii_of_string_of_list_ascii.
  rewrite (parse_text_printed_list json_of_Presenca 9
             parse_value_Presenca opens_Presenca long_Presenca).
  now rewrite as_array_Presencas.
Qed.

Lemma as_array_Gifts (gs : list Gift) :
  as_array Gift_of_json (json_of_list json_of_Gift gs) = Some gs.
Proof.
  unfold as_array, json_of_list. apply mapM_Some_2.
  induction gs as [|g gs IH]; cbn [List.map]; constructor;
    [apply Gift_of_json_of_Gift|exact IH].
Qed.

Lemma catalog_read_back (gs : list Gift) :
  read_as (as_array Gift_of_json) (Json.stringify (json_of_list json_of_Gift gs))
  = Some (Typed gs).
Proof.
  unfold read_as, Json.parse, Json.stringify.
  rewrite list_ascii_of_string_of_list_ascii.
  rewrite (parse_text_printed_list json_of_Gift 10 parse_value_Gift opens_Gift long_Gift).
  now rewrite as_array_Gifts.
Qed.

Lemma parse_text_object (K : nat) (j : json) :
  (forall f rest, parse_value (K + f) (stringify_chars j ++ rest) = POk j rest) ->
  (K <= 2 * length (stringify_chars j) + 2)%nat ->
  parse_text (stringify_chars j) = POk j [].
Proof.
  intros Hp Hlen. unfold parse_text, parse_fuel.
  replace (2 * length (stringify_chars j) + 2)%nat
    with (K + (2 * length (stringify_chars j) + 2 - K))%nat by lia.
  rewrite <- (app_nil_r (stringify_chars j)) at 2. rewrite Hp. reflexivity.
Qed.

Lemma identity_read_back (u : User) :
  read_as User_of_json (Json.stringify (json_of_User u)) = Some (Typed u).
Proof.
  unfold read_as, Json.parse, Json.stringify.
  rewrite list_ascii_of_string_of_list_ascii.
  rewrite (parse_text_object 5 (json_of_User u) (fun f => parse_value_User f u)).
  - now rewrite User_of_json_of_User.
  - unfold json_of_User. cbn [stringify_chars length]. rewrite length_app. cbn [length]. lia.
Qed.

Lemma config_read_back (c : EventConfig) :
  read_as EventConfig_of_json (Json.stringify (json_of_EventConfig c)) = Some (Typed c).
Proof.
  unfold read_as, Json.parse, Json.stringify.
  rewrite list_ascii_of_string_of_list_ascii.
  rewrite (parse_text_object 8 (json_of_EventConfig c) (fun f => parse_value_EventConfig f c)).
  - now rewrite EventConfig_of_json_of_EventConfig.
  - unfold json_of_EventConfig, member. cbn [stringify_chars List.map join fst snd length app].
    rewrite !length_app.
    change (length (quote (units_of_string "eventDate"))) with 11%nat. lia.
Qed.

End RoundTrip.

(* ===================================================================== *)
(** * Properties of the hydration                                         *)
(* ===================================================================== *)

Section Hydration.

Implicit Types (ls : localStorage) (h : Hydration).

Lemma read_as_None {A : Type} (as_A : json -> option A) (s : string) :
  read_as as_A s = None <-> Json.parse s = None.
Proof. unfold read_as. destruct (Json.parse s); split; congruence. Qed.

(** What each state variable is after a hydration that did not throw. *)
Lemma hydrate_Some ls h :
  hydrate ls = Some h ->
  match truthy (getItem USER_STORAGE_KEY ls) with
  | Some s => exists u, read_as User_of_json s = Some u /\ h_user h = Some u
  | None => h_user h = None
  end
  /\ h_isAdmin h = bool_decide (getItem ADMIN_STORAGE_KEY ls = Some "true")
  /\ match truthy (getItem GIFTS_STORAGE_KEY ls) with
     | Some s => read_as (as_array Gift_of_json) s = Some (h_gifts h)
     | None => h_gifts h = Typed INITIAL_GIFTS
     end
  /\ match truthy (getItem RSVP_STORAGE_KEY ls) with
     | Some s => read_as (as_array Presenca_of_json) s = Some (h_confirmacoes h)
     | None => h_confirmacoes h = Typed []
     end
  /\ match truthy (getItem CONFIG_STORAGE_KEY ls) with
     | Some s => read_as EventConfig_of_json s = Some (h_config h)
     | None => h_config h = Typed DEFAULT_CONFIG
     end.
Proof.
  unfold hydrate. cbn [initial_hydration h_user h_isAdmin h_config].
  destruct (truthy (getItem USER_STORAGE_KEY ls)) as [su|];
    [destruct (read_as User_of_json su) as [u|]; [|discriminate]|];
    (destruct (truthy (getItem GIFTS_STORAGE_KEY ls)) as [sg|];
     [destruct (read_as (as_array Gift_of_json) sg) as [g|]; [|discriminate]|]);
    (destruct (truthy (getItem RSVP_STORAGE_KEY ls)) as [sp|];
     [destruct (read_as (as_array Presenca_of_json) sp) as [p|]; [|discriminate]|]);
    (destruct (truthy (getItem CONFIG_STORAGE_KEY ls)) as [sc|];
     [destruct (read_as EventConfig_of_json sc) as [c|]; [|discriminate]|]);
    cbn; intros H; inversion H; subst; cbn;
    repeat split; try reflexivity; try (eexists; split; reflexivity);
    unfold getItem; destruct (bool_decide _); reflexivity.
Qed.

(** The hydration throws exactly when a parsed key holds a malformed
    document. *)
Lemma hydrate_None ls :
  hydrate ls = None <-> exists k, In k parsed_keys /\ malformed ls k.
Proof.
  unfold hydrate, malformed, parsed_keys.
  cbn [initial_hydration h_user h_isAdmin h_config].
  destruct (truthy (getItem USER_STORAGE_KEY ls)) as [su|] eqn:Hu;
    [destruct (read_as User_of_json su) as [u|] eqn:Ru|];
    (destruct (truthy (getItem GIFTS_STORAGE_KEY ls)) as [sg|] eqn:Hg;
     [destruct (read_as (as_array Gift_of_json) sg) as [g|] eqn:Rg|]);
    (destruct (truthy (getItem RSVP_STORAGE_KEY ls)) as [sp|] eqn:Hp;
     [destruct (read_as (as_array Presenca_of_json) sp) as [p|] eqn:Rp|]);
    (destruct (truthy (getItem CONFIG_STORAGE_KEY ls)) as [sc|] eqn:Hc;
     [destruct (read_as EventConfig_of_json sc) as [c|] eqn:Rc|]);
    cbn;
    repeat match goal with
           | H : read_as _ _ = None |- _ => apply read_as_None in H
           end;
    (split;
     [ intros H; try discriminate;
       first
         [ exists USER_STORAGE_KEY; split; [cbn; tauto|]; eexists; split; [eassumption|assumption]
         | exists GIFTS_STORAGE_KEY; split; [cbn; tauto|]; eexists; split; [eassumption|assumption]
         | exists RSVP_STORAGE_KEY; split; [cbn; tauto|]; eexists; split; [eassumption|assumption]
         | exists CONFIG_STORAGE_KEY; split; [cbn; tauto|]; eexists; split; [eassumption|assumption] ]
     | intros (k & Hk & s & Hs & Hparse); try reflexivity;
       cbn in Hk; destruct Hk as [<-|[<-|[<-|[<-|[]]]]];
       rewrite ?Hu, ?Hg, ?Hp, ?Hc in Hs; try discriminate;
       inversion Hs; subst s;
       repeat match goal with
              | H : read_as _ _ = Some _ |- _ =>
                  unfold read_as in H; rewrite Hparse in H; discriminate
              end ]).
Qed.

End Hydration.

(** C8 (counterexample). With a malformed identity document in the storage
    and no catalog, the hydration throws at the identity, before it comes
    to the catalog: the absent catalog does not yield the seed catalog, and
    the catalog keeps the empty list of its [useState]. *)
Lemma hydrate_absent_catalog_no_seed :
  getItem GIFTS_STORAGE_KEY (<[USER_STORAGE_KEY := "{"]> ∅) = None
  /\ Json.parse "{" = None
  /\ hydrate (<[USER_STORAGE_KEY := "{"]> ∅) = None
  /\ ~ (exists h, hydrate (<[USER_STORAGE_KEY := "{"]> ∅) = Some h
                  /\ h_gifts h = Typed INITIAL_GIFTS)
  /\ h_gifts initial_hydration = Typed [].
Proof.
  assert (H : hydrate (<[USER_STORAGE_KEY := "{"]> ∅) = None) by (vm_compute; reflexivity).
  split; [vm_compute; reflexivity|]. split; [reflexivity|]. split; [exact H|].
  split; [|reflexivity]. intros (h & Hh & _). rewrite H in Hh. discriminate.
Qed.

(** C8 (amended). When no parsed key holds a malformed document the
    hydration runs to its end, and every state variable is read from its
    own key or falls back to its default.  Without a stored catalog the
    gifts are the four items of the seed catalog, without stored records
    the register is empty, without a stored configuration the configuration
    is the default one, without a stored identity there is no guest, and
    the admin capability is granted exactly when the marker is the string
    [true].  A key that holds a non-empty string is read from that string;
    in particular a key that holds the document the application writes for
    a catalog, a register, a configuration or an identity gives that
    catalog, register, configuration or identity back. *)
Theorem hydrate_fallbacks (ls : localStorage) :
  (forall k, In k parsed_keys -> ~ malformed ls k) ->
  exists h,
    hydrate ls = Some h
    /\ (getItem GIFTS_STORAGE_KEY ls = None ->
        h_gifts h = Typed INITIAL_GIFTS /\ length INITIAL_GIFTS = 4%nat)
    /\ (getItem RSVP_STORAGE_KEY ls = None -> h_confirmacoes h = Typed [])
    /\ (getItem CONFIG_STORAGE_KEY ls = None -> h_config h = Typed DEFAULT_CONFIG)
    /\ (getItem USER_STORAGE_KEY ls = None -> h_user h = None)
    /\ (getItem ADMIN_STORAGE_KEY ls <> Some "true" -> h_isAdmin h = false)
    /\ (getItem ADMIN_STORAGE_KEY ls = Some "true" -> h_isAdmin h = true)
    /\ (forall s, getItem GIFTS_STORAGE_KEY ls = Some s -> s <> EmptyString ->
          read_as (as_array Gift_of_json) s = Some (h_gifts h))
    /\ (forall s, getItem RSVP_STORAGE_KEY ls = Some s -> s <> EmptyString ->
          read_as (as_array Presenca_of_json) s = Some (h_confirmacoes h))
    /\ (forall s, getItem CONFIG_STORAGE_KEY ls = Some s -> s <> EmptyString ->
          read_as EventConfig_of_json s = Some (h_config h))
    /\ (forall s, getItem USER_STORAGE_KEY ls = Some s -> s <> EmptyString ->
          read_as User_of_json s = h_user h)
    /\ (forall gs, getItem GIFTS_STORAGE_KEY ls
                   = Some (Json.stringify (json_of_list json_of_Gift gs)) ->
          h_gifts h = Typed gs)
    /\ (forall rs, getItem RSVP_STORAGE_KEY ls
                   = Some (Json.stringify (json_of_list json_of_Presenca rs)) ->
          h_confirmacoes h = Typed rs)
    /\ (forall c, getItem CONFIG_STORAGE_KEY ls
                  = Some (Json.stringify (json_of_EventConfig c)) ->
          h_config h = Typed c)
    /\ (forall u, getItem USER_STORAGE_KEY ls = Some (Json.stringify (json_of_User u)) ->
          h_user h = Some (Typed u)).
Proof.
  intros Hok.
  assert (Ht : forall s, s <> EmptyString -> truthy (Some s) = Some s).
  { intros [|a s] Hs; [contradiction|reflexivity]. }
  destruct (hydrate ls) as [h|] eqn:Hh.
  - exists h. split; [reflexivity|].
    destruct (hydrate_Some ls h Hh) as (Hu & Ha & Hg & Hp & Hc).
    split; [intros E; rewrite E in Hg; now split|].
    split; [intros E; now rewrite E in Hp|].
    split; [intros E; now rewrite E in Hc|].
    split; [intros E; now rewrite E in Hu|].
    split; [intros E; rewrite Ha; now apply bool_decide_eq_false_2|].
    split; [intros E; rewrite Ha; now apply bool_decide_eq_true_2|].
    split; [intros s E Hs; now rewrite E, (Ht s Hs) in Hg|].
    split; [intros s E Hs; now rewrite E, (Ht s Hs) in Hp|].
    split; [intros s E Hs; now rewrite E, (Ht s Hs) in Hc|].
    split.
    { intros s E Hs. rewrite E, (Ht s Hs) in Hu. destruct Hu as (u & -> & ->). reflexivity. }
    split.
    { intros gs E. rewrite E in Hg.
      change (truthy (Some (Json.stringify (json_of_list json_of_Gift gs))))
        with (Some (Json.stringify (json_of_list json_of_Gift gs))) in Hg.
      cbv beta iota in Hg.
      rewrite catalog_read_back in Hg. now inversion Hg. }
    split.
    { intros rs E. rewrite E in Hp.
      change (truthy (Some (Json.stringify (json_of_list json_of_Presenca rs))))
        with (Some (Json.stringify (json_of_list json_of_Presenca rs))) in Hp.
      cbv beta iota in Hp.
      rewrite register_read_back in Hp. now inversion Hp. }
    split.
    { intros c E. rewrite E in Hc.
      change (truthy (Some (Json.stringify (json_of_EventConfig c))))
        with (Some (Json.stringify (json_of_EventConfig c))) in Hc.
      cbv beta iota in Hc.
      rewrite config_read_back in Hc. now inversion Hc. }
    intros u E. rewrite E in Hu.
    change (truthy (Some (Json.stringify (json_of_User u))))
      with (Some (Json.stringify (json_of_User u))) in Hu.
    cbv beta iota in Hu.
    destruct Hu as (su & Hr & ->). rewrite identity_read_back in Hr. now inversion Hr.
  - apply hydrate_None in Hh. destruct Hh as (k & Hk & Hm). destruct (Hok k Hk Hm).
Qed.

Lemma hydrate_fallbacks_witness :
  exists h,
    hydrate (storage bruno_arrives) = Some h
    /\ h_gifts h = Typed (gifts (state bruno_arrives))
    /\ h_user h = Some (Typed bruno)
    /\ h_confirmacoes h = Typed []
    /\ h_config h = Typed DEFAULT_CONFIG
    /\ h_isAdmin h = false.
Proof.
  assert (Hok : forall k, In k parsed_keys -> ~ malformed (storage bruno_arrives) k).
  { intros k Hk (s & Hs & Hp). cbn in Hk.
    destruct Hk as [<-|[<-|[<-|[<-|[]]]]]; vm_compute in Hs; inversion Hs; subst s;
      vm_compute in Hp; discriminate. }
  destruct (hydrate_fallbacks (storage bruno_arrives) Hok)
    as (h & Hh & _ & Hr0 & Hc0 & _ & Ha0 & _ & _ & _ & _ & _ & Wg & _ & _ & Wu).
  exists h. split; [exact Hh|].
  split; [apply Wg; vm_compute; reflexivity|].
  split; [apply Wu; vm_compute; reflexivity|].
  split; [apply Hr0; vm_compute; reflexivity|].
  split; [apply Hc0; vm_compute; reflexivity|].
  apply Ha0. vm_compute. discriminate.
Defined.

(** C9 (counterexample). With the text of an unfinished object under the
    catalog key the hydration throws the [SyntaxError] of [JSON.parse]
    instead of falling back to the seed catalog. *)
Lemma hydrate_malformed_throws :
  Json.parse_text (list_ascii_of_string "{") = Json.PSyntaxError
  /\ hydrate (<[GIFTS_STORAGE_KEY := "{"]> ∅) = None
  /\ hydrate (<[GIFTS_STORAGE_KEY := "{"]> ∅)
     <> Some {| h_user := None; h_isAdmin := false; h_gifts := Typed INITIAL_GIFTS;
                h_confirmacoes := Typed []; h_config := Typed DEFAULT_CONFIG |}.
Proof.
  split; [reflexivity|].
  assert (H : hydrate (<[GIFTS_STORAGE_KEY := "{"]> ∅) = None) by (vm_compute; reflexivity).
  split; [exact H|]. rewrite H. discriminate.
Qed.

(** C9 (amended). The hydration is not total over the stored strings: it
    throws exactly when the identity, catalog, attendance or configuration
    key holds a non-empty string that is not well-formed JSON, and nothing
    catches that.  The fallback to the default serves an absent key and the
    empty string; the admin marker is compared, never parsed, so no string
    under it makes the hydration throw. *)
Theorem hydrate_throws_on_malformed (ls : localStorage) :
  (hydrate ls = None <-> exists k, In k parsed_keys /\ malformed ls k)
  /\ (forall k s, In k parsed_keys -> hydrate (setItem k s ls) <> None ->
        s = "" \/ Json.parse s <> None)
  /\ (forall s, hydrate (setItem ADMIN_STORAGE_KEY s ls) = None <-> hydrate ls = None)
  /\ (forall h, hydrate ls = Some h ->
        (truthy (getItem GIFTS_STORAGE_KEY ls) = None -> h_gifts h = Typed INITIAL_GIFTS)
        /\ (truthy (getItem RSVP_STORAGE_KEY ls) = None -> h_confirmacoes h = Typed [])
        /\ (truthy (getItem CONFIG_STORAGE_KEY ls) = None -> h_config h = Typed DEFAULT_CONFIG)
        /\ (truthy (getItem USER_STORAGE_KEY ls) = None -> h_user h = None)).
Proof.
  split; [apply hydrate_None|split; [|split]].
  - intros k s Hk Hh.
    destruct s as [|a s]; [now left|right].
    intros Hparse. apply Hh. apply hydrate_None.
    exists k. split; [exact Hk|]. exists (String a s). split; [|exact Hparse].
    unfold getItem, setItem. now rewrite lookup_insert_eq.
  - intros s. rewrite !hydrate_None. unfold malformed, getItem, setItem, parsed_keys.
    split; intros (k & Hk & s' & Hs & Hp); exists k; (split; [exact Hk|]); exists s';
      (split; [|exact Hp]);
      cbn in Hk; destruct Hk as [<-|[<-|[<-|[<-|[]]]]];
      first [ now rewrite lookup_insert_ne in Hs by (vm_compute; congruence)
            | now rewrite lookup_insert_ne by (vm_compute; congruence) ].
  - intros h Hh. destruct (hydrate_Some ls h Hh) as (Hu & Ha & Hg & Hp & Hc).
    split; [intros E; now rewrite E in Hg|].
    split; [intros E; now rewrite E in Hp|].
    split; [intros E; now rewrite E in Hc|].
    intros E; now rewrite E in Hu.
Qed.

(* ===================================================================== *)
(** * The storage mirrors the state                                       *)
(* ===================================================================== *)

Section Mirror.

Implicit Types (w : World) (ls : localStorage) (a : Action).

Lemma getItem_setItem (k v : string) ls : getItem k (setItem k v ls) = Some v.
Proof. unfold getItem, setItem. apply lookup_insert_eq. Qed.

Lemma getItem_setItem_ne (k k' v : string) ls :
  k <> k' -> getItem k (setItem k' v ls) = getItem k ls.
Proof. intros H. unfold getItem, setItem. now apply lookup_insert_ne. Qed.

Lemma getItem_removeItem (k : string) ls : getItem k (removeItem k ls) = None.
Proof. unfold getItem, removeItem. apply lookup_delete_eq. Qed.

Lemma getItem_removeItem_ne (k k' : string) ls :
  k <> k' -> getItem k (removeItem k' ls) = getItem k ls.
Proof. intros H. unfold getItem, removeItem. now apply lookup_delete_ne. Qed.

Lemma truthy_stringify_list {A : Type} (to_json : A -> json) (l : list A) :
  truthy (Some (Json.stringify (json_of_list to_json l)))
  = Some (Json.stringify (json_of_list to_json l)).
Proof. reflexivity. Qed.

Lemma truthy_stringify_User (u : User) :
  truthy (Some (Json.stringify (json_of_User u))) = Some (Json.stringify (json_of_User u)).
Proof. reflexivity. Qed.

Lemma truthy_stringify_EventConfig (c : EventConfig) :
  truthy (Some (Json.stringify (json_of_EventConfig c)))
  = Some (Json.stringify (json_of_EventConfig c)).
Proof. reflexivity. Qed.

Local Ltac other_key :=
  unfold USER_STORAGE_KEY, ADMIN_STORAGE_KEY, GIFTS_STORAGE_KEY, RSVP_STORAGE_KEY,
    CONFIG_STORAGE_KEY; discriminate.

Local Ltac storage_simpl :=
  cbn [storage state user isAdmin gifts confirmacoes config uploadedImage
       set_user set_isAdmin set_gifts set_confirmacoes set_config set_uploadedImage];
  repeat first
    [ rewrite getItem_setItem
    | rewrite getItem_removeItem
    | rewrite getItem_setItem_ne by other_key
    | rewrite getItem_removeItem_ne by other_key ].

Lemma saveGifts_mirrored (updated : list Gift) w : mirrored w -> mirrored (saveGifts updated w).
Proof.
  intros (Hu & Ha & Hg & Hp & Hc). unfold mirrored, saveGifts. storage_simpl.
  rewrite truthy_stringify_list, catalog_read_back. tauto.
Qed.

Lemma step_mirrored a w : mirrored w -> mirrored (step a w).
Proof.
  intros Hm. destruct a; cbn [step].
  - unfold handleReserve. destruct (user (state w)); [now apply saveGifts_mirrored|exact Hm].
  - now apply saveGifts_mirrored.
  - unfold onAddGift. cbv zeta.
    match goal with
    | |- context [saveGifts ?u w] =>
        pose proof (saveGifts_mirrored u w Hm) as H; set (w' := saveGifts u w) in *
    end.
    destruct H as (Hu & Ha & Hg & Hp & Hc). unfold mirrored.
    cbn [storage state user isAdmin gifts confirmacoes config set_uploadedImage]. tauto.
  - destruct Hm as (Hu & Ha & Hg & Hp & Hc). unfold mirrored, handleFileChange.
    storage_simpl. tauto.
  - now apply saveGifts_mirrored.
  - unfold submitPresenca. destruct (presencaSchema f); [|exact Hm].
    unfold onConfirmReservaPresenca. destruct (user (state w)); [|exact Hm].
    destruct Hm as (Hu & Ha & Hg & Hp & Hc). unfold mirrored. storage_simpl.
    rewrite truthy_stringify_list, register_read_back. tauto.
  - destruct Hm as (Hu & Ha & Hg & Hp & Hc). unfold mirrored, onSaveConfig. storage_simpl.
    rewrite truthy_stringify_EventConfig, config_read_back. tauto.
  - unfold handleAdminLogin. destruct (String.eqb password ADMIN_PASSWORD); [|exact Hm].
    destruct Hm as (Hu & Ha & Hg & Hp & Hc). unfold mirrored. cbn [snd]. storage_simpl.
    repeat split; tauto.
  - destruct Hm as (Hu & Ha & Hg & Hp & Hc). unfold mirrored, handleAdminLogout.
    storage_simpl. repeat split; tauto.
  - destruct Hm as (Hu & Ha & Hg & Hp & Hc). unfold mirrored, handleLogout. storage_simpl.
    cbn [truthy]. tauto.
  - destruct Hm as (Hu & Ha & Hg & Hp & Hc). unfold mirrored, onSave. storage_simpl.
    rewrite truthy_stringify_User, identity_read_back.
    split; [exists u; tauto|tauto].
Qed.


(** Hydrating from the storage of a mirrored world gives its state back (the
    pending upload, which is not stored, apart). *)
Lemma mirrored_cold_start w :
  mirrored w ->
  cold_start (storage w)
  = Some {| state := set_uploadedImage None (state w); storage := storage w |}.
Proof.
  intros (Hu & Ha & Hg & Hp & Hc). unfold cold_start, hydrate.
  cbn [initial_hydration h_user h_isAdmin h_config].
  destruct (state w) as [u a g p c i] eqn:Es.
  cbn [user isAdmin gifts confirmacoes config set_uploadedImage] in *.
  set (b := bool_decide (getItem ADMIN_STORAGE_KEY (storage w) = Some "true")) in *.
  destruct (truthy (getItem USER_STORAGE_KEY (storage w))) as [d|];
    [destruct Hu as (u' & -> & ->)|subst u];
    (destruct (truthy (getItem GIFTS_STORAGE_KEY (storage w))); [rewrite Hg|subst g]);
    (destruct (truthy (getItem RSVP_STORAGE_KEY (storage w))); [rewrite Hp|subst p]);
    (destruct (truthy (getItem CONFIG_STORAGE_KEY (storage w))); [rewrite Hc|subst c]);
    subst a; destruct b; reflexivity.
Qed.


(** [handleLogout] is a reload: hydrating from the storage it leaves gives
    the state it leaves. *)
Lemma handleLogout_reload w :
  mirrored w -> cold_start (storage (handleLogout w)) = Some (handleLogout w).
Proof.
  intros Hm. rewrite (mirrored_cold_start (handleLogout w) (step_mirrored Logout w Hm)).
  reflexivity.
Qed.

Lemma user_step a w :
  user (state (step a w))
  = match a with
    | SaveUser u => Some u
    | Logout => None
    | _ => user (state w)
    end.
Proof.
  destruct a; cbn [step]; try reflexivity.
  - unfold handleReserve. destruct (user (state w)) eqn:E; cbn; now rewrite ?E.
  - unfold submitPresenca. destruct (presencaSchema f); [|reflexivity].
    unfold onConfirmReservaPresenca. destruct (user (state w)) eqn:E; cbn; now rewrite ?E.
  - unfold handleAdminLogin. destruct (String.eqb password ADMIN_PASSWORD); reflexivity.
Qed.

Lemma upsert_valid (r : Presenca) (cs : list Presenca) :
  valid_identity (name r) (phone r) ->
  Forall (fun x => valid_identity (name x) (phone x)) cs ->
  Forall (fun x => valid_identity (name x) (phone x)) (upsert r cs).
Proof.
  intros Hr Hcs. induction Hcs as [|c cs Hc Hcs IH]; cbn [upsert].
  - now constructor.
  - destruct (String.eqb (phone c) (phone r)); constructor; assumption.
Qed.

Lemma step_wellformed a w : wellformed w -> dialog_identity a -> wellformed (step a w).
Proof.
  intros (Hm & Hu & Hr) Ha. split; [now apply step_mirrored|split].
  - intros u. rewrite user_step.
    destruct a; try apply Hu; [discriminate|].
    intros E. inversion E; subst. exact Ha.
  - rewrite confirmacoes_step.
    destruct a; try exact Hr; try (destruct (user (state w)); exact Hr).
    destruct (user (state w)) as [u|] eqn:E; [|exact Hr].
    destruct (accepted f); [|exact Hr].
    apply upsert_valid; [|exact Hr]. now apply Hu.
Qed.

Lemma run_wellformed (acts : list Action) w :
  wellformed w -> Forall dialog_identity acts -> wellformed (run acts w).
Proof.
  revert w. induction acts as [|a acts IH]; intros w Hw Ha; [exact Hw|].
  inversion Ha; subst. cbn. apply IH; [now apply step_wellformed|assumption].
Qed.


(** Started again on the storage Maria Clara's session left, the application
    is in the state her sign-out left. *)
Example cold_start_after_session :
  cold_start (storage maria_signed_out) = Some maria_signed_out.
Proof. vm_compute. reflexivity. Qed.

Lemma seed_wellformed : wellformed seed_world.
Proof.
  split; [|split; [discriminate|constructor]].
  unfold mirrored. repeat split.
Qed.

End Mirror.

(** C6. In every world the application reaches from a well-formed one by
    its handlers (identities being saved by the dialog only), take a contact
    [c] that is the key of an attendance record.  Whatever the guest does in
    the identity dialog, the dialog does not fail; if the phone field holds
    [c] when the guest submits, the identity established carries the name
    of the stored record, not a name the guest typed, and the name field is
    disabled.  In particular, entering [c] after anything else resolves to
    the stored name. *)
Theorem recognized_identity (w0 : World) (acts : list Action) (es : list ModalEvent)
    (known : Presenca) (c : string) :
  wellformed w0 ->
  Forall dialog_identity acts ->
  List.find (fun r => String.eqb (phone r) c) (confirmacoes (state (run acts w0))) = Some known ->
  (exists m, modal_events (storage (run acts w0)) es modal_initial = Done m
             /\ (form_phone (values m) = Some c ->
                 onSubmit m = Valid (mkUser (name known) c false)
                 /\ name_disabled m = true))
  /\ submitIdentity (storage (run acts w0)) (es ++ [PhoneInput c])
     = Done (Valid (mkUser (name known) c false)).
Proof.
  intros Hw Ha Hf.
  destruct (run_wellformed acts w0 Hw Ha) as ((_ & _ & _ & Hp & _) & _ & Hr).
  destruct (List.find_some _ _ Hf) as [Hin Hc]. apply String.eqb_eq in Hc.
  rewrite List.Forall_forall in Hr. destruct (Hr known Hin) as [Hre Hn]. rewrite Hc in Hre.
  destruct (truthy (getItem RSVP_STORAGE_KEY (storage (run acts w0)))) as [d|] eqn:E.
  - exact (recognized_submit (storage (run acts w0)) d _ known c es E Hp Hf Hre Hn).
  - rewrite Hp in Hin. destruct Hin.
Qed.

Lemma recognized_identity_witness :
  submitIdentity (storage maria_signed_out) ([NameInput "Maria"] ++ [PhoneInput "(11) 91234-5678"])
  = Done (Valid (mkUser "Maria Clara" "(11) 91234-5678" false)).
Proof.
  assert (H1 : wellformed seed_world).
  { split; [|split; [discriminate|constructor]]. unfold mirrored. repeat split. }
  assert (H2 : Forall dialog_identity
                 [SaveUser maria;
                  ConfirmPresenca (mkPresencaForm true 2 1) "2024-11-01T10:00:00.000Z"; Logout]).
  { repeat constructor. }
  assert (H3 : List.find (fun r => String.eqb (phone r) "(11) 91234-5678")
                 (confirmacoes (state maria_signed_out))
               = Some (mkPresenca "Maria Clara" "(11) 91234-5678" true 2 1 3
                         "2024-11-01T10:00:00.000Z"))
    by (vm_compute; reflexivity).
  exact (proj2 (recognized_identity seed_world _ [NameInput "Maria"] _ _ H1 H2 H3)).
Defined.

(* ===================================================================== *)
(** * Further properties of the catalog                                   *)
(* ===================================================================== *)

Section CatalogControls.

Implicit Types (w : World) (g h : Gift) (u : User) (i a : string).

Lemma ids_distinct (gs : list Gift) g h :
  List.NoDup (List.map id gs) -> In g gs -> In h gs -> g <> h -> id g <> id h.
Proof.
  induction gs as [|x gs IH]; cbn; intros Hnd Hg Hh Hne; [contradiction|].
  inversion Hnd as [|y l Hx Hnd']; subst.
  destruct Hg as [->|Hg], Hh as [->|Hh].
  - contradiction.
  - intros E. apply Hx. rewrite E. now apply List.in_map.
  - intros E. apply Hx. rewrite <- E. now apply List.in_map.
  - now apply IH.
Qed.

Lemma storage_saveGifts_twice (x y : list Gift) w :
  saveGifts x (saveGifts y w) = saveGifts x w.
Proof.
  unfold saveGifts, setItem. cbn. f_equal. apply insert_insert_eq.
Qed.

Lemma filter_sublist {A : Type} (p : A -> bool) (l : list A) :
  List.filter p l `sublist_of` l.
Proof.
  induction l as [|x l IH]; cbn; [constructor|].
  destruct (p x); now constructor.
Qed.

Lemma filter_all {A : Type} (p : A -> bool) (l : list A) :
  (forall x, In x l -> p x = true) -> List.filter p l = l.
Proof.
  induction l as [|x l IH]; cbn; intros H; [reflexivity|].
  rewrite (H x) by now left. f_equal. apply IH. intros y Hy. apply H. now right.
Qed.

Lemma filter_twice {A : Type} (p : A -> bool) (l : list A) :
  List.filter p (List.filter p l) = List.filter p l.
Proof.
  apply filter_all. intros x Hx. apply List.filter_In in Hx. tauto.
Qed.

Lemma ConfirmPresenca_keeps (f : PresencaForm) (iso : string) w :
  gifts (state (step (ConfirmPresenca f iso) w)) = gifts (state w)
  /\ user (state (step (ConfirmPresenca f iso) w)) = user (state w)
  /\ isAdmin (state (step (ConfirmPresenca f iso) w)) = isAdmin (state w)
  /\ config (state (step (ConfirmPresenca f iso) w)) = config (state w).
Proof.
  cbn [step]. unfold submitPresenca. destruct (presencaSchema f); [|tauto].
  unfold onConfirmReservaPresenca. destruct (user (state w)) eqn:E; cbn; rewrite ?E; tauto.
Qed.

(** What keeps the reservation [h] of [a] in place. *)
Lemma GiftCard_click_keeps g h a w :
  List.NoDup (List.map id (gifts (state w))) ->
  (forall u, user (state w) = Some u -> user_name u <> a) ->
  In h (gifts (state w)) -> held_by a h ->
  In g (gifts (state w)) ->
  List.map id (gifts (state (GiftCard_click g w))) = List.map id (gifts (state w))
  /\ user (state (GiftCard_click g w)) = user (state w)
  /\ isAdmin (state (GiftCard_click g w)) = isAdmin (state w)
  /\ In h (gifts (state (GiftCard_click g w))).
Proof.
  intros Hnd Hu Hh [Hr Hb] Hg. unfold GiftCard_click, GiftCard.
  destruct (isReserved g) eqn:Er; cbn [negb].
  - destruct (isMine (user (state w)) g) eqn:Em; [|tauto].
    unfold isMine in Em. destruct (user (state w)) as [u|] eqn:Eu; [|discriminate].
    apply bool_decide_eq_true in Em.
    assert (Hne : g <> h).
    { intros ->. rewrite Hb in Em. inversion Em. now apply (Hu u). }
    rewrite gifts_handleCancelReserve, ids_cancel.
    split; [reflexivity|]. split; [cbn; exact Eu|]. split; [reflexivity|].
    apply others_after_cancel; [|exact Hh].
    intros E. now apply (ids_distinct _ g h Hnd Hg Hh Hne).
  - assert (Hne : g <> h) by (intros ->; congruence).
    destruct (user (state w)) as [u|] eqn:Eu.
    + rewrite (gifts_handleReserve (id g) w u Eu), ids_reserve.
      split; [reflexivity|]. split; [|split].
      * unfold handleReserve. rewrite Eu. exact Eu.
      * unfold handleReserve. rewrite Eu. reflexivity.
      * apply others_after_reserve; [|exact Hh].
        intros E. now apply (ids_distinct _ g h Hnd Hg Hh Hne).
    + rewrite (handleReserve_anonymous (id g) w Eu). tauto.
Qed.

Lemma click_keeps (c : Click) h a w :
  stranger a c ->
  List.NoDup (List.map id (gifts (state w))) ->
  isAdmin (state w) = false ->
  (forall u, user (state w) = Some u -> user_name u <> a) ->
  In h (gifts (state w)) -> held_by a h ->
  List.NoDup (List.map id (gifts (state (click c w))))
  /\ isAdmin (state (click c w)) = false
  /\ (forall u, user (state (click c w)) = Some u -> user_name u <> a)
  /\ In h (gifts (state (click c w))).
Proof.
  intros Hc Hnd Ha Hu Hh Hheld.
  assert (Hcard : forall g, In g (gifts (state w)) ->
            List.NoDup (List.map id (gifts (state (GiftCard_click g w))))
            /\ isAdmin (state (GiftCard_click g w)) = false
            /\ (forall u, user (state (GiftCard_click g w)) = Some u -> user_name u <> a)
            /\ In h (gifts (state (GiftCard_click g w)))).
  { intros g Hg.
    destruct (GiftCard_click_keeps g h a w Hnd Hu Hh Hheld Hg) as (E1 & E2 & E3 & E4).
    rewrite E1, E2, E3. tauto. }
  destruct c as [n|i|n|f iso|u| |p| |n|d n1 n2|r|c]; cbn [click];
    try (rewrite Ha; tauto).
  - destruct (gifts (state w) !! n) as [g|] eqn:E; [|tauto].
    apply Hcard. apply list_elem_of_In. eapply list_elem_of_lookup_2. exact E.
  - cbn [selectedGift].
    destruct (List.find (fun g => String.eqb (id g) i) (gifts (state w))) as [g|] eqn:E; [|tauto].
    apply Hcard. now apply List.find_some in E.
  - destruct (myGifts (user (state w)) (gifts (state w)) !! n) as [g|] eqn:E; [|tauto].
    apply list_elem_of_lookup_2, list_elem_of_In in E.
    unfold myGifts in E. apply List.filter_In in E. destruct E as [Hg E].
    apply andb_prop in E. destruct E as [Er Eb]. apply bool_decide_eq_true in Eb.
    assert (Hne : g <> h).
    { intros ->. destruct Hheld as [_ Hb]. rewrite Hb in Eb.
      destruct (user (state w)) as [u|]; [|discriminate].
      inversion Eb. now apply (Hu u). }
    rewrite gifts_handleCancelReserve, ids_cancel.
    split; [exact Hnd|]. split; [exact Ha|]. split; [exact Hu|].
    apply others_after_cancel; [|exact Hh].
    intros E. now apply (ids_distinct _ g h Hnd Hg Hh Hne).
  - rewrite Ha.
    destruct (ConfirmPresenca_keeps f iso w) as (E1 & E2 & E3 & _).
    rewrite E1, E2, E3. tauto.
  - destruct (user (state w)) eqn:Eu; [rewrite Eu; tauto|].
    rewrite Ha. cbn. split; [exact Hnd|]. split; [exact Ha|]. split; [|exact Hh].
    intros v Hv. inversion Hv; subst. exact Hc.
  - destruct (user (state w)) eqn:Eu; [|rewrite Eu; tauto].
    rewrite Ha. cbn. split; [exact Hnd|]. split; [exact Ha|]. split; [discriminate|exact Hh].
  - rewrite Ha. unfold handleAdminLogin. cbn in Hc.
    apply String.eqb_neq in Hc. rewrite Hc. cbn. tauto.
Qed.

End CatalogControls.

(** X1. Take a catalog with distinct ids in which an item is reserved under
    the name [a].  Whatever controls are used on the pages by visitors who
    do not identify themselves as [a] and do not enter the administrator's
    password, the item stays in the catalog as it is: reserved, under the
    name [a]. *)
Theorem reservation_kept_from_strangers (cs : list Click) (w : World) (h : Gift) (a : string) :
  List.NoDup (List.map id (gifts (state w))) ->
  isAdmin (state w) = false ->
  (forall u, user (state w) = Some u -> user_name u <> a) ->
  Forall (stranger a) cs ->
  In h (gifts (state w)) ->
  held_by a h ->
  In h (gifts (state (clicks cs w))).
Proof.
  intros Hnd Ha Hu Hcs Hh Hheld. revert w Hnd Ha Hu Hh.
  induction Hcs as [|c cs Hc Hcs IH]; intros w Hnd Ha Hu Hh; [exact Hh|].
  cbn [clicks fold_left].
  destruct (click_keeps c h a w Hc Hnd Ha Hu Hh Hheld) as (H1 & H2 & H3 & H4).
  now apply IH.
Qed.

Lemma reservation_kept_from_strangers_witness :
  In (with_reservation (hd (mkGift EmptyString EmptyString EmptyString EmptyString None None None false)
           INITIAL_GIFTS)
        true (Some "Ana Souza"))
     (gifts (state (clicks [CardControl 0; DetailsControl "1"; MyGiftCancel 0; CardRemove 0;
                            AdminPassword "admin"; Sair; Identify maria; CardControl 0;
                            CardControl 1; PresencaSubmit (mkPresencaForm true 2 0) "t"]
                           bruno_arrives))).
Proof.
  apply (reservation_kept_from_strangers _ bruno_arrives _ "Ana Souza").
  - repeat constructor; cbn; intuition discriminate.
  - reflexivity.
  - intros u Hu. cbn in Hu. inversion Hu. discriminate.
  - repeat constructor; cbn; discriminate.
  - now left.
  - split; reflexivity.
Defined.

Section CatalogAdmin.

Implicit Types (w : World) (g h : Gift) (u : User) (i a : string).

Lemma toString_inj (n m : N) : Js.toString n = Js.toString m -> n = m.
Proof.
  unfold Js.toString. intros E.
  assert (Hn : forall k : N, N.to_uint k <> Decimal.Nil).
  { intros [|p]; [discriminate|apply DecimalPos.Unsigned.to_uint_nonnil]. }
  apply DecimalN.Unsigned.to_uint_inj.
  pose proof (NilZero.usu _ (Hn n)) as E1. pose proof (NilZero.usu _ (Hn m)) as E2.
  rewrite E in E1. rewrite E1 in E2. now inversion E2.
Qed.

Lemma gifts_onAddGift (d : GiftForm) (n1 n2 : N) w :
  gifts (state (onAddGift d n1 n2 w))
  = gifts (state w)
    ++ [ {| id := Js.toString n2;
            gift_name := data_name d;
            description := data_description d;
            imageUrl :=
              Js.or_else (uploadedImage (state w))
                (Js.or_else (data_imageUrl d)
                   ("https://picsum.photos/seed/" +:+ Js.toString n1 +:+ "/600/400"));
            link := data_link d;
            priceEstimate := None;
            reservedBy := None;
            isReserved := false |} ].
Proof. reflexivity. Qed.

(** How a step changes the ids of the catalog. *)
Lemma ids_step (act : Action) w :
  List.map id (gifts (state (step act w)))
  = match act with
    | AddGift _ _ n => List.map id (gifts (state w)) ++ [Js.toString n]
    | RemoveGift i => List.filter (fun x => negb (String.eqb x i)) (List.map id (gifts (state w)))
    | _ => List.map id (gifts (state w))
    end.
Proof.
  destruct act; cbn [step]; try reflexivity.
  - unfold handleReserve. destruct (user (state w)) as [u|]; [|reflexivity].
    rewrite gifts_saveGifts. apply (ids_reserve id_ (user_name u)).
  - rewrite gifts_handleCancelReserve. apply ids_cancel.
  - rewrite gifts_onAddGift, List.map_app. reflexivity.
  - unfold handleRemoveGift. rewrite gifts_saveGifts.
    induction (gifts (state w)) as [|g gs IH]; cbn; [reflexivity|].
    destruct (String.eqb (id g) id_); cbn; now rewrite IH.
  - unfold submitPresenca. destruct (presencaSchema f); [|reflexivity].
    unfold onConfirmReservaPresenca. destruct (user (state w)); reflexivity.
  - unfold handleAdminLogin. destruct (String.eqb password ADMIN_PASSWORD); reflexivity.
Qed.

Lemma NoDup_ids_run (acts : list Action) w :
  List.NoDup (List.map id (gifts (state w)) ++ List.map Js.toString (clock_readings acts)) ->
  List.NoDup (List.map id (gifts (state (run acts w)))).
Proof.
  revert w. induction acts as [|act acts IH]; intros w H.
  - cbn in H. now rewrite List.app_nil_r in H.
  - cbn [run fold_left]. apply IH. rewrite ids_step.
    destruct act; try exact H.
    + cbn [clock_readings List.map] in H. now rewrite <- List.app_assoc.
    + cbn [clock_readings] in H.
      apply NoDup_ListNoDup. apply NoDup_ListNoDup in H.
      eapply sublist_NoDup; [exact H|].
      apply sublist_app; [apply filter_sublist|reflexivity].
Qed.

End CatalogAdmin.

(** X2. [handleRemoveGift] takes every item with the given id out of the
    catalog, reserved or not, and keeps the others in their order; removing
    an id that no item has changes no item; removing twice is removing
    once, in the state and in the storage; and the details page of the id
    then has no gift to show. *)
Theorem handleRemoveGift_removes (i : string) (w : World) :
  let gs := gifts (state w) in
  let gs' := gifts (state (handleRemoveGift i w)) in
  (forall g, In g gs' <-> In g gs /\ id g <> i)
  /\ gs' `sublist_of` gs
  /\ (length gs' + length (List.filter (fun g => String.eqb (id g) i) gs) = length gs)%nat
  /\ (~ In i (List.map id gs) -> gs' = gs)
  /\ handleRemoveGift i (handleRemoveGift i w) = handleRemoveGift i w
  /\ selectedGift (Some i) gs' = None.
Proof.
  cbv zeta. unfold handleRemoveGift. rewrite !gifts_saveGifts.
  split; [|split; [|split; [|split; [|split]]]].
  - intros g. rewrite List.filter_In, negb_true_iff, String.eqb_neq. tauto.
  - apply filter_sublist.
  - induction (gifts (state w)) as [|g gs IH]; cbn; [reflexivity|].
    destruct (String.eqb (id g) i); cbn; lia.
  - intros Hn. apply filter_all. intros g Hg.
    apply negb_true_iff, String.eqb_neq. intros E. apply Hn. rewrite <- E.
    now apply List.in_map.
  - rewrite storage_saveGifts_twice. f_equal. apply filter_twice.
  - cbn [selectedGift].
    destruct (List.find _ _) as [g|] eqn:E; [|reflexivity].
    apply List.find_some in E. destruct E as [Hin E].
    apply List.filter_In in Hin. destruct Hin as [_ Hin]. rewrite E in Hin. discriminate.
Qed.



(** X4. The ids of the catalog stay distinct along every run in which the
    clock readings taken for new gifts differ from one another and from the
    ids already in the catalog: [toString] maps different readings to
    different ids, and nothing else makes or changes an id. *)
Theorem added_ids_distinct (acts : list Action) (w : World) :
  List.NoDup (List.map id (gifts (state w))) ->
  List.NoDup (clock_readings acts) ->
  (forall n, In n (clock_readings acts) -> ~ In (Js.toString n) (List.map id (gifts (state w)))) ->
  List.NoDup (List.map id (gifts (state (run acts w)))).
Proof.
  intros Hnd Hclock Hfresh. apply NoDup_ids_run.
  apply List.NoDup_app; [exact Hnd| |].
  - apply Finite.Injective_map_NoDup; [|exact Hclock].
    intros n m. apply toString_inj.
  - intros x Hx Hin. apply List.in_map_iff in Hin. destruct Hin as (n & <- & Hn).
    now apply (Hfresh n).
Qed.

Lemma added_ids_distinct_witness :
  List.NoDup
    (List.map id
       (gifts (state (run [AdminLogin "admin123";
                           AddGift (mkGiftForm "Cafeteira" "Cafeteira italiana" None None)
                             1700000000000 1700000000001;
                           RemoveGift "2";
                           AddGift (mkGiftForm "Chaleira" "Chaleira de inox" None None)
                             1700000000500 1700000000500]
                          seed_world)))).
Proof.
  apply added_ids_distinct.
  - repeat constructor; cbn; intuition discriminate.
  - repeat constructor; cbn; intuition discriminate.
  - intros n Hn. cbn in Hn. destruct Hn as [<-|[<-|[]]]; cbn; intuition discriminate.
Defined.

(** X5. Two gifts added at the same clock reading get the same id, and a
    reservation of that id takes both: the guest who chooses one of them
    holds the two. *)
Theorem same_reading_same_id (w : World) (u : User) (d1 d2 : GiftForm) (a1 a2 n : N) :
  let w' := run [AddGift d1 a1 n; AddGift d2 a2 n; SaveUser u; Reserve (Js.toString n)] w in
  exists g1 g2,
    gifts (state w')
    = List.map (reserve_item (Js.toString n) (user_name u)) (gifts (state w)) ++ [g1; g2]
    /\ (gift_name g1, description g1, link g1) = (data_name d1, data_description d1, data_link d1)
    /\ (gift_name g2, description g2, link g2) = (data_name d2, data_description d2, data_link d2)
    /\ id g1 = id g2
    /\ held_by (user_name u) g1
    /\ held_by (user_name u) g2.
Proof.
  cbv zeta. cbn [run fold_left step].
  rewrite (gifts_handleReserve _ _ u) by reflexivity.
  cbn [onSave state gifts set_user]. rewrite !gifts_onAddGift.
  rewrite !List.map_app. cbn [List.map]. rewrite <- List.app_assoc. cbn [app].
  eexists. eexists. split; [reflexivity|].
  unfold reserve_item, held_by. cbn [id]. rewrite !String.eqb_refl.
  cbn [with_reservation id gift_name description link isReserved reservedBy].
  repeat split.
Qed.

(** X6. Reserving an item that is free and releasing it again restores the
    application: the state is as it was, and the storage holds the catalog
    as it was. *)
Theorem reserve_then_cancel_restores (i : string) (w : World) (u : User) :
  user (state w) = Some u ->
  (forall g, In g (gifts (state w)) -> id g = i -> isReserved g = false /\ reservedBy g = None) ->
  state (handleCancelReserve i (handleReserve i w)) = state w
  /\ storage (handleCancelReserve i (handleReserve i w))
     = setItem GIFTS_STORAGE_KEY (Json.stringify (json_of_list json_of_Gift (gifts (state w))))
         (storage w).
Proof.
  intros Hu Hfree.
  assert (E : List.map (cancel_item i) (List.map (reserve_item i (user_name u)) (gifts (state w)))
              = gifts (state w)).
  { rewrite List.map_map. rewrite <- (List.map_id (gifts (state w))) at 2.
    apply List.map_ext_in. intros g Hg. unfold cancel_item, reserve_item.
    destruct (String.eqb_spec (id g) i) as [Ei|Ei]; cbn.
    - rewrite Ei, String.eqb_refl. destruct (Hfree g Hg Ei) as [Hr Hb].
      destruct g; cbn in *. now subst.
    - apply String.eqb_neq in Ei. now rewrite Ei. }
  unfold handleCancelReserve. rewrite (gifts_handleReserve i w u Hu).
  fold (cancel_item i).
  change (List.map (fun g => if String.eqb (id g) i then with_reservation g false None else g))
    with (List.map (cancel_item i)).
  rewrite E. unfold handleReserve. rewrite Hu. rewrite storage_saveGifts_twice.
  unfold saveGifts. cbn. split; [|reflexivity].
  destruct (state w); reflexivity.
Qed.

Lemma reserve_then_cancel_restores_witness :
  state (handleCancelReserve "3" (handleReserve "3" bruno_arrives)) = state bruno_arrives.
Proof.
  refine (proj1 (reserve_then_cancel_restores "3" bruno_arrives bruno eq_refl _)).
  intros g Hg Hid. cbn in Hg.
  destruct Hg as [<-|[<-|[<-|[<-|[]]]]]; try discriminate Hid. split; reflexivity.
Defined.

(** X7. The list under "Meus Escolhidos" holds exactly the gifts whose card
    offers the guest the cancel button; without a guest, and with every
    item satisfying the reservation invariant, it is empty; and it never
    holds more gifts than are counted as reserved. *)
Theorem myGifts_are_cancellable (gs : list Gift) :
  (forall u g, In g (myGifts (Some u) gs) <-> In g gs /\ GiftCard g (Some u) = CancelButton)
  /\ (Forall reservation_invariant gs -> myGifts None gs = [])
  /\ (forall cu, (length (myGifts cu gs) <= reservedGiftsCount gs <= length gs)%nat).
Proof.
  split; [|split].
  - intros u g. unfold myGifts, GiftCard, isMine. rewrite List.filter_In.
    destruct (isReserved g); cbn.
    + destruct (bool_decide (reservedBy g = Some (user_name u))); split;
        try tauto; intros [_ E]; discriminate.
    + split; intros [_ E]; discriminate.
  - intros Hinv. unfold myGifts.
    induction Hinv as [|g gs Hg _ IH]; cbn; [reflexivity|].
    destruct (isReserved g) eqn:Er; cbn; [|exact IH].
    destruct (bool_decide (reservedBy g = None)) eqn:Eb; [|exact IH].
    apply bool_decide_eq_true, Hg in Eb. congruence.
  - intros cu. unfold myGifts, reservedGiftsCount. split.
    + induction gs as [|g gs IH]; cbn; [lia|].
      destruct (isReserved g); cbn; [|exact IH].
      destruct (bool_decide _); cbn; lia.
    + apply List.filter_length_le.
Qed.

(** X8. A reservation belongs to a name, not to a contact.  After [a] has
    reserved the item [i] and signed out, a guest who signs in under the
    same name, with whatever phone number, is offered the cancel button on
    it, and the click releases it; a guest under another name is offered
    nothing, and the click changes nothing. *)
Theorem reservation_follows_name (i : string) (w : World) (a b : User) (g : Gift) :
  let w' := run [SaveUser a; Reserve i; Logout; SaveUser b] w in
  In g (gifts (state w')) ->
  id g = i ->
  (user_name b = user_name a ->
     GiftCard g (user (state w')) = CancelButton
     /\ gifts (state (GiftCard_click g w')) = List.map (cancel_item i) (gifts (state w')))
  /\ (user_name b <> user_name a ->
        GiftCard g (user (state w')) = Unavailable /\ GiftCard_click g w' = w').
Proof.
  cbv zeta. cbn [run fold_left step]. intros Hin Hid.
  cbn [onSave handleLogout state gifts user set_user set_uploadedImage] in *.
  rewrite (gifts_handleReserve i _ a) in Hin by reflexivity.
  destruct (reserved_after_reserve i (user_name a) _ g Hin Hid) as [Hr Hb].
  split; intros Hn.
  - assert (Hc : GiftCard g (Some b) = CancelButton).
    { unfold GiftCard, isMine. rewrite Hr, Hb, Hn. cbn.
      now rewrite bool_decide_eq_true_2. }
    split; [exact Hc|].
    unfold GiftCard_click. cbn [onSave state user set_user]. rewrite Hc, Hid. reflexivity.
  - assert (Hc : GiftCard g (Some b) = Unavailable).
    { unfold GiftCard, isMine. rewrite Hr, Hb. cbn.
      rewrite bool_decide_eq_false_2; [reflexivity|congruence]. }
    split; [exact Hc|].
    unfold GiftCard_click. cbn [onSave state user set_user]. now rewrite Hc.
Qed.

Lemma reservation_follows_name_witness :
  GiftCard (with_reservation
              (hd (mkGift EmptyString EmptyString EmptyString EmptyString None None None false)
                 INITIAL_GIFTS) true (Some "Ana Souza"))
    (Some (mkUser "Ana Souza" "(21) 98888-7777" false))
  = CancelButton.
Proof.
  refine (proj1 (proj1
    (reservation_follows_name "1" seed_world ana (mkUser "Ana Souza" "(21) 98888-7777" false)
       (with_reservation
          (hd (mkGift EmptyString EmptyString EmptyString EmptyString None None None false)
             INITIAL_GIFTS) true (Some "Ana Souza"))
       _ eq_refl) eq_refl)).
  now left.
Defined.

Section Access.

Implicit Types (w : World) (g h : Gift) (u : User) (i a : string).

Lemma unreserved_reserve_item i a g : unreserved (reserve_item i a g) = unreserved g.
Proof. unfold reserve_item. now destruct (String.eqb (id g) i). Qed.

Lemma unreserved_cancel_item i g : unreserved (cancel_item i g) = unreserved g.
Proof. unfold cancel_item. now destruct (String.eqb (id g) i). Qed.

Lemma GiftCard_click_catalog g w :
  List.map unreserved (gifts (state (GiftCard_click g w))) = List.map unreserved (gifts (state w))
  /\ isAdmin (state (GiftCard_click g w)) = isAdmin (state w)
  /\ config (state (GiftCard_click g w)) = config (state w).
Proof.
  unfold GiftCard_click. destruct (GiftCard g (user (state w))); [| |tauto].
  - destruct (user (state w)) as [u|] eqn:Eu.
    + rewrite (gifts_handleReserve (id g) w u Eu). unfold handleReserve. rewrite Eu.
      split; [|split; reflexivity].
      rewrite List.map_map. apply List.map_ext. intros x. apply unreserved_reserve_item.
    + rewrite (handleReserve_anonymous (id g) w Eu). tauto.
  - rewrite gifts_handleCancelReserve. split; [|split; reflexivity].
    rewrite List.map_map. apply List.map_ext. intros x. apply unreserved_cancel_item.
Qed.

Lemma click_catalog (c : Click) w :
  no_password c ->
  isAdmin (state w) = false ->
  List.map unreserved (gifts (state (click c w))) = List.map unreserved (gifts (state w))
  /\ isAdmin (state (click c w)) = false
  /\ config (state (click c w)) = config (state w).
Proof.
  intros Hc Ha.
  assert (Hcard : forall g,
            List.map unreserved (gifts (state (GiftCard_click g w)))
            = List.map unreserved (gifts (state w))
            /\ isAdmin (state (GiftCard_click g w)) = false
            /\ config (state (GiftCard_click g w)) = config (state w)).
  { intros g. destruct (GiftCard_click_catalog g w) as (E1 & E2 & E3).
    rewrite E1, E2, E3. tauto. }
  destruct c as [n|i|n|f iso|u| |p| |n|d n1 n2|r|c]; cbn [click];
    try (rewrite Ha; tauto).
  - destruct (gifts (state w) !! n); [apply Hcard|tauto].
  - destruct (selectedGift (Some i) (gifts (state w))); [apply Hcard|tauto].
  - destruct (myGifts (user (state w)) (gifts (state w)) !! n) as [g|]; [|tauto].
    rewrite gifts_handleCancelReserve. split; [|split; [exact Ha|reflexivity]].
    rewrite List.map_map. apply List.map_ext. intros x. apply unreserved_cancel_item.
  - rewrite Ha. destruct (ConfirmPresenca_keeps f iso w) as (E1 & _ & E3 & E4).
    rewrite E1, E3, E4. tauto.
  - destruct (user (state w)); [tauto|]. rewrite Ha. cbn. tauto.
  - destruct (user (state w)); [|tauto]. rewrite Ha. cbn. tauto.
  - rewrite Ha. unfold handleAdminLogin. cbn in Hc.
    apply String.eqb_neq in Hc. rewrite Hc. cbn. tauto.
Qed.

End Access.

(** X9. Without the administrator's password nothing on the pages changes
    the catalog beyond its reservations, or the configuration: whatever
    controls are used, the items are the same, in the same order, with the
    same names, descriptions, images and links; the configuration is as it
    was; and the administrator's session is not open. *)
Theorem edits_need_password (cs : list Click) (w : World) :
  isAdmin (state w) = false ->
  Forall no_password cs ->
  List.map unreserved (gifts (state (clicks cs w))) = List.map unreserved (gifts (state w))
  /\ config (state (clicks cs w)) = config (state w)
  /\ isAdmin (state (clicks cs w)) = false.
Proof.
  intros Ha Hcs. revert w Ha.
  induction Hcs as [|c cs Hc Hcs IH]; intros w Ha; [tauto|].
  cbn [clicks fold_left].
  destruct (click_catalog c w Hc Ha) as (E1 & E2 & E3).
  destruct (IH (click c w) E2) as (F1 & F2 & F3). fold (clicks cs (click c w)).
  rewrite F1, F2, E1, E3. tauto.
Qed.

Lemma edits_need_password_witness :
  config (state (clicks [CardRemove 0; GiftSubmit (mkGiftForm "Cafeteira" "Cafeteira italiana" None None) 1 2;
                         ConfigChange (mkEventConfig "2030-01-01" "10:00" "Rua A" None "2029-12-01" "x");
                         AdminPassword "Admin123"; CardRemove 1; CardControl 1]
                        bruno_arrives))
  = config (state bruno_arrives).
Proof.
  refine (proj1 (proj2 (edits_need_password _ bruno_arrives eq_refl _))).
  repeat constructor; cbn; discriminate.
Defined.

(* ===================================================================== *)
(** * Further properties of the attendance register                       *)
(* ===================================================================== *)

Section Register.

Implicit Types (w : World) (r c : Presenca) (cs : list Presenca) (u : User).

Lemma find_upsert_same r cs :
  List.find (fun c => String.eqb (phone c) (phone r)) (upsert r cs) = Some r.
Proof.
  induction cs as [|c cs IH]; cbn.
  - now rewrite String.eqb_refl.
  - destruct (String.eqb (phone c) (phone r)) eqn:E; cbn.
    + now rewrite String.eqb_refl.
    + now rewrite E.
Qed.

Lemma find_upsert_other (k : string) r cs :
  phone r <> k ->
  List.find (fun c => String.eqb (phone c) k) (upsert r cs)
  = List.find (fun c => String.eqb (phone c) k) cs.
Proof.
  intros Hne. apply String.eqb_neq in Hne.
  induction cs as [|c cs IH]; cbn.
  - now rewrite Hne.
  - destruct (String.eqb_spec (phone c) (phone r)) as [E|E]; cbn.
    + rewrite Hne. rewrite E. now rewrite Hne.
    + now rewrite IH.
Qed.

Lemma accepted_bounds (f : PresencaForm) :
  accepted f = true -> 1 <= adults f <= 10 /\ 0 <= children f <= 10.
Proof.
  unfold accepted, presencaSchema, z_number_range.
  destruct (Z.ltb_spec (adults f) 1), (Z.ltb_spec 10 (adults f)),
    (Z.ltb_spec (children f) 0), (Z.ltb_spec 10 (children f));
    intros Hyp; try discriminate; lia.
Qed.

Lemma upsert_Forall (P : Presenca -> Prop) r cs :
  P r -> Forall P cs -> Forall P (upsert r cs).
Proof.
  intros Hr Hcs. induction Hcs as [|c cs Hc Hcs IH]; cbn [upsert].
  - now constructor.
  - destruct (String.eqb (phone c) (phone r)); constructor; assumption.
Qed.

Lemma step_consistent (a : Action) w :
  Forall party_consistent (confirmacoes (state w)) ->
  Forall party_consistent (confirmacoes (state (step a w))).
Proof.
  intros H. rewrite confirmacoes_step.
  destruct a; try exact H; try (destruct (user (state w)); exact H).
  destruct (user (state w)) as [u|]; [|exact H].
  destruct (accepted f) eqn:E; [|exact H].
  apply upsert_Forall; [|exact H].
  apply accepted_bounds in E. unfold party_consistent. cbn. lia.
Qed.

Lemma run_consistent (acts : list Action) w :
  Forall party_consistent (confirmacoes (state w)) ->
  Forall party_consistent (confirmacoes (state (run acts w))).
Proof.
  revert w. induction acts as [|a acts IH]; intros w H; [exact H|].
  cbn. apply IH. now apply step_consistent.
Qed.

Lemma totals_consistent cs :
  Forall party_consistent cs ->
  totalPessoas cs = totalAdultos cs + totalCriancas cs
  /\ attending_count cs <= totalAdultos cs <= 10 * attending_count cs
  /\ 0 <= totalCriancas cs <= 10 * attending_count cs
  /\ 0 <= attending_count cs.
Proof.
  unfold totalPessoas, totalAdultos, totalCriancas, attending_count, totalReservas, totalNaoVao.
  rewrite !fold_attending. unfold sum_attending.
  induction 1 as [|c cs (Hg & Ha & Hc) _ IH]; cbn [List.filter List.map foldr length]; [lia|].
  destruct (attending c); cbn [negb List.map foldr length]; lia.
Qed.

End Register.

(** X10. After an accepted attendance form, the card of the guest shows the
    record just submitted; what the card shows to a guest with another
    phone number is as before; and whoever signs in later with the phone
    number of the guest, under whatever name, is shown that record. *)
Theorem userReserva_after_confirm (f : PresencaForm) (iso : string) (w : World) (u : User) :
  user (state w) = Some u ->
  accepted f = true ->
  let w' := step (ConfirmPresenca f iso) w in
  userReserva (user (state w')) (confirmacoes (state w')) = Some (record_of_submit u f iso)
  /\ (forall v, user_phone v <> user_phone u ->
        userReserva (Some v) (confirmacoes (state w'))
        = userReserva (Some v) (confirmacoes (state w)))
  /\ (forall v, user_phone v = user_phone u ->
        let w2 := run [Logout; SaveUser v] w' in
        userReserva (user (state w2)) (confirmacoes (state w2))
        = Some (record_of_submit u f iso)).
Proof.
  intros Hu Hacc. cbv zeta.
  pose proof (confirmacoes_step (ConfirmPresenca f iso) w) as E. rewrite Hu, Hacc in E.
  destruct (ConfirmPresenca_keeps f iso w) as (_ & Eu & _).
  split; [|split].
  - rewrite Eu, Hu, E. apply (find_upsert_same (record_of_submit u f iso)).
  - intros v Hv. rewrite E. unfold userReserva.
    apply (find_upsert_other (user_phone v) (record_of_submit u f iso)). cbn. congruence.
  - intros v Hv. set (w1 := step (ConfirmPresenca f iso) w) in *.
    cbn [run fold_left step onSave handleLogout state user confirmacoes
         set_user set_uploadedImage].
    rewrite E. unfold userReserva. rewrite Hv.
    apply (find_upsert_same (record_of_submit u f iso)).
Qed.

Lemma userReserva_after_confirm_witness :
  userReserva (Some ana)
    (confirmacoes (state (step (ConfirmPresenca (mkPresencaForm true 2 1) "t1")
                            (onSave ana seed_world))))
  = Some (record_of_submit ana (mkPresencaForm true 2 1) "t1").
Proof.
  exact (proj1 (userReserva_after_confirm (mkPresencaForm true 2 1) "t1"
                  (onSave ana seed_world) ana eq_refl eq_refl)).
Defined.

(** X11. The register stays consistent along every run: each record counts
    its party as its adults and its children, with 1 to 10 adults and 0 to
    10 children.  So the metrics of the administrator agree with one
    another: the people expected are the adults and the children expected;
    every party that attends brings between one and ten adults and at most
    ten children. *)
Theorem register_counts_consistent (acts : list Action) (w : World) :
  Forall party_consistent (confirmacoes (state w)) ->
  let cs := confirmacoes (state (run acts w)) in
  Forall party_consistent cs
  /\ totalPessoas cs = totalAdultos cs + totalCriancas cs
  /\ attending_count cs <= totalAdultos cs <= 10 * attending_count cs
  /\ 0 <= totalCriancas cs <= 10 * attending_count cs
  /\ 0 <= attending_count cs.
Proof.
  intros H. cbv zeta. pose proof (run_consistent acts w H) as Hc.
  split; [exact Hc|]. now apply totals_consistent.
Qed.

Lemma register_counts_consistent_witness :
  totalPessoas (confirmacoes (state maria_signed_out))
  = totalAdultos (confirmacoes (state maria_signed_out))
    + totalCriancas (confirmacoes (state maria_signed_out)).
Proof.
  exact (proj1 (proj2
    (register_counts_consistent
       [SaveUser maria; ConfirmPresenca (mkPresencaForm true 2 1) "2024-11-01T10:00:00.000Z";
        Logout]
       seed_world (List.Forall_nil _)))).
Defined.

(* ===================================================================== *)
(** * Further properties of the identity dialog                           *)
(* ===================================================================== *)

Section Dialog.

Implicit Types (ls : localStorage) (m : ModalState) (e : ModalEvent) (es : list ModalEvent).

Lemma maskPhone_chars (s : string) : maskPhone s = string_of_list_ascii (layout (digits s)).
Proof. rewrite <- maskPhone_layout. symmetry. apply string_of_list_ascii_of_string. Qed.

Lemma phoneRegex_maskPhone (v : string) :
  phoneRegex_test (maskPhone v) = true <-> (11 <= length (digits v))%nat.
Proof.
  rewrite maskPhone_chars. split.
  - intros Hfull.
    destruct (le_lt_dec 11 (length (digits v))) as [Hle|Hlt]; [exact Hle|].
    rewrite (layout_partial _ Hlt) in Hfull. discriminate.
  - intros Hle. apply layout_full; [apply digits_are_digits|exact Hle].
Qed.

Lemma checkExistingUser_phone ls m m' :
  checkExistingUser ls m = Done m' -> form_phone (values m') = form_phone (values m).
Proof.
  unfold checkExistingUser.
  destruct (truthy (form_phone (values m))) as [p|]; [|intros E; now inversion E].
  destruct (phoneRegex_test p); [|intros E; now inversion E].
  destruct (truthy (getItem RSVP_STORAGE_KEY ls)) as [s|]; [|intros E; now inversion E].
  destruct (read_as (as_array Presenca_of_json) s) as [[l|j]|]; try discriminate.
  destruct (List.find _ l); intros E; now inversion E.
Qed.

Lemma modal_event_phone ls e m m' :
  modal_event ls e m = Done m' ->
  form_phone (values m')
  = match e with
    | PhoneInput v => Some (maskPhone v)
    | NameInput _ => form_phone (values m)
    end.
Proof.
  destruct e as [v|v]; cbn [modal_event].
  - destruct (bool_decide _); [intros E; now inversion E|].
    intros E. apply checkExistingUser_phone in E. exact E.
  - destruct (name_disabled m); intros E; now inversion E.
Qed.

Lemma modal_events_phone ls es m m' :
  modal_events ls es m = Done m' ->
  form_phone (values m')
  = match typed_phone es with
    | Some v => Some (maskPhone v)
    | None => form_phone (values m)
    end.
Proof.
  revert m. induction es as [|e es IH]; intros m; cbn [modal_events typed_phone].
  - intros E. now inversion E.
  - destruct (modal_event ls e m) as [m1| |] eqn:E1; try discriminate.
    intros E. rewrite (IH m1 E). apply modal_event_phone in E1.
    destruct (typed_phone es); [reflexivity|]. rewrite E1. now destruct e.
Qed.

Lemma onSubmit_Valid m (u : User) :
  onSubmit m = Valid u ->
  form_name (values m) = Some (user_name u)
  /\ form_phone (values m) = Some (user_phone u)
  /\ valid_identity (user_name u) (user_phone u)
  /\ user_isAdmin u = false.
Proof.
  unfold onSubmit, userSchema, z_string_min, z_string_phone, valid_identity.
  destruct (form_name (values m)) as [n|]; [|discriminate].
  destruct (Nat.leb_spec 3 (String.length n)) as [Hn|Hn];
    (destruct (form_phone (values m)) as [p|]; [|discriminate]);
    destruct (phoneRegex_test p) eqn:Hp; try discriminate.
  intros E. inversion E; subst u. cbn. tauto.
Qed.

(** Without a stored register the dialog recognizes nobody. *)
Lemma modal_event_first_visit ls e m :
  truthy (getItem RSVP_STORAGE_KEY ls) = None ->
  existingUserFound m = None ->
  exists m', modal_event ls e m = Done m'
             /\ existingUserFound m' = None
             /\ form_name (values m')
                = match e with
                  | NameInput v => Some v
                  | PhoneInput _ => form_name (values m)
                  end.
Proof.
  intros Hs Hm. destruct e as [v|v]; cbn [modal_event].
  - destruct (bool_decide _); [eexists; split; [reflexivity|]; cbn; tauto|].
    unfold checkExistingUser. cbn [values form_phone form_name existingUserFound].
    destruct (truthy (Some (maskPhone v))) as [p|];
      [|eexists; split; [reflexivity|]; cbn; tauto].
    destruct (phoneRegex_test p); [|eexists; split; [reflexivity|]; cbn; tauto].
    rewrite Hs. eexists; split; [reflexivity|]; cbn; tauto.
  - unfold name_disabled. rewrite Hm. cbn [truthy].
    eexists; split; [reflexivity|]; cbn; tauto.
Qed.

Lemma modal_events_first_visit ls es m :
  truthy (getItem RSVP_STORAGE_KEY ls) = None ->
  existingUserFound m = None ->
  exists m', modal_events ls es m = Done m'
             /\ existingUserFound m' = None
             /\ form_name (values m')
                = match typed_name es with
                  | Some v => Some v
                  | None => form_name (values m)
                  end.
Proof.
  intros Hs. revert m. induction es as [|e es IH]; intros m Hm; cbn [modal_events typed_name].
  - exists m. tauto.
  - destruct (modal_event_first_visit ls e m Hs Hm) as (m1 & -> & H1 & N1).
    destruct (IH m1 H1) as (m' & E & H' & N'). exists m'.
    split; [exact E|]. split; [exact H'|]. rewrite N'.
    destruct (typed_name es); [reflexivity|]. rewrite N1. now destruct e.
Qed.

(** With a malformed register, the first complete phone number throws. *)
Lemma modal_event_malformed ls e m :
  malformed ls RSVP_STORAGE_KEY ->
  incomplete m ->
  (complete_phone e /\ modal_event ls e m = Thrown)
  \/ (~ complete_phone e /\ exists m', modal_event ls e m = Done m' /\ incomplete m').
Proof.
  intros (s & Hs & Hp) Hm. destruct e as [v|v]; cbn [modal_event complete_phone].
  - destruct (le_lt_dec 11 (length (digits v))) as [Hle|Hlt].
    + left. split; [exact Hle|].
      pose proof (proj2 (phoneRegex_maskPhone v) Hle) as Hre.
      rewrite bool_decide_eq_false_2.
      * unfold checkExistingUser. cbn [values form_phone].
        rewrite (phoneRegex_truthy _ Hre), Hre, Hs.
        now rewrite (proj2 (read_as_None (as_array Presenca_of_json) s) Hp).
      * intros E. apply Hm in E. congruence.
    + right. split; [lia|].
      assert (Hre : phoneRegex_test (maskPhone v) = false).
      { apply not_true_is_false. intros E. apply phoneRegex_maskPhone in E. lia. }
      destruct (bool_decide _).
      * eexists. split; [reflexivity|]. intros p E. cbn in E. now inversion E; subst.
      * unfold checkExistingUser. cbn [values form_phone form_name existingUserFound].
        destruct (truthy (Some (maskPhone v))) as [p|] eqn:Et.
        -- assert (p = maskPhone v) as ->.
           { cbn in Et. destruct (Js.falsy (maskPhone v)); now inversion Et. }
           rewrite Hre. eexists. split; [reflexivity|].
           intros p E. cbn in E. now inversion E; subst.
        -- eexists. split; [reflexivity|]. intros p E. cbn in E. now inversion E; subst.
  - right. split; [tauto|].
    destruct (name_disabled m); eexists; (split; [reflexivity|]); [exact Hm|].
    intros p E. cbn in E. now apply Hm.
Qed.

Lemma modal_events_malformed ls es m :
  malformed ls RSVP_STORAGE_KEY ->
  incomplete m ->
  (Exists complete_phone es /\ modal_events ls es m = Thrown)
  \/ (~ Exists complete_phone es /\ exists m', modal_events ls es m = Done m' /\ incomplete m').
Proof.
  intros Hs. revert m. induction es as [|e es IH]; intros m Hm; cbn [modal_events].
  - right. split; [intros E; inversion E|]. now exists m.
  - destruct (modal_event_malformed ls e m Hs Hm) as [[Hc ->]|(Hc & m1 & -> & H1)].
    + left. split; [now left|reflexivity].
    + destruct (IH m1 H1) as [[Hex E]|(Hex & m' & E & H')].
      * left. split; [now right|exact E].
      * right. split; [|now exists m'].
        intros Hx. inversion Hx; subst; contradiction.
Qed.

End Dialog.

(** X12. Whatever the storage holds and whatever the guest does in the
    dialog, an identity that the dialog hands to [onSave] is a valid one:
    its name has at least three characters, its phone number is a complete
    masked phone number, namely the mask of what the guest typed last into
    the phone field, with at least eleven digits in it, and it is not an
    administrator. *)
Theorem dialog_saves_valid_identity (ls : localStorage) (es : list ModalEvent) (u : User) :
  submitIdentity ls es = Done (Valid u) ->
  dialog_identity (SaveUser u)
  /\ user_isAdmin u = false
  /\ exists v, typed_phone es = Some v
               /\ user_phone u = maskPhone v
               /\ (11 <= length (digits v))%nat.
Proof.
  unfold submitIdentity.
  destruct (modal_events ls es modal_initial) as [m| |] eqn:E; try discriminate.
  intros Hv. inversion Hv as [Hs]. clear Hv.
  destruct (onSubmit_Valid m u Hs) as (_ & Hp & Hvalid & Hadm).
  split; [exact Hvalid|]. split; [exact Hadm|].
  rewrite (modal_events_phone ls es modal_initial m E) in Hp.
  destruct (typed_phone es) as [v|].
  - exists v. inversion Hp as [Hm]. split; [reflexivity|]. split; [reflexivity|].
    apply phoneRegex_maskPhone. rewrite Hm. apply Hvalid.
  - inversion Hp as [Hm]. destruct Hvalid as [Hre _]. rewrite <- Hm in Hre. discriminate Hre.
Qed.

Lemma dialog_saves_valid_identity_witness :
  dialog_identity (SaveUser (mkUser "Maria Clara" "(11) 91234-5678" false)).
Proof.
  exact (proj1 (dialog_saves_valid_identity (storage maria_signed_out)
                  [NameInput "Maria"; PhoneInput "(11) 91234-5678"]
                  (mkUser "Maria Clara" "(11) 91234-5678" false) eq_refl)).
Defined.

(** X13. On a first visit, with no register stored, the dialog recognizes
    nobody and submits what its two fields hold: the name as typed last and
    the mask of the phone number typed last, the empty string for a field
    that was never touched.  It hands over an identity exactly when that
    name has at least three characters and that phone number at least
    eleven digits; submitted untouched, it answers with the message on the
    length of the name and the message on the format of the phone number. *)
Theorem dialog_first_visit (ls : localStorage) (es : list ModalEvent) :
  truthy (getItem RSVP_STORAGE_KEY ls) = None ->
  submitIdentity ls es
  = Done (onSubmit
            {| values :=
                 {| form_name := Some (default EmptyString (typed_name es));
                    form_phone := Some (maskPhone (default EmptyString (typed_phone es))) |};
               existingUserFound := None |})
  /\ (forall u,
        submitIdentity ls es = Done (Valid u)
        <-> exists n v, typed_name es = Some n /\ typed_phone es = Some v
                        /\ (3 <= String.length n)%nat /\ (11 <= length (digits v))%nat
                        /\ u = mkUser n (maskPhone v) false)
  /\ submitIdentity ls []
     = Done (Invalid
               {| err_name := Some "O nome deve ter pelo menos 3 caracteres";
                  err_phone :=
                    Some ("Formato inv" +:+ Js.lat 225 +:+ "lido: (00) 00000-0000") |}).
Proof.
  intros Hs.
  destruct (modal_events_first_visit ls es modal_initial Hs eq_refl) as (m & E & Hf & Hn).
  pose proof (modal_events_phone ls es modal_initial m E) as Hp.
  assert (Em : m = {| values :=
                        {| form_name := Some (default EmptyString (typed_name es));
                           form_phone :=
                             Some (maskPhone (default EmptyString (typed_phone es))) |};
                      existingUserFound := None |}).
  { destruct m as [[n p] x]. cbn in *. subst x. f_equal. f_equal.
    - rewrite Hn. now destruct (typed_name es).
    - rewrite Hp. now destruct (typed_phone es). }
  assert (Es : submitIdentity ls es
               = Done (onSubmit
                         {| values :=
                              {| form_name := Some (default EmptyString (typed_name es));
                                 form_phone :=
                                   Some (maskPhone (default EmptyString (typed_phone es))) |};
                            existingUserFound := None |})).
  { unfold submitIdentity. rewrite E. now rewrite Em. }
  split; [exact Es|]. split; [|reflexivity]. intros u. rewrite Es. split.
  - intros Hv. inversion Hv as [Hu]. clear Hv.
    destruct (onSubmit_Valid _ u Hu) as (Hn' & Hp' & [Hre Hlen] & Hadm).
    cbn [values form_name form_phone] in Hn', Hp'.
    inversion Hn' as [Hname]. inversion Hp' as [Hphone].
    destruct (typed_name es) as [n|]; cbn [default from_option Datatypes.id] in Hname;
      [|rewrite <- Hname in Hlen; cbn in Hlen; lia].
    destruct (typed_phone es) as [v|]; cbn [default from_option Datatypes.id] in Hphone;
      [|rewrite <- Hphone in Hre; discriminate Hre].
    exists n, v. split; [reflexivity|]. split; [reflexivity|].
    split; [now rewrite Hname|].
    split; [apply phoneRegex_maskPhone; now rewrite Hphone|].
    destruct u; cbn in *. now subst.
  - intros (n & v & Hn' & Hv & Hlen & Hd & ->). rewrite Hn', Hv.
    unfold onSubmit, userSchema, z_string_min, z_string_phone.
    cbn [values form_name form_phone default from_option Datatypes.id].
    apply Nat.leb_le in Hlen. rewrite Hlen.
    now rewrite (proj2 (phoneRegex_maskPhone v) Hd).
Qed.

Lemma dialog_first_visit_witness :
  submitIdentity ∅ [PhoneInput "119"; NameInput "An"; PhoneInput "11 91234 5678 9";
                    NameInput "Ana Souza"]
  = Done (Valid (mkUser "Ana Souza" "(11) 91234-5678" false)).
Proof.
  assert (H : truthy (getItem RSVP_STORAGE_KEY ∅) = None).
  { unfold getItem. now rewrite lookup_empty. }
  apply (proj1 (proj2 (dialog_first_visit ∅ _ H)) _).
  exists "Ana Souza", "11 91234 5678 9".
  split; [reflexivity|]. split; [reflexivity|]. split; [cbn; lia|].
  split; [vm_compute; lia|reflexivity].
Defined.

(** X14. The dialog has no guard around [JSON.parse] either: with a
    malformed register in the storage, it throws as soon as the guest has
    typed a phone number with eleven digits, and does not read the storage
    before; so it can hand over no identity. *)
Theorem dialog_throws_on_malformed_register (ls : localStorage) (es : list ModalEvent) :
  malformed ls RSVP_STORAGE_KEY ->
  (submitIdentity ls es = Thrown <-> Exists complete_phone es)
  /\ (forall u, submitIdentity ls es <> Done (Valid u)).
Proof.
  intros Hs.
  assert (H0 : incomplete modal_initial) by (intros p E; now inversion E).
  unfold submitIdentity.
  destruct (modal_events_malformed ls es modal_initial Hs H0)
    as [[Hex ->]|(Hex & m & -> & Hm)].
  - split; [tauto|]. intros u; discriminate.
  - split; [split; [discriminate|contradiction]|].
    intros u E. inversion E as [Hu].
    destruct (onSubmit_Valid m u Hu) as (_ & Hp & [Hre _] & _).
    rewrite (Hm _ Hp) in Hre. discriminate.
Qed.

Lemma dialog_throws_on_malformed_register_witness :
  submitIdentity (setItem RSVP_STORAGE_KEY "[{" ∅)
    [NameInput "Ana Souza"; PhoneInput "1191234"; PhoneInput "11912345678"]
  = Thrown.
Proof.
  assert (H : malformed (setItem RSVP_STORAGE_KEY "[{" ∅) RSVP_STORAGE_KEY).
  { exists "[{". rewrite getItem_setItem. split; reflexivity. }
  apply (proj1 (dialog_throws_on_malformed_register _ _ H)).
  right. right. left. vm_compute. lia.
Defined.

(* ===================================================================== *)
(** * Further properties of [maskPhone]                                   *)
(* ===================================================================== *)

Section MaskKeys.

Local Open Scope char_scope.
Local Open Scope nat_scope.

Local Arguments Js.is_digit : simpl never.

Local Ltac digit_facts :=
  repeat match goal with
         | H : Forall _ (_ :: _) |- _ =>
             let H1 := fresh "Hd" in
             apply Forall_cons_1 in H; destruct H as [H1 H]
         end.

Local Ltac by_digits :=
  cbn; rewrite ?digit_lparen, ?digit_rparen, ?digit_space, ?digit_hyphen; cbn;
  repeat match goal with
         | H : Js.is_digit _ = true |- _ => rewrite !H; clear H; cbn
         end;
  rewrite ?digit_lparen, ?digit_rparen, ?digit_space, ?digit_hyphen; cbn;
  try reflexivity.

Lemma digits_of_chars (l : list ascii) :
  digits (string_of_list_ascii l) = List.filter Js.is_digit l.
Proof. unfold digits. now rewrite list_ascii_of_string_of_list_ascii. Qed.

Lemma digits_maskPhone (s : string) : digits (maskPhone s) = take 11 (digits s).
Proof.
  unfold digits at 1. rewrite maskPhone_layout.
  apply digits_of_layout, digits_are_digits.
Qed.

Lemma digits_append (s t : string) : digits (s +:+ t) = digits s ++ digits t.
Proof. unfold digits. rewrite chars_append. apply List.filter_app. Qed.

Lemma layout_backspace_short (d : list ascii) :
  Forall (fun c => Js.is_digit c = true) d ->
  length d <= 11 ->
  layout (List.filter Js.is_digit (removelast (layout d)))
  = if Nat.eqb (length d) 7 then layout d
    else layout (List.filter Js.is_digit (removelast d)).
Proof.
  intros H Hlen. unfold layout.
  do 12 (destruct d as [|? d]; [digit_facts; by_digits|]).
  cbn in Hlen. lia.
Qed.

Lemma layout_backspace (d : list ascii) :
  Forall (fun c => Js.is_digit c = true) d ->
  layout (List.filter Js.is_digit (removelast (layout d)))
  = if Nat.eqb (length (take 11 d)) 7 then layout d
    else layout (List.filter Js.is_digit (removelast (take 11 d))).
Proof.
  intros H. rewrite <- (layout_take d).
  apply layout_backspace_short; [now apply Forall_take|].
  rewrite length_take. lia.
Qed.

End MaskKeys.

(** X15. [maskPhone] looks at nothing but the first eleven digits of what
    is typed: two inputs are masked alike exactly when they agree on those;
    so whatever is typed after the eleventh digit changes nothing. *)
Theorem maskPhone_first_eleven_digits (s t : string) :
  (maskPhone s = maskPhone t <-> take 11 (digits s) = take 11 (digits t))
  /\ ((11 <= length (digits s))%nat -> maskPhone (s +:+ t) = maskPhone s).
Proof.
  assert (Hiff : forall x y, maskPhone x = maskPhone y
                             <-> take 11 (digits x) = take 11 (digits y)).
  { intros x y. split; intros E.
    - rewrite <- !digits_maskPhone. now rewrite E.
    - rewrite !maskPhone_chars. rewrite <- (layout_take (digits x)), <- (layout_take (digits y)).
      now rewrite E. }
  split; [apply Hiff|].
  intros Hlen. apply Hiff. rewrite digits_append. now rewrite take_app_le by lia.
Qed.

(** X16. The backspace key in the phone field takes the last digit away,
    except after the seventh digit: there the field ends with the hyphen,
    the key removes the hyphen, and the mask puts it back, so the field
    stays as it is. *)
Theorem maskPhone_backspace (s : string) :
  maskPhone (backspace (maskPhone s))
  = if Nat.eqb (length (take 11 (digits s))) 7 then maskPhone s
    else maskPhone (string_of_list_ascii (removelast (take 11 (digits s)))).
Proof.
  rewrite !maskPhone_chars. unfold backspace.
  rewrite !digits_of_chars, !list_ascii_of_string_of_list_ascii.
  rewrite (layout_backspace _ (digits_are_digits s)).
  now destruct (Nat.eqb (length (take 11 (digits s))) 7).
Qed.

(* ===================================================================== *)
(** * Reloading the page                                                  *)
(* ===================================================================== *)

Section Reload.

Implicit Types (w : World) (ls : localStorage).


(** Every control runs one handler, or none. *)
Lemma click_step (c : Click) w : click c w = w \/ exists a, click c w = step a w.
Proof.
  assert (Hcard : forall g, GiftCard_click g w = w \/ exists a, GiftCard_click g w = step a w).
  { intros g. unfold GiftCard_click. destruct (GiftCard g (user (state w))).
    - right. now exists (Reserve (id g)).
    - right. now exists (CancelReserve (id g)).
    - now left. }
  destruct c as [n|i|n|f iso|u| |p| |n|d n1 n2|r|c]; cbn [click].
  - destruct (gifts (state w) !! n); [apply Hcard|now left].
  - destruct (selectedGift (Some i) (gifts (state w))); [apply Hcard|now left].
  - destruct (myGifts (user (state w)) (gifts (state w)) !! n) as [g|]; [|now left].
    right. now exists (CancelReserve (id g)).
  - destruct (isAdmin (state w)); [now left|]. right. now exists (ConfirmPresenca f iso).
  - destruct (user (state w)); [now left|].
    destruct (isAdmin (state w)); [now left|]. right. now exists (SaveUser u).
  - destruct (user (state w)); [|now left].
    destruct (isAdmin (state w)); [now left|]. right. now exists Logout.
  - destruct (isAdmin (state w)); [now left|]. right. now exists (AdminLogin p).
  - destruct (isAdmin (state w)); [|now left]. right. now exists AdminLogout.
  - destruct (isAdmin (state w)); [|now left].
    destruct (gifts (state w) !! n) as [g|]; [|now left]. right. now exists (RemoveGift (id g)).
  - destruct (isAdmin (state w)); [|now left]. right. now exists (AddGift d n1 n2).
  - destruct (isAdmin (state w)); [|now left]. right. now exists (FileChosen r).
  - destruct (isAdmin (state w)); [|now left]. right. now exists (SaveConfig c).
Qed.


End Reload.



(* ===================================================================== *)
(** * Sessions                                                            *)
(* ===================================================================== *)

Section Sessions.

Implicit Types (w : World) (g h : Gift) (u : User) (c : Click).

Lemma click_admin c w :
  stays_admin c ->
  isAdmin (state w) = true ->
  isAdmin (state (click c w)) = true
  /\ user (state (click c w)) = user (state w)
  /\ confirmacoes (state (click c w)) = confirmacoes (state w).
Proof.
  intros Hc Ha.
  assert (Hcard : forall g,
            isAdmin (state (GiftCard_click g w)) = true
            /\ user (state (GiftCard_click g w)) = user (state w)
            /\ confirmacoes (state (GiftCard_click g w)) = confirmacoes (state w)).
  { intros g. unfold GiftCard_click. destruct (GiftCard g (user (state w))); [| |tauto].
    - unfold handleReserve. destruct (user (state w)) eqn:E; cbn; rewrite ?E; tauto.
    - cbn. tauto. }
  destruct c as [n|i|n|f iso|u| |p| |n|d n1 n2|r|c]; cbn [click]; rewrite ?Ha.
  - destruct (gifts (state w) !! n); [apply Hcard|tauto].
  - destruct (selectedGift (Some i) (gifts (state w))); [apply Hcard|tauto].
  - destruct (myGifts (user (state w)) (gifts (state w)) !! n); cbn; tauto.
  - tauto.
  - destruct (user (state w)) eqn:E; tauto.
  - destruct (user (state w)) eqn:E; tauto.
  - tauto.
  - contradiction.
  - destruct (gifts (state w) !! n); cbn; tauto.
  - cbn. tauto.
  - cbn. tauto.
  - cbn. tauto.
Qed.

End Sessions.

(** X18. The administrator's session opens with the password and with
    nothing else, and while it is open the guest side is closed: whatever
    is clicked short of "Sair do Admin", the session stays open, the guest
    identity stays as it is and so does the register. *)
Theorem admin_session (cs : list Click) (w : World) :
  (forall p, isAdmin (state w) = false ->
             (isAdmin (state (click (AdminPassword p) w)) = true <-> p = ADMIN_PASSWORD))
  /\ (isAdmin (state w) = true ->
      Forall stays_admin cs ->
      isAdmin (state (clicks cs w)) = true
      /\ user (state (clicks cs w)) = user (state w)
      /\ confirmacoes (state (clicks cs w)) = confirmacoes (state w)).
Proof.
  split.
  - intros p Ha. cbn [click]. rewrite Ha. unfold handleAdminLogin.
    destruct (String.eqb_spec p ADMIN_PASSWORD) as [E|E]; cbn.
    + tauto.
    + rewrite Ha. split; [discriminate|contradiction].
  - intros Ha Hcs. revert w Ha.
    induction Hcs as [|c cs Hc Hcs IH]; intros w Ha; [tauto|].
    cbn [clicks fold_left]. fold (clicks cs (click c w)).
    destruct (click_admin c w Hc Ha) as (E1 & E2 & E3).
    destruct (IH (click c w) E1) as (F1 & F2 & F3).
    rewrite F1, F2, F3, E2, E3. tauto.
Qed.

Lemma admin_session_witness :
  isAdmin (state (clicks [Identify bruno; Sair; PresencaSubmit (mkPresencaForm true 1 0) "t";
                          CardRemove 0; CardControl 0]
                         (click (AdminPassword "admin123") seed_world))) = true.
Proof.
  refine (proj1 (proj2 (admin_session _ (click (AdminPassword "admin123") seed_world))
                   eq_refl _)).
  repeat constructor.
Defined.

(** X19. Without a session nothing can be done.  When nobody is identified
    and the administrator's session is closed, every control other than
    the identity dialog and the correct administrator's password leaves
    the application and its storage exactly as they are. *)
Theorem anonymous_clicks_change_nothing (c : Click) (w : World) :
  user (state w) = None ->
  isAdmin (state w) = false ->
  Forall reservation_invariant (gifts (state w)) ->
  ~ opens_session c ->
  click c w = w.
Proof.
  intros Hu Ha Hinv Hc.
  assert (Hcard : forall g, GiftCard_click g w = w).
  { intros g. unfold GiftCard_click, GiftCard, isMine. rewrite Hu.
    destruct (isReserved g); cbn; [reflexivity|].
    now apply handleReserve_anonymous. }
  destruct c as [n|i|n|f iso|u| |p| |n|d n1 n2|r|c]; cbn [click];
    rewrite ?Ha, ?Hu; try reflexivity.
  - destruct (gifts (state w) !! n); [apply Hcard|reflexivity].
  - destruct (selectedGift (Some i) (gifts (state w))); [apply Hcard|reflexivity].
  - assert (E : myGifts None (gifts (state w)) = []).
    { unfold myGifts. induction Hinv as [|g gs Hg _ IH]; cbn; [reflexivity|].
      destruct (isReserved g) eqn:Er; cbn; [|exact IH].
      destruct (bool_decide (reservedBy g = None)) eqn:Eb; [|exact IH].
      apply bool_decide_eq_true, Hg in Eb. congruence. }
    rewrite E. reflexivity.
  - cbn [step]. unfold submitPresenca. destruct (presencaSchema f); [|reflexivity].
    unfold onConfirmReservaPresenca. now rewrite Hu.
  - exfalso. apply Hc. exact I.
  - unfold handleAdminLogin. cbn in Hc. apply String.eqb_neq in Hc. now rewrite Hc.
Qed.

Lemma anonymous_clicks_change_nothing_witness :
  click (CardControl 0) seed_world = seed_world.
Proof.
  apply anonymous_clicks_change_nothing; [reflexivity|reflexivity| |intros []].
  apply INITIAL_GIFTS_invariant.
Defined.

(* ===================================================================== *)
(** * The metrics after a submission                                      *)
(* ===================================================================== *)

Section Metrics.

Implicit Types (r c : Presenca) (cs : list Presenca).

Lemma sum_attending_upsert (f : Presenca -> Z) r cs :
  sum_attending f (upsert r cs)
  = sum_attending f cs
    - counted f (List.find (fun c => String.eqb (phone c) (phone r)) cs)
    + counted f (Some r).
Proof.
  unfold sum_attending.
  induction cs as [|c cs IH]; cbn [upsert List.find counted].
  - cbn [List.filter]. destruct (attending r); cbn [List.map foldr]; lia.
  - destruct (String.eqb (phone c) (phone r)).
    + cbn [List.filter counted].
      destruct (attending r), (attending c); cbn [List.map foldr]; lia.
    + cbn [List.filter]. destruct (attending c); cbn [List.map foldr]; rewrite IH;
        cbn [counted]; lia.
Qed.

Lemma length_upsert r cs :
  Z.of_nat (length (upsert r cs))
  = Z.of_nat (length cs)
    + match List.find (fun c => String.eqb (phone c) (phone r)) cs with
      | Some _ => 0
      | None => 1
      end.
Proof.
  induction cs as [|c cs IH]; cbn [upsert List.find]; [reflexivity|].
  destruct (String.eqb (phone c) (phone r)); cbn [length]; lia.
Qed.

Lemma declined_upsert r cs :
  Z.of_nat (totalNaoVao (upsert r cs))
  = Z.of_nat (totalNaoVao cs)
    - declined (List.find (fun c => String.eqb (phone c) (phone r)) cs)
    + declined (Some r).
Proof.
  unfold totalNaoVao.
  induction cs as [|c cs IH]; cbn [upsert List.find declined].
  - cbn [List.filter]. destruct (attending r); cbn [negb length]; lia.
  - destruct (String.eqb (phone c) (phone r)).
    + cbn [List.filter declined].
      destruct (attending r), (attending c); cbn [negb length]; lia.
    + cbn [List.filter declined] in *. destruct (attending c); cbn [negb length]; lia.
Qed.

End Metrics.

(** X20. The metrics count the last answer of each contact and nothing
    else.  After an accepted attendance form, each total is what it was,
    less what the previous record of the guest added to it, plus what the
    new answer adds: the party when the guest attends, nothing when the
    guest declines; and the register is one record longer only when the
    guest had no record. *)
Theorem totals_after_confirm (f : PresencaForm) (iso : string) (w : World) (u : User) :
  user (state w) = Some u ->
  accepted f = true ->
  let cs := confirmacoes (state w) in
  let cs' := confirmacoes (state (step (ConfirmPresenca f iso) w)) in
  let old := userReserva (Some u) cs in
  totalPessoas cs'
  = totalPessoas cs - counted guestsCount old
    + (if form_attending f then adults f + children f else 0)
  /\ totalAdultos cs'
     = totalAdultos cs - counted adultsCount old + (if form_attending f then adults f else 0)
  /\ totalCriancas cs'
     = totalCriancas cs - counted childrenCount old
       + (if form_attending f then children f else 0)
  /\ Z.of_nat (totalNaoVao cs')
     = Z.of_nat (totalNaoVao cs) - declined old + (if form_attending f then 0 else 1)
  /\ Z.of_nat (totalReservas cs')
     = Z.of_nat (totalReservas cs) + match old with Some _ => 0 | None => 1 end.
Proof.
  intros Hu Hacc. cbv zeta.
  rewrite confirmacoes_step, Hu, Hacc.
  unfold totalPessoas, totalAdultos, totalCriancas, totalReservas, userReserva.
  rewrite !fold_attending, !sum_attending_upsert, declined_upsert, length_upsert.
  cbn [counted declined record_of_submit attending guestsCount adultsCount childrenCount phone].
  repeat split; lia.
Qed.

Lemma totals_after_confirm_witness :
  totalPessoas
    (confirmacoes (state (step (ConfirmPresenca (mkPresencaForm false 1 0) "t2")
                            (run [SaveUser maria;
                                  ConfirmPresenca (mkPresencaForm true 2 1) "t1"] seed_world))))
  = totalPessoas
      (confirmacoes (state (run [SaveUser maria;
                                 ConfirmPresenca (mkPresencaForm true 2 1) "t1"] seed_world)))
    - counted guestsCount
        (userReserva (Some maria)
           (confirmacoes (state (run [SaveUser maria;
                                      ConfirmPresenca (mkPresencaForm true 2 1) "t1"]
                                     seed_world))))
    + 0.
Proof.
  exact (proj1 (totals_after_confirm (mkPresencaForm false 1 0) "t2"
                  (run [SaveUser maria; ConfirmPresenca (mkPresencaForm true 2 1) "t1"]
                     seed_world)
                  maria eq_refl eq_refl)).
Defined.

(* ===================================================================== *)
(** * The count of reserved gifts                                         *)
(* ===================================================================== *)

Section Counts.

Implicit Types (w : World) (g h : Gift) (u : User) (i a : string).

Lemma map_reserve_absent i a (gs : list Gift) :
  ~ In i (List.map id gs) -> List.map (reserve_item i a) gs = gs.
Proof.
  intros Hn. rewrite <- (List.map_id gs) at 2. apply List.map_ext_in.
  intros g Hg. unfold reserve_item.
  destruct (String.eqb_spec (id g) i) as [E|E]; [|reflexivity].
  exfalso. apply Hn. rewrite <- E. now apply List.in_map.
Qed.

Lemma map_cancel_absent i (gs : list Gift) :
  ~ In i (List.map id gs) -> List.map (cancel_item i) gs = gs.
Proof.
  intros Hn. rewrite <- (List.map_id gs) at 2. apply List.map_ext_in.
  intros g Hg. unfold cancel_item.
  destruct (String.eqb_spec (id g) i) as [E|E]; [|reflexivity].
  exfalso. apply Hn. rewrite <- E. now apply List.in_map.
Qed.

Lemma count_reserve i a (gs : list Gift) g :
  List.NoDup (List.map id gs) -> In g gs -> id g = i ->
  reservedGiftsCount (List.map (reserve_item i a) gs)
  = (reservedGiftsCount gs + if isReserved g then 0 else 1)%nat.
Proof.
  unfold reservedGiftsCount.
  induction gs as [|x gs IH]; cbn [List.map]; intros Hnd Hg Hi; [destruct Hg|].
  inversion Hnd as [|y l Hx Hnd']; subst y l.
  destruct Hg as [->|Hg].
  - rewrite Hi in Hx. rewrite (map_reserve_absent i a gs Hx).
    unfold reserve_item. apply String.eqb_eq in Hi. rewrite Hi.
    cbn [List.filter with_reservation isReserved length].
    destruct (isReserved g); cbn [length]; lia.
  - assert (Hne : id x <> i).
    { intros E. apply Hx. rewrite E, <- Hi. now apply List.in_map. }
    unfold reserve_item at 1. apply String.eqb_neq in Hne. rewrite Hne.
    cbn [List.filter]. destruct (isReserved x); cbn [length]; rewrite (IH Hnd' Hg Hi); lia.
Qed.

Lemma count_cancel i (gs : list Gift) g :
  List.NoDup (List.map id gs) -> In g gs -> id g = i ->
  (reservedGiftsCount (List.map (cancel_item i) gs) + if isReserved g then 1 else 0)%nat
  = reservedGiftsCount gs.
Proof.
  unfold reservedGiftsCount.
  induction gs as [|x gs IH]; cbn [List.map]; intros Hnd Hg Hi; [destruct Hg|].
  inversion Hnd as [|y l Hx Hnd']; subst y l.
  destruct Hg as [->|Hg].
  - rewrite Hi in Hx. rewrite (map_cancel_absent i gs Hx).
    unfold cancel_item. apply String.eqb_eq in Hi. rewrite Hi.
    cbn [List.filter with_reservation isReserved length].
    destruct (isReserved g); cbn [length]; lia.
  - assert (Hne : id x <> i).
    { intros E. apply Hx. rewrite E, <- Hi. now apply List.in_map. }
    unfold cancel_item at 1. apply String.eqb_neq in Hne. rewrite Hne.
    cbn [List.filter]. destruct (isReserved x); cbn [length]; rewrite <- (IH Hnd' Hg Hi); lia.
Qed.

End Counts.

(** X21. In a catalog with distinct ids, choosing a gift raises the count
    of reserved gifts by one when the gift was free and leaves it as it is
    when the gift was taken; releasing it lowers the count by one when it
    was taken; neither changes the number of gifts; and the gift chosen is
    then listed under "Meus Escolhidos" of the guest. *)
Theorem reservedGiftsCount_after_choice (i : string) (w : World) (u : User) (g : Gift) :
  List.NoDup (List.map id (gifts (state w))) ->
  user (state w) = Some u ->
  In g (gifts (state w)) ->
  id g = i ->
  reservedGiftsCount (gifts (state (handleReserve i w)))
  = (reservedGiftsCount (gifts (state w)) + if isReserved g then 0 else 1)%nat
  /\ (reservedGiftsCount (gifts (state (handleCancelReserve i w)))
      + if isReserved g then 1 else 0)%nat
     = reservedGiftsCount (gifts (state w))
  /\ length (gifts (state (handleReserve i w))) = length (gifts (state w))
  /\ length (gifts (state (handleCancelReserve i w))) = length (gifts (state w))
  /\ In (reserve_item i (user_name u) g)
        (myGifts (Some u) (gifts (state (handleReserve i w)))).
Proof.
  intros Hnd Hu Hg Hi.
  rewrite (gifts_handleReserve i w u Hu), gifts_handleCancelReserve.
  split; [now apply count_reserve|]. split; [now apply count_cancel|].
  rewrite !List.length_map. split; [reflexivity|]. split; [reflexivity|].
  unfold myGifts. apply List.filter_In. split; [now apply List.in_map|].
  unfold reserve_item. apply String.eqb_eq in Hi. rewrite Hi. cbn.
  now rewrite bool_decide_eq_true_2.
Qed.

Lemma reservedGiftsCount_after_choice_witness :
  reservedGiftsCount (gifts (state (handleReserve "2" bruno_arrives)))
  = (reservedGiftsCount (gifts (state bruno_arrives)) + 1)%nat.
Proof.
  refine (proj1 (reservedGiftsCount_after_choice "2" bruno_arrives bruno
                   (hd (mkGift EmptyString EmptyString EmptyString EmptyString None None None
                          false)
                       (tl INITIAL_GIFTS)) _ eq_refl _ eq_refl)).
  - repeat constructor; cbn; intuition discriminate.
  - right. now left.
Defined.

(* ===================================================================== *)
(** * The pages and the handlers                                          *)
(* ===================================================================== *)

Section Pages.

Implicit Types (w : World) (c : Click) (cs : list Click).

Lemma run_cons (a : Action) (acts : list Action) w : run (a :: acts) w = run acts (step a w).
Proof. reflexivity. Qed.

Lemma clicks_run cs w :
  exists acts, clicks cs w = run acts w /\ (length acts <= length cs)%nat.
Proof.
  revert w. induction cs as [|c cs IH]; intros w.
  - exists []. split; [reflexivity|cbn; lia].
  - cbn [clicks fold_left]. fold (clicks cs (click c w)).
    destruct (click_step c w) as [->|[a ->]].
    + destruct (IH w) as (acts & E & Hl). exists acts. split; [exact E|cbn; lia].
    + destruct (IH (step a w)) as (acts & E & Hl). exists (a :: acts).
      split; [now rewrite run_cons|cbn; lia].
Qed.

End Pages.

(** X22. The pages do nothing that the handlers could not do: every
    sequence of clicks is a run of at most as many handler calls.  Hence
    what holds along every run holds whatever is clicked: the reservation
    invariant of the catalog, the register keyed uniquely by phone, and
    its consistent counts. *)
Theorem clicks_are_runs (cs : list Click) (w : World) :
  (exists acts, clicks cs w = run acts w /\ (length acts <= length cs)%nat)
  /\ (Forall reservation_invariant (gifts (state w)) ->
      Forall reservation_invariant (gifts (state (clicks cs w))))
  /\ (List.NoDup (List.map phone (confirmacoes (state w))) ->
      List.NoDup (List.map phone (confirmacoes (state (clicks cs w)))))
  /\ (Forall party_consistent (confirmacoes (state w)) ->
      Forall party_consistent (confirmacoes (state (clicks cs w)))).
Proof.
  destruct (clicks_run cs w) as (acts & E & Hl).
  split; [now exists acts|]. rewrite E.
  split; [apply run_invariant|]. split; [apply run_NoDup|apply run_consistent].
Qed.
